(** * cuda_linter_ruff: the buffer reconciler of [linter.py]

    A shallow embedding of [Command._apply_changes_preserving_states],
    [Command._fix_file] and [Command.format_file], together with an
    in-memory model of the host editor object [ed] they drive. *)

From Stdlib Require Import Ascii String.
From Stdlib Require Import List ZArith Lia Bool Arith.
From Corelib Require PrimFloat.
Import ListNotations.
Local Open Scope Z_scope.

(** ** Python text *)

(** A Python [str] is a sequence of code points. *)
Definition char := N.
Definition text := list char.

Definition LF : char := 10%N.
Definition CR : char := 13%N.

(** A string literal of the source, as code points. *)
Fixpoint py (s : string) : text :=
  match s with
  | EmptyString => []
  | String c r => N_of_ascii c :: py r
  end.

Fixpoint text_eqb (s t : text) : bool :=
  match s, t with
  | [], [] => true
  | c :: s', d :: t' => N.eqb c d && text_eqb s' t'
  | _, _ => false
  end.

(** [bool(s)] of a Python sequence: false exactly for the empty one. *)
Definition truthy {A} (l : list A) : bool :=
  match l with [] => false | _ :: _ => true end.

(** The line boundaries of [str.splitlines]: LF, VT, FF, CR, FS, GS, RS,
    NEL, LS and PS (CR LF counts as one boundary). *)
Definition is_linebreak (c : char) : bool :=
  (N.eqb c 10 || N.eqb c 11 || N.eqb c 12 || N.eqb c 13 ||
   N.eqb c 28 || N.eqb c 29 || N.eqb c 30 || N.eqb c 133 ||
   N.eqb c 8232 || N.eqb c 8233)%N.

(** [s.splitlines(keepends=False)]; [cur] is the line being scanned. *)
Fixpoint splitlines_from (cur s : text) : list text :=
  match s with
  | [] => match cur with [] => [] | _ :: _ => [cur] end
  | c :: rest =>
      if is_linebreak c then
        match rest with
        | d :: rest' =>
            if N.eqb c CR && N.eqb d LF
            then cur :: splitlines_from [] rest'
            else cur :: splitlines_from [] rest
        | [] => cur :: splitlines_from [] rest
        end
      else splitlines_from (cur ++ [c]) rest
  end.

Definition splitlines (s : text) : list text := splitlines_from [] s.

(** [s.endswith('\n')]. *)
Definition endswith_lf (s : text) : bool :=
  match rev s with
  | c :: _ => N.eqb c LF
  | [] => false
  end.

(** [needle in hay] for strings. *)
Fixpoint startswith (p s : text) : bool :=
  match p, s with
  | [], _ => true
  | c :: p', d :: s' => N.eqb c d && startswith p' s'
  | _ :: _, [] => false
  end.

Fixpoint contains (needle hay : text) : bool :=
  startswith needle hay ||
  match hay with
  | [] => false
  | _ :: hay' => contains needle hay'
  end.

(** ** The host document

    The plugin drives the editor object [ed] of the host module
    [cudatext]; the repository imports that module and does not contain
    it. The editor below is an in-memory stand-in for it, with the data
    model and the calls of the spec (sections 3 and 6). *)

(** Modelled from the spec: the host keeps the document as an ordered
    sequence of lines without their terminators; here the rows of a text
    are its pieces between LFs, so a text that ends with LF has an empty
    last row. *)
Fixpoint split_lf_from (cur s : text) : list text :=
  match s with
  | [] => [cur]
  | c :: rest =>
      if N.eqb c LF then cur :: split_lf_from [] rest
      else split_lf_from (cur ++ [c]) rest
  end.

Definition split_lf (s : text) : list text := split_lf_from [] s.

Fixpoint join_lf (ls : list text) : text :=
  match ls with
  | [] => []
  | [l] => l
  | l :: rest => l ++ LF :: join_lf rest
  end.

Definition lf_free (l : text) : Prop := ~ In LF l.

(** Modelled from the spec: the per-line tag of the host, an integer
    constant of the missing module [cudatext]; the reconciler writes only
    [LINESTATE_CHANGED]. *)
Definition LineState := Z.
Definition LINESTATE_NORMAL : LineState := 0.
Definition LINESTATE_CHANGED : LineState := 1.

(** Modelled from the spec: a caret as [ed.get_carets()] returns it,
    position and selection end [(x, y, x2, y2)]; the reconciler reads the
    first two fields. *)
Record Caret := mkCaret { cx : Z; cy : Z; cx2 : Z; cy2 : Z }.

(** Every call the plugin makes on the host, in the order made. *)
Inductive HostCall :=
| GetLineStates
| GetCarets
| GetLineCount
| GetLineLen (y : Z)
| GetTextLine (y : Z)
| GetTextAll
| GetFilename
| Replace (x1 y1 x2 y2 : Z) (t : text)
| Insert (x y : Z) (t : text)
| Delete (x1 y1 x2 y2 : Z)
| SetLineState (i : Z) (s : LineState)
| SetCaret (x y : Z)
| ActionUpdate
| MsgStatus (m : text)
| MsgBox (m : text).

(** The calls that write to the document, its line states or its carets,
    or that notify the host of a change. *)
Definition is_mutation (c : HostCall) : bool :=
  match c with
  | Replace _ _ _ _ _ | Insert _ _ _ | Delete _ _ _ _
  | SetLineState _ _ | SetCaret _ _ | ActionUpdate => true
  | _ => false
  end.

Definition is_message (c : HostCall) : bool :=
  match c with
  | MsgStatus _ | MsgBox _ => true
  | _ => false
  end.

(** Modelled from the spec: the live document of the host with its
    per-line state array and its carets. The document is kept as its text
    (its rows are the LF-separated pieces, so there is always at least
    one); [ed_calls] is the log of calls received and [ed_filename] the
    file name of the tab. *)
Record Editor := mkEditor {
  ed_filename : text;
  ed_text : text;
  ed_states : list LineState;
  ed_carets : list Caret;
  ed_calls : list HostCall
}.

Definition ed_lines (e : Editor) : list text := split_lf (ed_text e).

Definition line_at (ls : list text) (y : nat) : text := nth y ls [].

(** Modelled from the spec: a position of a call resolved against the
    document. A row past the last one denotes the end of the document; a
    column past the end of its line denotes the end of that line ([firstn]
    and [skipn] stop there). The general properties below that depend on
    where a call lands are stated for calls on rows that exist; a call on
    a row past the last one is evaluated on one sample document only. *)
Definition resolve (ls : list text) (x y : Z) : nat * nat :=
  if (Z.to_nat y <? length ls)%nat then (Z.to_nat x, Z.to_nat y)
  else (length (last ls []), (length ls - 1)%nat).

(** Modelled from the spec: the atomic region replace of the host. The
    rows once the range from [(x1, y1)] to [(x2, y2)] is replaced by [t]:
    the part of row [y1] before the range, [t], and the part of row [y2]
    after it are cut again at the LFs of [t]. *)
Definition splice_lines (ls : list text) (p1 p2 : nat * nat) (t : text)
  : list text :=
  let '(x1, y1) := p1 in
  let '(x2, y2) := p2 in
  firstn y1 ls
  ++ split_lf (firstn x1 (line_at ls y1) ++ t ++ skipn x2 (line_at ls y2))
  ++ skipn (S y2) ls.

(** Modelled from the spec: the state array stays one tag per row. Rows
    outside the range keep their tags; of the rewritten rows the last keeps
    the tag of row [y2] when nothing of that row was cut away, and the
    others get the tag the host gives to rows it edits. The spec leaves the
    host's own tagging open, and no property below depends on which tag
    that is. *)
Definition splice_states (ss : list LineState) (ls : list text)
    (p1 p2 : nat * nat) (t : text) : list LineState :=
  let '(x1, y1) := p1 in
  let '(x2, y2) := p2 in
  let n := length (split_lf (firstn x1 (line_at ls y1) ++ t
                             ++ skipn x2 (line_at ls y2))) in
  firstn y1 ss
  ++ repeat LINESTATE_CHANGED (n - 1)
  ++ [if (x2 =? 0)%nat then nth y2 ss LINESTATE_CHANGED
      else LINESTATE_CHANGED]
  ++ skipn (S y2) ss.

Definition edit_range (e : Editor) (x1 y1 x2 y2 : Z) (t : text)
    (c : HostCall) : Editor :=
  let ls := ed_lines e in
  let p1 := resolve ls x1 y1 in
  let p2 := resolve ls x2 y2 in
  mkEditor (ed_filename e) (join_lf (splice_lines ls p1 p2 t))
           (splice_states (ed_states e) ls p1 p2 t)
           (ed_carets e)
           (ed_calls e ++ [c]).

(** ** Calls on the host, as state transformers *)

Definition M (A : Type) : Type := Editor -> A * Editor.

Definition ret {A} (a : A) : M A := fun e => (a, e).
Definition bind {A B} (m : M A) (k : A -> M B) : M B :=
  fun e => let '(a, e') := m e in k a e'.

Notation "x <- m ;; k" := (bind m (fun x => k))
  (at level 61, m at next level, right associativity).
Notation "m ;;; k" := (bind m (fun _ => k))
  (at level 61, right associativity).

Definition logged (c : HostCall) (e : Editor) : Editor :=
  mkEditor (ed_filename e) (ed_text e) (ed_states e) (ed_carets e)
           (ed_calls e ++ [c]).

Definition in_rows (ls : list text) (y : Z) : bool :=
  (0 <=? y) && (y <? Z.of_nat (length ls)).

(** [ed.get_prop(PROP_LINE_STATES)] *)
Definition get_line_states : M (list LineState) :=
  fun e => (ed_states e, logged GetLineStates e).

(** [ed.get_carets()] *)
Definition get_carets : M (list Caret) :=
  fun e => (ed_carets e, logged GetCarets e).

(** [ed.get_line_count()] *)
Definition get_line_count : M Z :=
  fun e => (Z.of_nat (length (ed_lines e)), logged GetLineCount e).

(** [ed.get_line_len(y)]: -1 for a row that does not exist. *)
Definition get_line_len (y : Z) : M Z :=
  fun e => ((if in_rows (ed_lines e) y
             then Z.of_nat (length (line_at (ed_lines e) (Z.to_nat y)))
             else -1),
            logged (GetLineLen y) e).

(** [ed.get_text_line(y)]; the reconciler asks for the last row only,
    which always exists. *)
Definition get_text_line (y : Z) : M text :=
  fun e => (line_at (ed_lines e) (Z.to_nat y), logged (GetTextLine y) e).

(** [ed.get_text_all()] *)
Definition get_text_all : M text :=
  fun e => (ed_text e, logged GetTextAll e).

(** [ed.get_filename()] *)
Definition get_filename : M text :=
  fun e => (ed_filename e, logged GetFilename e).

(** [ed.replace(x1, y1, x2, y2, t)] *)
Definition replace (x1 y1 x2 y2 : Z) (t : text) : M unit :=
  fun e => (tt, edit_range e x1 y1 x2 y2 t (Replace x1 y1 x2 y2 t)).

(** [ed.insert(x, y, t)] *)
Definition insert (x y : Z) (t : text) : M unit :=
  fun e => (tt, edit_range e x y x y t (Insert x y t)).

(** [ed.delete(x1, y1, x2, y2)] *)
Definition delete (x1 y1 x2 y2 : Z) : M unit :=
  fun e => (tt, edit_range e x1 y1 x2 y2 [] (Delete x1 y1 x2 y2)).

Fixpoint set_nth {A} (l : list A) (i : nat) (a : A) : list A :=
  match l, i with
  | [], _ => []
  | _ :: r, O => a :: r
  | b :: r, S i' => b :: set_nth r i' a
  end.

(** [ed.set_prop(PROP_LINE_STATE, (i, s))]: no effect for a row that does
    not exist. *)
Definition set_line_state (i : Z) (s : LineState) : M unit :=
  fun e => (tt,
            mkEditor (ed_filename e) (ed_text e)
                     (if 0 <=? i then set_nth (ed_states e) (Z.to_nat i) s
                      else ed_states e)
                     (ed_carets e)
                     (ed_calls e ++ [SetLineState i s])).

(** [ed.set_caret(x, y)]: with the default [id=CARET_SET_ONE] the editor
    is left with this one caret, without selection. *)
Definition set_caret (x y : Z) : M unit :=
  fun e => (tt,
            mkEditor (ed_filename e) (ed_text e) (ed_states e)
                     [mkCaret x y (-1) (-1)]
                     (ed_calls e ++ [SetCaret x y])).

(** [ed.action(EDACTION_UPDATE)] *)
Definition action_update : M unit :=
  fun e => (tt, logged ActionUpdate e).

Definition msg_status (m : text) : M unit :=
  fun e => (tt, logged (MsgStatus m) e).

Definition msg_box (m : text) : M unit :=
  fun e => (tt, logged (MsgBox m) e).

(** [for x in xs: body(x)] *)
Fixpoint for_each {A} (xs : list A) (body : A -> M unit) : M unit :=
  match xs with
  | [] => ret tt
  | x :: r => body x ;;; for_each r body
  end.

(** [range(a, b)] *)
Definition range (a b : nat) : list nat := seq a (b - a).

(** ** [difflib.SequenceMatcher(None, a, b).get_opcodes()]

    Modelled from the spec: the edit script of step 4 comes from the
    matcher of the Python standard library, which the repository calls and
    does not contain. The definitions follow that routine with no junk
    predicate and the default [autojunk=True]: the longest matching block
    of a range, then the blocks to its left and right, adjacent blocks
    merged, and the opcodes read off the gaps between blocks. *)

Fixpoint count_line (x : text) (b : list text) : nat :=
  match b with
  | [] => O
  | y :: r => ((if text_eqb x y then 1 else 0) + count_line x r)%nat
  end.

(** [__chain_b]: when [b] has 200 elements or more, an element occurring
    more than [len(b) // 100 + 1] times is popular and is dropped from the
    index [b2j]. *)
Definition popular (b : list text) (x : text) : bool :=
  ((200 <=? length b) && (length b / 100 + 1 <? count_line x b))%nat.

Fixpoint indices_from (x : text) (b : list text) (j : nat) : list nat :=
  match b with
  | [] => []
  | y :: r =>
      if text_eqb x y then j :: indices_from x r (S j)
      else indices_from x r (S j)
  end.

Definition b2j (b : list text) (x : text) : list nat :=
  if popular b x then [] else indices_from x b O.

(** The dictionaries [j2len] and [newj2len]. *)
Fixpoint j2len_get (j : nat) (d : list (nat * nat)) : nat :=
  match d with
  | [] => O
  | (j', k) :: r => if (j =? j')%nat then k else j2len_get j r
  end.

Definition Match := (nat * nat * nat)%type.

(** The inner loop of [find_longest_match] for one [i]: [js] are the
    indices of [a[i]] in [b] that lie in [[blo, bhi)]. *)
Fixpoint flm_inner (i : nat) (js : list nat) (j2len : list (nat * nat))
    (newj2len : list (nat * nat)) (best : Match)
  : list (nat * nat) * Match :=
  match js with
  | [] => (newj2len, best)
  | j :: r =>
      let k := S (match j with O => O | S j' => j2len_get j' j2len end) in
      let '(besti, bestj, bestsize) := best in
      flm_inner i r j2len ((j, k) :: newj2len)
        (if (bestsize <? k)%nat then (i + 1 - k, j + 1 - k, k)%nat
         else best)
  end.

Fixpoint flm_outer (a b : list text) (blo bhi : nat) (rows : list nat)
    (j2len : list (nat * nat)) (best : Match) : Match :=
  match rows with
  | [] => best
  | i :: r =>
      let js := filter (fun j => (blo <=? j) && (j <? bhi))%nat
                       (b2j b (nth i a [])) in
      let '(newj2len, best') := flm_inner i js j2len [] best in
      flm_outer a b blo bhi r newj2len best'
  end.

(** The two extension loops that apply without junk. *)
Fixpoint extend_back (fuel : nat) (a b : list text) (alo blo : nat)
    (m : Match) : Match :=
  match fuel with
  | O => m
  | S f =>
      let '(besti, bestj, bestsize) := m in
      if (alo <? besti)%nat && (blo <? bestj)%nat
         && text_eqb (nth (besti - 1) a []) (nth (bestj - 1) b [])
      then extend_back f a b alo blo
             (besti - 1, bestj - 1, bestsize + 1)%nat
      else m
  end.

Fixpoint extend_forth (fuel : nat) (a b : list text) (ahi bhi : nat)
    (m : Match) : Match :=
  match fuel with
  | O => m
  | S f =>
      let '(besti, bestj, bestsize) := m in
      if (besti + bestsize <? ahi)%nat && (bestj + bestsize <? bhi)%nat
         && text_eqb (nth (besti + bestsize) a [])
                     (nth (bestj + bestsize) b [])
      then extend_forth f a b ahi bhi (besti, bestj, bestsize + 1)%nat
      else m
  end.

Definition find_longest_match (a b : list text) (alo ahi blo bhi : nat)
  : Match :=
  let m := flm_outer a b blo bhi (seq alo (ahi - alo)) [] (alo, blo, O) in
  let m := extend_back (length a) a b alo blo m in
  extend_forth (length a) a b ahi bhi m.

(** The matching blocks of a range, in increasing order: the longest
    match, and the blocks to its left and to its right. *)
Fixpoint matching_blocks_in (fuel : nat) (a b : list text)
    (alo ahi blo bhi : nat) : list Match :=
  match fuel with
  | O => []
  | S f =>
      let '(i, j, k) := find_longest_match a b alo ahi blo bhi in
      if (k =? 0)%nat then []
      else
        (if (alo <? i) && (blo <? j) then matching_blocks_in f a b alo i blo j
         else [])%nat
        ++ [(i, j, k)]
        ++ (if (i + k <? ahi) && (j + k <? bhi)
            then matching_blocks_in f a b (i + k) ahi (j + k) bhi
            else [])%nat
  end.

(** Adjacent blocks are merged. *)
Fixpoint collapse (cur : Match) (ms : list Match) : list Match :=
  let '(i1, j1, k1) := cur in
  match ms with
  | [] => if (k1 =? 0)%nat then [] else [cur]
  | (i2, j2, k2) :: r =>
      if ((i1 + k1 =? i2) && (j1 + k1 =? j2))%nat
      then collapse (i1, j1, k1 + k2)%nat r
      else (if (k1 =? 0)%nat then [] else [cur]) ++ collapse (i2, j2, k2) r
  end.

Definition get_matching_blocks (a b : list text) : list Match :=
  collapse (O, O, O)
    (matching_blocks_in (S (length a)) a b O (length a) O (length b))
  ++ [(length a, length b, O)].

Inductive Tag := tag_equal | tag_replace | tag_delete | tag_insert.

(** An opcode [(tag, i1, i2, j1, j2)]. *)
Record Opcode := mkOp {
  op_tag : Tag; op_i1 : nat; op_i2 : nat; op_j1 : nat; op_j2 : nat
}.

Fixpoint opcodes_from (i j : nat) (ms : list Match) : list Opcode :=
  match ms with
  | [] => []
  | (ai, bj, size) :: r =>
      (if (i <? ai) && (j <? bj) then [mkOp tag_replace i ai j bj]
       else if (i <? ai) then [mkOp tag_delete i ai j bj]
       else if (j <? bj) then [mkOp tag_insert i ai j bj]
       else [])%nat
      ++ (if (size =? 0)%nat then []
          else [mkOp tag_equal ai (ai + size) bj (bj + size)])
      ++ opcodes_from (ai + size) (bj + size) r
  end.

Definition get_opcodes (a b : list text) : list Opcode :=
  opcodes_from O O (get_matching_blocks a b).

(** ** [Command._apply_changes_preserving_states] *)

(** The caret block, which the source has once in each path (lines 389-400
    and 468-479, the same statements): [carets] is the list saved before
    the edits. *)
Definition restore_caret (carets : list Caret) : M unit :=
  match carets with
  | [] => ret tt
  | c :: _ =>
      let caret_x := cx c in
      let caret_y := cy c in
      new_line_count <- get_line_count ;;
      let caret_y :=
        if caret_y >=? new_line_count then new_line_count - 1
        else caret_y in
      new_line_len <- get_line_len caret_y ;;
      let caret_x :=
        if caret_x >? new_line_len then new_line_len else caret_x in
      set_caret caret_x caret_y
  end.

(** The loop of the fast path over [range(len(new_lines))]. *)
Definition restore_states (old_lines new_lines : list text)
    (old_states : list LineState) : M unit :=
  for_each (range 0 (length new_lines)) (fun i =>
    if (i <? length old_lines)%nat
       && text_eqb (nth i old_lines []) (nth i new_lines [])
    then set_line_state (Z.of_nat i) (nth i old_states LINESTATE_NORMAL)
    else set_line_state (Z.of_nat i) LINESTATE_CHANGED).

Definition fast_path (old_lines new_lines : list text) (new_text : text)
  : M unit :=
  old_states <- get_line_states ;;
  carets <- get_carets ;;
  line_count <- get_line_count ;;
  last_line_len <- get_line_len (line_count - 1) ;;
  replace 0 0 last_line_len (line_count - 1) new_text ;;;
  (if truthy old_states && (length old_lines <=? length old_states)%nat
   then restore_states old_lines new_lines old_states
   else ret tt) ;;;
  restore_caret carets ;;;
  action_update.

(** [for _ in range(i2 - i1): ed.delete(0, adj_i1, 0, adj_i1 + 1)] *)
Definition delete_lines (n : nat) (adj_i1 : Z) : M unit :=
  for_each (range 0 n) (fun _ => delete 0 adj_i1 0 (adj_i1 + 1)).

(** [for idx in range(j1, j2): ed.insert(0, adj_i1, new_lines[idx] + '\n');
    adj_i1 += 1] *)
Fixpoint insert_lines (new_lines : list text) (idxs : list nat)
    (adj_i1 : Z) : M unit :=
  match idxs with
  | [] => ret tt
  | idx :: r =>
      insert 0 adj_i1 (nth idx new_lines [] ++ [LF]) ;;;
      insert_lines new_lines r (adj_i1 + 1)
  end.

(** One turn of the opcode loop; the result is the new [offset]. *)
Definition apply_opcode (new_lines : list text) (op : Opcode) (offset : Z)
  : M Z :=
  let i1 := op_i1 op in
  let i2 := op_i2 op in
  let j1 := op_j1 op in
  let j2 := op_j2 op in
  let adj_i1 := Z.of_nat i1 + offset in
  match op_tag op with
  | tag_equal => ret offset
  | tag_replace =>
      delete_lines (i2 - i1) adj_i1 ;;;
      insert_lines new_lines (range j1 j2) adj_i1 ;;;
      ret (offset + ((Z.of_nat j2 - Z.of_nat j1)
                     - (Z.of_nat i2 - Z.of_nat i1)))
  | tag_delete =>
      delete_lines (i2 - i1) adj_i1 ;;;
      ret (offset - (Z.of_nat i2 - Z.of_nat i1))
  | tag_insert =>
      insert_lines new_lines (range j1 j2) adj_i1 ;;;
      ret (offset + (Z.of_nat j2 - Z.of_nat j1))
  end.

Fixpoint apply_opcodes (new_lines : list text) (ops : list Opcode)
    (offset : Z) : M Z :=
  match ops with
  | [] => ret offset
  | op :: r =>
      offset' <- apply_opcode new_lines op offset ;;
      apply_opcodes new_lines r offset'
  end.

(** The block under [if new_text.endswith('\n')]. *)
Definition force_trailing_newline : M unit :=
  line_count <- get_line_count ;;
  let last_line_idx := line_count - 1 in
  last_line_text <- get_text_line last_line_idx ;;
  last_line_len <- get_line_len last_line_idx ;;
  replace 0 last_line_idx last_line_len last_line_idx
          (last_line_text ++ [LF]).

Definition slow_path (old_lines new_lines : list text) (new_text : text)
  : M unit :=
  carets <- get_carets ;;
  let opcodes := get_opcodes old_lines new_lines in
  apply_opcodes new_lines opcodes 0 ;;;
  (if endswith_lf new_text then force_trailing_newline else ret tt) ;;;
  restore_caret carets ;;;
  action_update.

Definition _apply_changes_preserving_states (old_text new_text : text)
  : M unit :=
  let old_lines := splitlines old_text in
  let new_lines := splitlines new_text in
  if text_eqb old_text new_text then ret tt
  else if (length old_lines =? length new_lines)%nat
  then fast_path old_lines new_lines new_text
  else slow_path old_lines new_lines new_text.

(** The editor after a run. *)
Definition run {A} (m : M A) (e : Editor) : Editor := snd (m e).

(** ** [Command._fix_file] and [Command.format_file] *)

(** What [Ruff(ed)] leaves in the linter object; [timeout_str] is
    [linter.timeout] as the f-string prints it. *)
Record Linter := mkLinter {
  ruff_path : option text;
  select_codes : list text;
  ignore_codes : list text;
  timeout_str : text
}.

(** How [subprocess.run] ends: a [CompletedProcess], [TimeoutExpired], or
    another exception [e] with its [str(e)]. *)
Inductive RunResult :=
| Completed (returncode : Z) (stdout stderr : text)
| TimeoutExpired
| Raised (e : text).

(** [','.join(codes)] *)
Fixpoint join_comma (codes : list text) : text :=
  match codes with
  | [] => []
  | [c] => c
  | c :: r => c ++ py "," ++ join_comma r
  end.

(** [a or b] on strings. *)
Definition or_text (a b : text) : text := if truthy a then a else b.

Definition syntax_error_in (stderr : text) : bool :=
  truthy stderr
  && (contains (py "invalid-syntax") stderr
      || contains (py "Failed to parse") stderr).

Definition _fix_file (linter : Linter)
    (subprocess_run : list text -> text -> RunResult) (unsafe : bool)
  : M unit :=
  match ruff_path linter with
  | None => msg_box (py "Ruff executable not found!")
  | Some path =>
      code <- get_text_all ;;
      let cmd := [path; py "check"; py "--fix"; py "-"] in
      let cmd := if unsafe then cmd ++ [py "--unsafe-fixes"] else cmd in
      let cmd :=
        if truthy (select_codes linter)
        then cmd ++ [py "--select"; join_comma (select_codes linter)]
        else cmd in
      let cmd :=
        if truthy (ignore_codes linter)
        then cmd ++ [py "--ignore"; join_comma (ignore_codes linter)]
        else cmd in
      filename <- get_filename ;;
      let cmd :=
        cmd ++ [py "--stdin-filename"; or_text filename (py "untitled.py")] in
      match subprocess_run cmd code with
      | Completed returncode stdout stderr =>
          if (returncode =? 0) || (returncode =? 1) then
            let fixed_code := stdout in
            if syntax_error_in stderr then
              msg_status
                (py "Ruff: File has syntax errors - cannot apply fixes")
            else if truthy fixed_code && negb (text_eqb fixed_code code) then
              _apply_changes_preserving_states code fixed_code ;;;
              msg_status (py "Ruff: Applied fixes (Ctrl+Z to undo)")
            else msg_status (py "Ruff: No fixes needed")
          else
            msg_status (py "Ruff --fix error: " ++ or_text stderr stdout)
      | TimeoutExpired =>
          msg_box (py "Ruff --fix timed out (>" ++ timeout_str linter
                   ++ py "s)")
      | Raised e => msg_box (py "Ruff --fix failed:" ++ [LF] ++ e)
      end
  end.

Definition format_file (linter : Linter)
    (subprocess_run : list text -> text -> RunResult) : M unit :=
  match ruff_path linter with
  | None => msg_box (py "Ruff executable not found!")
  | Some path =>
      code <- get_text_all ;;
      let cmd := [path; py "format"; py "-"] in
      filename <- get_filename ;;
      let cmd :=
        cmd ++ [py "--stdin-filename"; or_text filename (py "untitled.py")] in
      match subprocess_run cmd code with
      | Completed returncode stdout stderr =>
          if returncode =? 0 then
            let formatted_code := stdout in
            if truthy formatted_code && negb (text_eqb formatted_code code)
            then
              _apply_changes_preserving_states code formatted_code ;;;
              msg_status (py "Ruff: Formatted (Ctrl+Z to undo)")
            else msg_status (py "Ruff: Already formatted")
          else if syntax_error_in stderr then
            msg_status (py "Ruff: File has syntax errors - cannot format")
          else
            msg_status (py "Ruff format error: " ++ or_text stderr stdout)
      | TimeoutExpired =>
          msg_box (py "Ruff format timed out (>" ++ timeout_str linter
                   ++ py "s)")
      | Raised e => msg_box (py "Ruff format failed:" ++ [LF] ++ e)
      end
  end.

(** ** Notions used to state the properties *)

(** The caret position the spec asks for: row and column clamped to a
    document of [n] rows whose row [y] has length [len]. *)
Definition clamp_row (n y : Z) : Z := if y >=? n then n - 1 else y.
Definition clamp_col (len x : Z) : Z := if x >? len then len else x.

Definition row_len (e : Editor) (y : Z) : Z :=
  Z.of_nat (length (line_at (ed_lines e) (Z.to_nat y))).

Definition clamped_caret (e : Editor) (c : Caret) : Caret :=
  let y := clamp_row (Z.of_nat (length (ed_lines e))) (cy c) in
  mkCaret (clamp_col (row_len e y) (cx c)) y (-1) (-1).

(** A caret that is a position of the document. *)
Definition valid_caret (e : Editor) (c : Caret) : Prop :=
  0 <= cy c < Z.of_nat (length (ed_lines e))
  /\ 0 <= cx c <= row_len e (cy c).

(** The calls of the caret block. *)
Definition caret_calls (e : Editor) (carets : list Caret) : list HostCall :=
  match carets with
  | [] => []
  | c :: _ =>
      let c' := clamped_caret e c in
      [GetLineCount; GetLineLen (cy c'); SetCaret (cx c') (cy c')]
  end.

(** Lines inserted and deleted by a part of an edit script. *)
Definition lines_inserted (op : Opcode) : Z :=
  match op_tag op with
  | tag_replace | tag_insert => Z.of_nat (op_j2 op) - Z.of_nat (op_j1 op)
  | _ => 0
  end.

Definition lines_deleted (op : Opcode) : Z :=
  match op_tag op with
  | tag_replace | tag_delete => Z.of_nat (op_i2 op) - Z.of_nat (op_i1 op)
  | _ => 0
  end.

Fixpoint inserted_so_far (ops : list Opcode) : Z :=
  match ops with
  | [] => 0
  | op :: r => lines_inserted op + inserted_so_far r
  end.

Fixpoint deleted_so_far (ops : list Opcode) : Z :=
  match ops with
  | [] => 0
  | op :: r => lines_deleted op + deleted_so_far r
  end.

(** The host calls the spec prescribes for one operation when the running
    offset is [offset]: the deletions and the insertions start at the old
    range start moved by the offset. *)
Definition op_calls (new_lines : list text) (op : Opcode) (offset : Z)
  : list HostCall :=
  let start := Z.of_nat (op_i1 op) + offset in
  let dels := repeat (Delete 0 start 0 (start + 1)) (op_i2 op - op_i1 op) in
  let inss :=
    map (fun k => Insert 0 (start + Z.of_nat k)
                         (nth (op_j1 op + k) new_lines [] ++ [LF]))
        (seq 0 (op_j2 op - op_j1 op)) in
  match op_tag op with
  | tag_equal => []
  | tag_replace => dels ++ inss
  | tag_delete => dels
  | tag_insert => inss
  end.

(** The calls for the operations [todo] that follow the operations [done],
    each at the offset (inserted so far) - (deleted so far). *)
Fixpoint script_calls (new_lines : list text) (done todo : list Opcode)
  : list HostCall :=
  match todo with
  | [] => []
  | op :: r =>
      op_calls new_lines op (inserted_so_far done - deleted_so_far done)
      ++ script_calls new_lines (done ++ [op]) r
  end.

(** [a[i1:i2]] *)
Definition slice {A} (l : list A) (i1 i2 : nat) : list A :=
  firstn (i2 - i1) (skipn i1 l).

(** An edit script from [a] to [b] that continues at [(i, j)]: the
    operations follow each other without gap, every one names ranges of
    the kind its tag says, and the last one ends at the ends of [a] and
    [b]. *)
Fixpoint valid_script (a b : list text) (i j : nat) (ops : list Opcode)
  : Prop :=
  match ops with
  | [] => i = length a /\ j = length b
  | op :: r =>
      op_i1 op = i /\ op_j1 op = j
      /\ (i <= op_i2 op)%nat /\ (j <= op_j2 op)%nat
      /\ match op_tag op with
         | tag_equal => slice a i (op_i2 op) = slice b j (op_j2 op)
         | tag_replace => True
         | tag_delete => op_j2 op = j
         | tag_insert => op_i2 op = i
         end
      /\ valid_script a b (op_i2 op) (op_j2 op) r
  end.

(** The old row a new row is aligned with by an [equal] operation. *)
Fixpoint equal_source (ops : list Opcode) (j : nat) : option nat :=
  match ops with
  | [] => None
  | op :: r =>
      match op_tag op with
      | tag_equal =>
          if ((op_j1 op <=? j) && (j <? op_j2 op))%nat
          then Some (op_i1 op + (j - op_j1 op))%nat
          else equal_source r j
      | _ => equal_source r j
      end
  end.

(** The invariant of the spec on line states, for one call: a row of an
    [equal] span carries the tag its line had before, any other row
    [LINESTATE_CHANGED]. *)
Definition states_follow_script (old_text new_text : text) (e : Editor)
  : Prop :=
  let e' := run (_apply_changes_preserving_states old_text new_text) e in
  let ops := get_opcodes (splitlines old_text) (splitlines new_text) in
  forall j, (j < length (splitlines new_text))%nat ->
    nth j (ed_states e') LINESTATE_NORMAL =
    match equal_source ops j with
    | Some i => nth i (ed_states e) LINESTATE_NORMAL
    | None => LINESTATE_CHANGED
    end.

(** The state writes of the fast path as the spec words them: for each
    row, the old tag when the line is the same, [LINESTATE_CHANGED]
    otherwise. *)
Definition state_writes (old_lines new_lines : list text)
    (old_states : list LineState) : list HostCall :=
  map (fun i =>
         SetLineState (Z.of_nat i)
           (if text_eqb (nth i old_lines []) (nth i new_lines [])
            then nth i old_states LINESTATE_NORMAL
            else LINESTATE_CHANGED))
      (seq 0 (length new_lines)).

(** The fast path as the spec words it, without a condition on the state
    array. *)
Definition fast_path_writes_states (old_text new_text : text) (e : Editor)
  : Prop :=
  let old_lines := splitlines old_text in
  let new_lines := splitlines new_text in
  length old_lines = length new_lines ->
  text_eqb old_text new_text = false ->
  forall c, In c (state_writes old_lines new_lines (ed_states e)) ->
    In c (ed_calls
            (run (_apply_changes_preserving_states old_text new_text) e)).

(** The condition under which the spec lets a command call the
    reconciler: the tool run succeeded ([accepts] tells which return codes
    count), no syntax error was detected, and the output is not empty and
    differs from the buffer. *)
Definition reconcile_due (accepts : Z -> bool) (checks_syntax : bool)
    (code : text) (r : RunResult) : bool :=
  match r with
  | Completed returncode stdout stderr =>
      accepts returncode
      && negb (checks_syntax && syntax_error_in stderr)
      && truthy stdout && negb (text_eqb stdout code)
  | _ => false
  end.

Definition fix_accepts (returncode : Z) : bool :=
  (returncode =? 0) || (returncode =? 1).

Definition format_accepts (returncode : Z) : bool := returncode =? 0.

(** The command line of [_fix_file]. *)
Definition fix_cmd (linter : Linter) (path filename : text) (unsafe : bool)
  : list text :=
  [path; py "check"; py "--fix"; py "-"]
  ++ (if unsafe then [py "--unsafe-fixes"] else [])
  ++ (if truthy (select_codes linter)
      then [py "--select"; join_comma (select_codes linter)] else [])
  ++ (if truthy (ignore_codes linter)
      then [py "--ignore"; join_comma (ignore_codes linter)] else [])
  ++ [py "--stdin-filename"; or_text filename (py "untitled.py")].

Definition format_cmd (path filename : text) : list text :=
  [path; py "format"; py "-"; py "--stdin-filename";
   or_text filename (py "untitled.py")].

(** A run that left the document, its tags and its carets as they were and
    made no mutating call, and whose last call shows a message. *)
Definition only_reports (e e' : Editor) : Prop :=
  ed_text e' = ed_text e /\ ed_states e' = ed_states e
  /\ ed_carets e' = ed_carets e
  /\ exists tr m,
       ed_calls e' = ed_calls e ++ tr ++ [m]
       /\ forallb (fun c => negb (is_mutation c)) (tr ++ [m]) = true
       /\ is_message m = true.

(** Writing the tag [f i] to every row [i] of [idxs]. *)
Definition write_states (f : nat -> LineState) (idxs : list nat) : M unit :=
  for_each idxs (fun i => set_line_state (Z.of_nat i) (f i)).

(** The first statements of the fast path, up to the replacement of the
    whole document. *)
Definition fast_path_replace (new_text : text) : M unit :=
  old_states <- get_line_states ;;
  carets <- get_carets ;;
  line_count <- get_line_count ;;
  last_line_len <- get_line_len (line_count - 1) ;;
  replace 0 0 last_line_len (line_count - 1) new_text.

(** The calls that change the content of the document or a line state. *)
Definition writes_content_or_state (c : HostCall) : bool :=
  match c with
  | Replace _ _ _ _ _ | Insert _ _ _ | Delete _ _ _ _
  | SetLineState _ _ => true
  | _ => false
  end.

Definition is_set_line_state (c : HostCall) : bool :=
  match c with SetLineState _ _ => true | _ => false end.

Definition is_set_caret (c : HostCall) : bool :=
  match c with SetCaret _ _ => true | _ => false end.

(** The last row of the document and its length, as the fast path reads
    them before it replaces the content. *)
Definition last_row (e : Editor) : Z := Z.of_nat (length (ed_lines e)) - 1.
Definition last_row_len (e : Editor) : Z := row_len e (last_row e).

(** ** Sample documents *)

Definition doc (ls : list string) : text := join_lf (map py ls).

(** An editor showing the text [t] with the tags [ss], one caret at
    [(x, y)] and an empty log. *)
Definition editor_with (t : text) (ss : list LineState) (x y : Z) : Editor :=
  mkEditor (py "a.py") t ss [mkCaret x y (-1) (-1)] [].

Definition text_abc : text := doc ["a"; "b"; "c"]%string.
Definition text_axc : text := doc ["a"; "x"; "c"]%string.
Definition editor_abc : Editor := editor_with text_abc [0; 3; 2] 1 2.

(** Every call of the script addresses rows the document has: an operation
    that deletes or inserts ends before the last of the [rows] rows. *)
Definition calls_in_range (rows : nat) (ops : list Opcode) : Prop :=
  Forall (fun op => op_tag op = tag_equal \/ (op_i2 op < rows)%nat) ops.

(** A script with a replace, a delete and an insert hunk between equal
    spans: old lines a, b, c, d, e become a, x, c, e, f, g. *)
Definition lines_abcde : list text := map py ["a"; "b"; "c"; "d"; "e"]%string.
Definition lines_axcefg : list text :=
  map py ["a"; "x"; "c"; "e"; "f"; "g"]%string.
Definition script_abcde : list Opcode :=
  [mkOp tag_equal 0 1 0 1; mkOp tag_replace 1 2 1 2; mkOp tag_equal 2 3 2 3;
   mkOp tag_delete 3 4 3 3; mkOp tag_equal 4 5 3 4; mkOp tag_insert 5 5 4 6].
Definition editor_abcde : Editor :=
  editor_with (join_lf (lines_abcde ++ [[]])) [0; 0; 0; 0; 0; 0] 0 0.

(** The editor when the opcode loop of the general path has ended. *)
Definition after_opcodes (old_text new_text : text) (e : Editor) : Editor :=
  snd (apply_opcodes (splitlines new_text)
         (get_opcodes (splitlines old_text) (splitlines new_text)) 0
         (logged GetCarets e)).

(** The text of the last row. *)
Definition last_row_text (e : Editor) : text :=
  line_at (ed_lines e) (Z.to_nat (last_row e)).

(** The calls of the caret block, for some position [(x, y)]. *)
Definition caret_block_calls (carets : list Caret) (x y : Z)
  : list HostCall :=
  match carets with
  | [] => []
  | _ :: _ => [GetLineCount; GetLineLen y; SetCaret x y]
  end.

(** The calls of the block for the trailing terminator on the editor [e]. *)
Definition force_calls (e : Editor) : list HostCall :=
  [GetLineCount; GetTextLine (last_row e); GetLineLen (last_row e);
   Replace 0 (last_row e) (last_row_len e) (last_row e)
           (last_row_text e ++ [LF])].

(** All the calls of the general path. *)
Definition slow_path_calls (old_text new_text : text) (e : Editor)
    (x y : Z) : list HostCall :=
  [GetCarets]
  ++ script_calls (splitlines new_text) []
       (get_opcodes (splitlines old_text) (splitlines new_text))
  ++ (if endswith_lf new_text
      then force_calls (after_opcodes old_text new_text e) else [])
  ++ caret_block_calls (ed_carets e) x y
  ++ [ActionUpdate].

Definition text_ac : text := doc ["a"; "c"]%string ++ [LF].

(** A file with an unused import, and the file a fix leaves; both end
    with LF. *)
Definition text_import : text := doc ["import os"; "x = 1"]%string ++ [LF].
Definition text_fixed : text := doc ["x = 1"]%string ++ [LF].
Definition editor_import : Editor := editor_with text_import [0; 0; 0] 0 0.

(** Ten rows with the caret at row 5, column 4, and a second caret. *)
Definition text_ten : text :=
  doc ["r0"; "r1"; "r2"; "r3"; "r4"; "r5"; "r6"; "r7"; "r8"; "r9"]%string.
Definition text_three : text := doc ["r0"; "r1"; "r9"]%string.
Definition editor_ten : Editor :=
  mkEditor (py "a.py") text_ten [0; 0; 0; 0; 0; 0; 0; 0; 0; 0]
           [mkCaret 4 5 (-1) (-1); mkCaret 0 7 2 7] [].

Definition text_ab : text := doc ["a"; "b"]%string.
Definition text_ba : text := doc ["b"; "a"]%string.
Definition editor_ab : Editor := editor_with text_ab [0; 0] 0 0.

(** The standard output of a completed run. *)
Definition run_stdout (r : RunResult) : text :=
  match r with
  | Completed _ stdout _ => stdout
  | _ => []
  end.

(** The editor when a command has read the text and the file name. *)
Definition after_reads (e : Editor) : Editor :=
  logged GetFilename (logged GetTextAll e).

(** ** Notions for the matcher *)

(** A block [(i, j, k)] that matches: [a[i+t] == b[j+t]] for [t < k]. *)
Definition block_ok (a b : list text) (m : Match) : Prop :=
  let '(i, j, k) := m in
  forall t, (t < k)%nat -> nth (i + t) a [] = nth (j + t) b [].

(** A block inside the ranges [[alo, ahi)] and [[blo, bhi)]. *)
Definition block_in (alo ahi blo bhi : nat) (m : Match) : Prop :=
  let '(i, j, k) := m in
  (alo <= i /\ i + k <= ahi /\ blo <= j /\ j + k <= bhi)%nat.

(** An entry [j2len[j] = k] for row [i]: a match of length [k] that ends
    at [a[i]] and [b[j]] and stays inside the ranges. *)
Definition entry_ok (a b : list text) (alo blo bhi i : nat)
    (jk : nat * nat) : Prop :=
  let '(j, k) := jk in
  (1 <= k /\ alo + k <= i + 1 /\ blo + k <= j + 1 /\ j < bhi)%nat
  /\ forall t, (t < k)%nat -> nth (i - t) a [] = nth (j - t) b [].

(** Matching blocks in increasing order between [(alo, blo)] and
    [(ahi, bhi)]. *)
Fixpoint chain (a b : list text) (alo blo : nat) (ms : list Match)
    (ahi bhi : nat) : Prop :=
  match ms with
  | [] => (alo <= ahi /\ blo <= bhi)%nat
  | (i, j, k) :: r =>
      (alo <= i /\ blo <= j)%nat /\ block_ok a b (i, j, k)
      /\ chain a b (i + k) (j + k) r ahi bhi
  end.

(** A text whose only line boundaries are LFs. *)
Definition lf_only (t : text) : bool :=
  forallb (fun c => negb (is_linebreak c) || N.eqb c LF) t.

(** ** [Ruff]: rule codes and the configuration *)

(** [[A-Z]] *)
Definition is_upper (c : char) : bool := ((65 <=? c) && (c <=? 90))%N.

(** The characters [str.strip()] and [str.split()] take for white space:
    TAB to CR, FS to US, the space, NEL, NBSP and the Unicode spaces. *)
Definition is_space (c : char) : bool :=
  (((9 <=? c) && (c <=? 13)) || ((28 <=? c) && (c <=? 32))
   || N.eqb c 133 || N.eqb c 160 || N.eqb c 5760
   || ((8192 <=? c) && (c <=? 8202)) || N.eqb c 8232 || N.eqb c 8233
   || N.eqb c 8239 || N.eqb c 8287 || N.eqb c 12288)%N.

Fixpoint lstrip (s : text) : text :=
  match s with
  | [] => []
  | c :: r => if is_space c then lstrip r else s
  end.

(** [s.strip()] *)
Definition strip (s : text) : text := rev (lstrip (rev (lstrip s))).

(** [s.split()]: the runs of characters that are not white space. *)
Fixpoint split_ws_from (cur s : text) : list text :=
  match s with
  | [] => match cur with [] => [] | _ :: _ => [cur] end
  | c :: r =>
      if is_space c
      then match cur with
           | [] => split_ws_from [] r
           | _ :: _ => cur :: split_ws_from [] r
           end
      else split_ws_from (cur ++ [c]) r
  end.

Definition split_ws (s : text) : list text := split_ws_from [] s.

(** The end of the pattern after the letters, [(?:\d+)?$]: digits up to
    the end of the string, or up to one LF that ends it. [dec] is the class
    [\d] of the regex engine, the Unicode decimal digits. *)
Definition digits_to_end (dec : char -> bool) (r : text) : bool :=
  forallb dec r
  || match rev r with
     | c :: d => N.eqb c LF && forallb dec d
     | [] => false
     end.

(** [^[A-Z]{1,4}(?:\d+)?$] *)
Definition code_alternative (dec : char -> bool) (s : text) : bool :=
  existsb (fun k => (k <=? length s)%nat && forallb is_upper (firstn k s)
                    && digits_to_end dec (skipn k s))
          [1; 2; 3; 4]%nat.

(** [^ALL$] *)
Definition all_alternative (s : text) : bool :=
  text_eqb s (py "ALL") || text_eqb s (py "ALL" ++ [LF]).

(** [self._RULE_CODE_PATTERN.match(code) is not None] *)
Definition _validate_rule_code (dec : char -> bool) (code : text) : bool :=
  code_alternative dec code || all_alternative code.

(** A value [json.loads] returns. A [dict] is given by its items. *)
#[warnings="-register-all"]
Inductive JSON :=
| JNull
| JBool (b : bool)
| JInt (z : Z)
| JFloat (f : PrimFloat.float)
| JStr (s : text)
| JList (l : list JSON)
| JDict (items : list (text * JSON)).

(** How [json.loads(content)] ends: with a value, with
    [json.JSONDecodeError], or with another exception ([ValueError] for an
    integer literal over the digit limit, [RecursionError] for nesting that
    is too deep). *)
Inductive JsonResult :=
| Loaded (value : JSON)
| JSONDecodeError
| OtherException.

(** How a call ends: it returns a value, or an exception leaves it. *)
Inductive Outcome (A : Type) :=
| Returned (a : A)
| Escaped.

Arguments Returned {A} a.
Arguments Escaped {A}.

(** [[c for c in codes if isinstance(c, str) and
    self._validate_rule_code(c)]] *)
Fixpoint _filter_valid_codes (dec : char -> bool) (codes : list JSON)
  : list text :=
  match codes with
  | [] => []
  | JStr s :: r =>
      if _validate_rule_code dec s then s :: _filter_valid_codes dec r
      else _filter_valid_codes dec r
  | _ :: r => _filter_valid_codes dec r
  end.

(** [d.get(key, default)] *)
Fixpoint dict_get (items : list (text * JSON)) (key : text) (default : JSON)
  : JSON :=
  match items with
  | [] => default
  | (k, v) :: r => if text_eqb k key then v else dict_get r key default
  end.

(** [isinstance(v, (int, float))]; a [bool] is an [int]. *)
Definition is_number (v : JSON) : bool :=
  match v with
  | JBool _ | JInt _ | JFloat _ => true
  | _ => false
  end.

(** [v <= 0] for a number. *)
Definition le_zero (v : JSON) : bool :=
  match v with
  | JBool b => negb b
  | JInt z => z <=? 0
  | JFloat f => PrimFloat.leb f PrimFloat.zero
  | _ => false
  end.

(** [isinstance(v, list)], and the list or [[]]. *)
Definition list_or_empty (v : JSON) : list JSON :=
  match v with
  | JList l => l
  | _ => []
  end.

(** The dict a loader returns. *)
Record Config := mkConfig {
  cfg_ignore : list text;
  cfg_select : list text;
  cfg_timeout : JSON
}.

Definition DEFAULT_TIMEOUT : JSON := JInt 30.

(** [{'ignore': [], 'select': [], 'timeout': Ruff.DEFAULT_TIMEOUT}] *)
Definition no_config : Config := mkConfig [] [] DEFAULT_TIMEOUT.

(** [Ruff._parse_and_validate_config]; [json_loads] is the library call.
    The [try] has one handler, [except json.JSONDecodeError]: any other
    exception of [json.loads] leaves the function. *)
Definition _parse_and_validate_config (dec : char -> bool)
    (json_loads : text -> JsonResult) (content : text) : Outcome Config :=
  match json_loads content with
  | OtherException => Escaped
  | JSONDecodeError => Returned no_config
  | Loaded (JDict config) =>
      let ignore := list_or_empty (dict_get config (py "ignore") (JList [])) in
      let select := list_or_empty (dict_get config (py "select") (JList [])) in
      let timeout := dict_get config (py "timeout") DEFAULT_TIMEOUT in
      let timeout :=
        if negb (is_number timeout) || le_zero timeout then DEFAULT_TIMEOUT
        else timeout in
      let valid_ignore := _filter_valid_codes dec ignore in
      let valid_select := _filter_valid_codes dec select in
      Returned (mkConfig valid_ignore valid_select timeout)
  | Loaded _ => Returned no_config
  end.

(** How opening and reading the file ends: the lines the file object
    yields, a [UnicodeDecodeError], or another exception. *)
Inductive FileRead :=
| FileLines (lines : list text)
| FileUnicodeDecodeError
| FileError.

(** The condition of the comprehension:
    [(stripped := ln.strip()) and not stripped.startswith(('//', '#'))] *)
Definition kept_line (ln : text) : bool :=
  let stripped := strip ln in
  truthy stripped
  && negb (startswith (py "//") stripped || startswith (py "#") stripped).

(** [''.join(lines).strip()] over the kept lines. *)
Definition read_lines (lines : list text) : text :=
  strip (concat (filter kept_line lines)).

(** [Ruff._read_config_file]: [utf8] is the read with [encoding='utf-8'],
    [fallback] the read with the default encoding. *)
Definition _read_config_file (utf8 fallback : FileRead) : option text :=
  match utf8 with
  | FileLines lines => Some (read_lines lines)
  | FileUnicodeDecodeError =>
      match fallback with
      | FileLines lines => Some (read_lines lines)
      | _ => None
      end
  | FileError => None
  end.

(** [Ruff._load_config]; [isfile] is [os.path.isfile(path)]. It has no
    handler of its own: an exception of [_parse_and_validate_config] leaves
    it too. *)
Definition _load_config (dec : char -> bool) (isfile : bool)
    (utf8 fallback : FileRead) (json_loads : text -> JsonResult)
  : Outcome Config :=
  if negb isfile then Returned no_config
  else
    match _read_config_file utf8 fallback with
    | None => Returned no_config
    | Some content =>
        if negb (truthy content) then Returned no_config
        else _parse_and_validate_config dec json_loads content
    end.

(** [Ruff._build_cmd] *)
Definition _build_cmd (ruff_path : text) (select_codes ignore_codes : list text)
  : list text :=
  let cmd := [ruff_path; py "check"; py "--output-format=concise"] in
  let cmd :=
    if truthy select_codes
    then cmd ++ [py "--select"; join_comma select_codes] else cmd in
  let cmd :=
    if truthy ignore_codes
    then cmd ++ [py "--ignore"; join_comma ignore_codes] else cmd in
  cmd ++ [py "@"].

(** The fields [Ruff.__init__] sets, with [executable] and [cmd]. *)
Record Ruff := mkRuff {
  r_ruff_path : option text;
  r_ignore_codes : list text;
  r_select_codes : list text;
  r_timeout : JSON;
  r_executable : text;
  r_cmd : list text
}.

(** [Ruff.__init__]: [found] is what [_find_executable] returns and
    [load_config] how the call of [_load_config] ends, which is made only
    with an executable; its exception leaves [__init__] and no object is
    created. Without an executable the class attributes [executable] and
    [cmd] stay. *)
Definition Ruff_init (found : option text) (load_config : Outcome Config)
  : Outcome Ruff :=
  match found, load_config with
  | None, _ =>
      Returned
        (mkRuff None [] [] DEFAULT_TIMEOUT (py "ruff")
           [py "ruff"; py "check"; py "--output-format=concise"; py "@"])
  | Some _, Escaped => Escaped
  | Some ruff_path, Returned config =>
      let ignore_codes := cfg_ignore config in
      let select_codes := cfg_select config in
      let timeout := cfg_timeout config in
      let use_defaults :=
        negb (truthy ignore_codes) && negb (truthy select_codes) in
      let select_codes :=
        if use_defaults then [py "E"; py "F"; py "W"; py "B"; py "I"]
        else select_codes in
      let ignore_codes := if use_defaults then [] else ignore_codes in
      Returned
        (mkRuff (Some ruff_path) ignore_codes select_codes timeout ruff_path
           (_build_cmd ruff_path select_codes ignore_codes))
  end.

(** [Ruff._get_ruff_version]: the last word of the output of
    [ruff --version]; [None] without executable, on a return code other
    than 0, on an exception, and (through the [IndexError] of [[-1]]) on
    blank output. *)
Definition _get_ruff_version (ruff_path : option text)
    (subprocess_run : list text -> RunResult) : option text :=
  match ruff_path with
  | None => None
  | Some path =>
      match subprocess_run [path; py "--version"] with
      | Completed returncode stdout _ =>
          if returncode =? 0 then
            match rev (split_ws (strip stdout)) with
            | w :: _ => Some w
            | [] => None
            end
          else None
      | _ => None
      end
  end.

(** [Command.DEFAULT_CONFIG], as [json.loads] gives it back. *)
Definition DEFAULT_CONFIG : JSON :=
  JDict [(py "timeout", DEFAULT_TIMEOUT);
         (py "ignore", JList [JStr (py "E501"); JStr (py "W191");
                              JStr (py "E111")]);
         (py "select", JList [JStr (py "E"); JStr (py "W"); JStr (py "F");
                              JStr (py "B"); JStr (py "I")])].

(** A [Config] written as the dict [json.loads] would return for it. *)
Definition config_json (c : Config) : JSON :=
  JDict [(py "ignore", JList (map JStr (cfg_ignore c)));
         (py "select", JList (map JStr (cfg_select c)));
         (py "timeout", cfg_timeout c)].

(** The ASCII digits; every [\d] class holds them. *)
Definition is_ascii_digit (c : char) : bool := ((48 <=? c) && (c <=? 57))%N.

(** The shape of a rule code: one to four capital letters, decimal digits,
    and possibly one LF at the end. *)
Definition rule_code_shape (dec : char -> bool) (code : text) : Prop :=
  exists letters digits nl,
    code = letters ++ digits ++ nl
    /\ (1 <= length letters <= 4)%nat
    /\ forallb is_upper letters = true
    /\ forallb dec digits = true
    /\ (nl = [] \/ nl = [LF]).

(** A line that is blank, or whose first characters after the leading
    white space are [//] or [#]. *)
Definition comment_or_blank (ln : text) : Prop :=
  exists ws rest,
    forallb is_space ws = true
    /\ (ln = ws \/ ln = ws ++ py "//" ++ rest \/ ln = ws ++ py "#" ++ rest).

(** A small configuration file with comments, as the lines read. *)
Definition config_lines : list text :=
  [py "// Ruff settings" ++ [LF];
   py "{" ++ [LF];
   py "  # rules" ++ [LF];
   py "  " ++ [34%N] ++ py "select" ++ [34%N] ++ py ": [" ++ [34%N]
     ++ py "E" ++ [34%N] ++ py "]" ++ [LF];
   [LF];
   py "}" ++ [LF]].

(** A text that begins with a capital letter. *)
Definition upper_headed (s : text) : Prop :=
  exists c r, s = c :: r /\ is_upper c = true.

(** The options [_build_cmd] puts between the fixed head of the command
    and the file placeholder. *)
Definition rule_options (select_codes ignore_codes : list text) : list text :=
  (if truthy select_codes
   then [py "--select"; join_comma select_codes] else [])
  ++ (if truthy ignore_codes
      then [py "--ignore"; join_comma ignore_codes] else []).

(** The configuration [Command.DEFAULT_CONFIG] describes. *)
Definition default_config : Config :=
  mkConfig [py "E501"; py "W191"; py "E111"]
           [py "E"; py "W"; py "F"; py "B"; py "I"] DEFAULT_TIMEOUT.

(** Whether the rows of [t], scanned with [cur] as the row in progress,
    end with an empty row: the text ends with LF, or nothing was read. *)
Definition ends_with_empty_row (cur t : text) : bool :=
  match t with
  | [] => negb (truthy cur)
  | _ :: _ => endswith_lf t
  end.

Definition is_action_update (c : HostCall) : bool :=
  match c with ActionUpdate => true | _ => false end.

(** The calls the reconciler has no use for. *)
Definition is_foreign_call (c : HostCall) : bool :=
  match c with
  | GetTextAll | GetFilename | MsgStatus _ | MsgBox _ => true
  | _ => false
  end.

Definition text_ab_nl : text := text_ab ++ [LF].
Definition editor_ab_tagged : Editor := editor_with text_ab [5; 6] 0 0.

(** The position the caret block sets from the saved caret [c] on the
    document of [e]: the row brought below the line count, the column
    brought to the length the host answers for that row. *)
Definition restored_caret (e : Editor) (c : Caret) : Caret :=
  let y := clamp_row (Z.of_nat (length (ed_lines e))) (cy c) in
  mkCaret (clamp_col (fst (get_line_len y e)) (cx c)) y (-1) (-1).

(** The calls of the caret block on the saved [carets]. *)
Definition restore_calls (e : Editor) (carets : list Caret)
  : list HostCall :=
  match carets with
  | [] => []
  | c :: _ =>
      let c' := restored_caret e c in
      [GetLineCount; GetLineLen (cy c'); SetCaret (cx c') (cy c')]
  end.

(** A one-row document with an empty state array and a caret past the end
    of the row. *)
Definition editor_untagged : Editor :=
  mkEditor (py "a.py") (py "abcdef") [] [mkCaret 5 3 (-1) (-1)] [].

(** The text [text_ab], whose last line has no terminator, with a line
    added after it. *)
Definition text_ab_c : text := doc ["a"; "b"; "c"]%string.

(** * Properties *)

(** ** Text and lines *)

Lemma text_eqb_eq (s t : text) : text_eqb s t = true <-> s = t.
Proof.
  revert t; induction s as [|c s IH]; intros [|d t]; simpl.
  - tauto.
  - split; discriminate.
  - split; discriminate.
  - rewrite andb_true_iff, N.eqb_eq, IH.
    split; [intros [-> ->]; reflexivity | intros H; inversion H; auto].
Qed.

Lemma text_eqb_refl (s : text) : text_eqb s s = true.
Proof. apply text_eqb_eq; reflexivity. Qed.

Lemma text_eqb_neq (s t : text) : text_eqb s t = false <-> s <> t.
Proof.
  rewrite <- text_eqb_eq. destruct (text_eqb s t).
  - split; [discriminate | intros H; contradiction H; reflexivity].
  - split; [discriminate | reflexivity].
Qed.

Lemma split_lf_from_nonempty (s cur : text) : split_lf_from cur s <> [].
Proof.
  revert cur; induction s as [|c s IH]; intros cur; simpl; [discriminate|].
  destruct (N.eqb c LF); [discriminate | apply IH].
Qed.

Lemma split_lf_nonempty (s : text) : split_lf s <> [].
Proof. apply split_lf_from_nonempty. Qed.

Lemma split_lf_length (s : text) : (1 <= length (split_lf s))%nat.
Proof.
  pose proof (split_lf_nonempty s) as H.
  destruct (split_lf s); [congruence | simpl; lia].
Qed.

Lemma join_lf_cons (l : text) (r : list text) :
  r <> [] -> join_lf (l :: r) = l ++ LF :: join_lf r.
Proof. destruct r; [congruence | reflexivity]. Qed.

Lemma join_split_lf_from (s cur : text) :
  join_lf (split_lf_from cur s) = cur ++ s.
Proof.
  revert cur; induction s as [|c s IH]; intros cur; simpl.
  - now rewrite app_nil_r.
  - destruct (N.eqb c LF) eqn:E.
    + apply N.eqb_eq in E; subst c.
      rewrite join_lf_cons by apply split_lf_from_nonempty.
      now rewrite IH.
    + rewrite IH, <- app_assoc. reflexivity.
Qed.

(** Joining the lines of a text gives the text back. *)
Lemma join_split_lf (s : text) : join_lf (split_lf s) = s.
Proof. apply (join_split_lf_from s []). Qed.

Lemma split_lf_from_free (l s cur : text) :
  lf_free l -> split_lf_from cur (l ++ s) = split_lf_from (cur ++ l) s.
Proof.
  revert cur; induction l as [|c l IH]; intros cur Hfree; simpl.
  - now rewrite app_nil_r.
  - destruct (N.eqb c LF) eqn:E.
    + apply N.eqb_eq in E; subst c. exfalso; apply Hfree; left; reflexivity.
    + rewrite IH.
      * now rewrite <- app_assoc.
      * intros Hin; apply Hfree; right; exact Hin.
Qed.

Lemma split_lf_from_lf_free (s cur : text) :
  lf_free cur -> Forall lf_free (split_lf_from cur s).
Proof.
  revert cur; induction s as [|c s IH]; intros cur Hcur; simpl.
  - constructor; [exact Hcur | constructor].
  - destruct (N.eqb c LF) eqn:E.
    + constructor; [exact Hcur|]. apply IH. intros [].
    + apply IH. intros Hin. apply in_app_or in Hin as [Hin|[Hc|[]]].
      * exact (Hcur Hin).
      * rewrite Hc, N.eqb_refl in E. discriminate.
Qed.

Lemma split_lf_lf_free (s : text) : Forall lf_free (split_lf s).
Proof. apply split_lf_from_lf_free; intros []. Qed.

(** Cutting the joined lines gives the lines back. *)
Lemma split_join_lf (ls : list text) :
  ls <> [] -> Forall lf_free ls -> split_lf (join_lf ls) = ls.
Proof.
  induction ls as [|l r IH]; intros Hne Hfree; [congruence|].
  inversion Hfree as [|? ? Hl Hr]; subst.
  destruct r as [|l' r'].
  - pose proof (split_lf_from_free l [] [] Hl) as H.
    rewrite app_nil_r in H. exact H.
  - rewrite join_lf_cons by discriminate.
    unfold split_lf. rewrite split_lf_from_free by exact Hl.
    simpl. f_equal. apply IH; [discriminate | exact Hr].
Qed.

Lemma ed_lines_nonempty (e : Editor) : ed_lines e <> [].
Proof. apply split_lf_nonempty. Qed.

Lemma ed_lines_lf_free (e : Editor) : Forall lf_free (ed_lines e).
Proof. apply split_lf_lf_free. Qed.

(** ** The host calls *)

Lemma run_bind {A B} (m : M A) (k : A -> M B) (e : Editor) :
  run (bind m k) e = run (k (fst (m e))) (snd (m e)).
Proof. unfold run, bind. destruct (m e); reflexivity. Qed.

Lemma run_ret {A} (a : A) (e : Editor) : run (ret a) e = e.
Proof. reflexivity. Qed.

Lemma Forall_firstn_skipn {A} (P : A -> Prop) (n : nat) (l : list A) :
  Forall P l -> Forall P (firstn n l) /\ Forall P (skipn n l).
Proof.
  intros H. rewrite <- (firstn_skipn n l) in H.
  apply Forall_app in H. exact H.
Qed.

Lemma splice_lines_lf_free (ls : list text) (p1 p2 : nat * nat) (t : text) :
  Forall lf_free ls -> Forall lf_free (splice_lines ls p1 p2 t).
Proof.
  intros H. destruct p1 as [x1 y1], p2 as [x2 y2]. unfold splice_lines.
  apply Forall_app; split; [apply Forall_firstn_skipn, H|].
  apply Forall_app; split; [apply split_lf_lf_free|].
  apply Forall_firstn_skipn, H.
Qed.

Lemma splice_lines_nonempty (ls : list text) (p1 p2 : nat * nat) (t : text) :
  splice_lines ls p1 p2 t <> [].
Proof.
  destruct p1 as [x1 y1], p2 as [x2 y2]. unfold splice_lines.
  intros H. apply app_eq_nil in H as [_ H]. apply app_eq_nil in H as [H _].
  exact (split_lf_nonempty _ H).
Qed.

(** The lines after an edit are the spliced lines. *)
Lemma ed_lines_edit_range (e : Editor) (x1 y1 x2 y2 : Z) (t : text)
    (c : HostCall) :
  ed_lines (edit_range e x1 y1 x2 y2 t c) =
  splice_lines (ed_lines e) (resolve (ed_lines e) x1 y1)
               (resolve (ed_lines e) x2 y2) t.
Proof.
  unfold edit_range, ed_lines at 1; simpl.
  apply split_join_lf.
  - apply splice_lines_nonempty.
  - apply splice_lines_lf_free, ed_lines_lf_free.
Qed.

Lemma resolve_in (ls : list text) (x y : Z) :
  0 <= y < Z.of_nat (length ls) ->
  resolve ls x y = (Z.to_nat x, Z.to_nat y).
Proof.
  intros H. unfold resolve.
  destruct (Nat.ltb_spec (Z.to_nat y) (length ls)); [reflexivity | lia].
Qed.

(** Replacing from the start of the document to the end of its last line
    leaves exactly the new text. *)
Lemma replace_whole_text (e : Editor) (t : text) (c : HostCall) :
  let n := Z.of_nat (length (ed_lines e)) in
  let len := Z.of_nat (length (line_at (ed_lines e) (Z.to_nat (n - 1)))) in
  ed_text (edit_range e 0 0 len (n - 1) t c) = t.
Proof.
  intros n len. unfold edit_range; simpl.
  pose proof (split_lf_length (ed_text e)) as Hn. fold (ed_lines e) in Hn.
  rewrite !resolve_in by (subst n; lia).
  unfold splice_lines. simpl firstn.
  subst len. rewrite Nat2Z.id, skipn_all, app_nil_r.
  replace (S (Z.to_nat (n - 1))) with (length (ed_lines e)) by (subst n; lia).
  rewrite skipn_all, app_nil_r. simpl. apply join_split_lf.
Qed.

Lemma length_set_nth {A} (l : list A) (i : nat) (a : A) :
  length (set_nth l i a) = length l.
Proof.
  revert i; induction l as [|b l IH]; intros [|i]; simpl; auto.
Qed.

Lemma nth_set_nth_same {A} (l : list A) (i : nat) (a d : A) :
  (i < length l)%nat -> nth i (set_nth l i a) d = a.
Proof.
  revert i; induction l as [|b l IH]; intros [|i] H; simpl in *;
    try lia; [reflexivity | apply IH; lia].
Qed.

Lemma nth_set_nth_other {A} (l : list A) (i j : nat) (a d : A) :
  i <> j -> nth i (set_nth l j a) d = nth i l d.
Proof.
  revert i j; induction l as [|b l IH]; intros [|i] [|j] H; simpl;
    try reflexivity; try congruence.
  apply IH; congruence.
Qed.

Lemma for_each_ext {A} (xs : list A) (f g : A -> M unit) :
  (forall x, In x xs -> f x = g x) -> for_each xs f = for_each xs g.
Proof.
  induction xs as [|x r IH]; intros H; simpl; [reflexivity|].
  rewrite (H x) by (left; reflexivity).
  rewrite IH by (intros y Hy; apply H; right; exact Hy). reflexivity.
Qed.

Lemma write_states_frame (f : nat -> LineState) (idxs : list nat)
    (e : Editor) :
  let e' := run (write_states f idxs) e in
  ed_text e' = ed_text e /\ ed_carets e' = ed_carets e
  /\ ed_filename e' = ed_filename e
  /\ length (ed_states e') = length (ed_states e)
  /\ ed_calls e' =
     ed_calls e ++ map (fun i => SetLineState (Z.of_nat i) (f i)) idxs.
Proof.
  revert e; induction idxs as [|i r IH]; intros e; simpl.
  - rewrite app_nil_r. repeat split; reflexivity.
  - unfold write_states in *. simpl for_each. rewrite run_bind.
    specialize (IH (snd (set_line_state (Z.of_nat i) (f i) e))).
    simpl in IH. destruct IH as (Ht & Hc & Hf & Hl & Hcalls).
    simpl. rewrite Ht, Hc, Hf, Hl, Hcalls.
    repeat split; try reflexivity.
    + destruct (0 <=? Z.of_nat i); [apply length_set_nth | reflexivity].
    + rewrite <- app_assoc. reflexivity.
Qed.

Lemma write_states_nth (f : nat -> LineState) (idxs : list nat)
    (e : Editor) (i : nat) (d : LineState) :
  NoDup idxs -> In i idxs -> (i < length (ed_states e))%nat ->
  nth i (ed_states (run (write_states f idxs) e)) d = f i.
Proof.
  revert e; induction idxs as [|j r IH]; intros e Hnd Hin Hlen;
    [destruct Hin|].
  inversion Hnd as [|? ? Hj Hr]; subst.
  unfold write_states in *. simpl for_each. rewrite run_bind.
  set (e1 := snd (set_line_state (Z.of_nat j) (f j) e)).
  assert (Hs1 : ed_states e1 = set_nth (ed_states e) j (f j)).
  { subst e1; simpl. destruct (Z.leb_spec 0 (Z.of_nat j)); [|lia].
    now rewrite Nat2Z.id. }
  destruct (in_dec Nat.eq_dec i r) as [Hir|Hir].
  - apply IH; [exact Hr | exact Hir |].
    rewrite Hs1, length_set_nth. exact Hlen.
  - destruct Hin as [->|Hin]; [|contradiction].
    assert (Hkeep : forall (r' : list nat) (e' : Editor), ~ In i r' ->
              nth i (ed_states (run (write_states f r') e')) d
              = nth i (ed_states e') d).
    { clear. induction r' as [|k r' IHr]; intros e' Hn; [reflexivity|].
      unfold write_states in *. simpl for_each. rewrite run_bind.
      rewrite IHr by (intros H; apply Hn; right; exact H).
      simpl. destruct (Z.leb_spec 0 (Z.of_nat k)); [|reflexivity].
      rewrite Nat2Z.id. apply nth_set_nth_other.
      intros ->. apply Hn; left; reflexivity. }
    unfold write_states in Hkeep. rewrite Hkeep by exact Hir.
    rewrite Hs1. apply nth_set_nth_same. exact Hlen.
Qed.

(** The loop of the fast path writes, for each row, one tag. *)
Lemma restore_states_write (old_lines new_lines : list text)
    (old_states : list LineState) :
  length old_lines = length new_lines ->
  restore_states old_lines new_lines old_states =
  write_states
    (fun i => if text_eqb (nth i old_lines []) (nth i new_lines [])
              then nth i old_states LINESTATE_NORMAL
              else LINESTATE_CHANGED)
    (seq 0 (length new_lines)).
Proof.
  intros Hlen. unfold restore_states, write_states, range.
  rewrite Nat.sub_0_r. apply for_each_ext. intros i Hi.
  apply in_seq in Hi.
  destruct (Nat.ltb_spec i (length old_lines)); [|lia]. simpl.
  destruct (text_eqb _ _); reflexivity.
Qed.

(** ** The caret block *)

Lemma restore_caret_frame (carets : list Caret) (e : Editor) :
  let e' := run (restore_caret carets) e in
  ed_text e' = ed_text e /\ ed_states e' = ed_states e
  /\ ed_filename e' = ed_filename e
  /\ exists x y,
       ed_calls e' =
       ed_calls e ++ match carets with
                     | [] => []
                     | _ :: _ => [GetLineCount; GetLineLen y; SetCaret x y]
                     end
       /\ ed_carets e' = match carets with
                         | [] => ed_carets e
                         | _ :: _ => [mkCaret x y (-1) (-1)]
                         end.
Proof.
  destruct carets as [|c rest]; simpl.
  - do 3 (split; [reflexivity|]). exists 0, 0. now rewrite app_nil_r.
  - do 3 (split; [reflexivity|]).
    eexists _, _. split; [|reflexivity].
    unfold run, restore_caret, bind, get_line_count, get_line_len,
      set_caret, logged; simpl.
    rewrite <- !app_assoc. reflexivity.
Qed.

Lemma in_rows_clamp_row (ls : list text) (y : Z) :
  ls <> [] -> 0 <= y ->
  in_rows ls (clamp_row (Z.of_nat (length ls)) y) = true.
Proof.
  intros Hne Hy. unfold in_rows, clamp_row.
  assert (1 <= Z.of_nat (length ls))
    by (destruct ls; [congruence | simpl; lia]).
  destruct (Z.geb_spec y (Z.of_nat (length ls)));
    apply andb_true_iff; split; try apply Z.leb_le; try apply Z.ltb_lt; lia.
Qed.

(** With a caret saved at a row that is not negative, the caret block
    leaves the one caret the spec describes. *)
Lemma restore_caret_run (c : Caret) (rest : list Caret) (e : Editor) :
  0 <= cy c ->
  run (restore_caret (c :: rest)) e =
  mkEditor (ed_filename e) (ed_text e) (ed_states e) [clamped_caret e c]
           (ed_calls e ++ caret_calls e (c :: rest)).
Proof.
  intros Hy.
  pose proof (in_rows_clamp_row (ed_lines e) (cy c) (ed_lines_nonempty e) Hy)
    as Hrow.
  unfold run, restore_caret, bind, get_line_count, get_line_len,
    set_caret, logged, caret_calls, clamped_caret, row_len.
  cbn [fst snd ed_text ed_states ed_carets ed_calls ed_filename cx cy].
  change (ed_lines (mkEditor (ed_filename e) (ed_text e) (ed_states e)
                      (ed_carets e) (ed_calls e ++ [GetLineCount])))
    with (ed_lines e).
  unfold clamp_row in Hrow |- *. rewrite Hrow.
  unfold clamp_col. rewrite <- !app_assoc. reflexivity.
Qed.

Lemma clamped_caret_valid (e : Editor) (c : Caret) :
  0 <= cx c -> 0 <= cy c -> valid_caret e (clamped_caret e c).
Proof.
  intros Hx Hy. unfold valid_caret, clamped_caret; simpl.
  pose proof (split_lf_length (ed_text e)) as Hn. fold (ed_lines e) in Hn.
  split.
  - unfold clamp_row.
    destruct (Z.geb_spec (cy c) (Z.of_nat (length (ed_lines e)))); lia.
  - unfold clamp_col, row_len.
    match goal with |- context [?a >? ?b] => destruct (Z.gtb_spec a b) end; lia.
Qed.

(** ** The fast path *)

Lemma in_rows_last_row (e : Editor) : in_rows (ed_lines e) (last_row e) = true.
Proof.
  unfold in_rows, last_row.
  pose proof (split_lf_length (ed_text e)) as Hn. fold (ed_lines e) in Hn.
  apply andb_true_iff; split; [apply Z.leb_le | apply Z.ltb_lt]; lia.
Qed.

Lemma fast_path_replace_run (new_text : text) (e : Editor) :
  run (fast_path_replace new_text) e =
  edit_range
    (logged (GetLineLen (last_row e))
       (logged GetLineCount (logged GetCarets (logged GetLineStates e))))
    0 0 (last_row_len e) (last_row e) new_text
    (Replace 0 0 (last_row_len e) (last_row e) new_text).
Proof.
  unfold run, fast_path_replace, bind, get_line_states, get_carets,
    get_line_count, get_line_len, replace.
  cbn [fst snd].
  change (ed_lines (logged GetCarets (logged GetLineStates e)))
    with (ed_lines e).
  change (ed_lines (logged GetLineCount
                      (logged GetCarets (logged GetLineStates e))))
    with (ed_lines e).
  fold (last_row e). rewrite in_rows_last_row. reflexivity.
Qed.

Lemma fast_path_replace_text (new_text : text) (e : Editor) :
  ed_text (run (fast_path_replace new_text) e) = new_text.
Proof.
  rewrite fast_path_replace_run.
  apply (replace_whole_text
           (logged (GetLineLen (last_row e))
              (logged GetLineCount
                 (logged GetCarets (logged GetLineStates e))))).
Qed.

Lemma fast_path_replace_calls (new_text : text) (e : Editor) :
  ed_calls (run (fast_path_replace new_text) e) =
  ed_calls e ++ [GetLineStates; GetCarets; GetLineCount;
                 GetLineLen (last_row e);
                 Replace 0 0 (last_row_len e) (last_row e) new_text].
Proof.
  rewrite fast_path_replace_run. simpl. rewrite <- !app_assoc. reflexivity.
Qed.

Lemma fast_path_replace_carets (new_text : text) (e : Editor) :
  ed_carets (run (fast_path_replace new_text) e) = ed_carets e.
Proof. rewrite fast_path_replace_run. reflexivity. Qed.

(** The fast path is: the replacement, the guarded loop over the saved
    states, the caret block on the saved carets, and the update. *)
Lemma fast_path_run (old_lines new_lines : list text) (new_text : text)
    (e : Editor) :
  run (fast_path old_lines new_lines new_text) e =
  logged ActionUpdate
    (run (restore_caret (ed_carets e))
       (run (if truthy (ed_states e)
                && (length old_lines <=? length (ed_states e))%nat
             then restore_states old_lines new_lines (ed_states e)
             else ret tt)
          (run (fast_path_replace new_text) e))).
Proof.
  unfold fast_path, fast_path_replace.
  repeat (rewrite run_bind;
          cbn [fst snd get_line_states get_carets get_line_count
               get_line_len replace action_update]).
  reflexivity.
Qed.

Lemma apply_changes_fast (old_text new_text : text) :
  text_eqb old_text new_text = false ->
  length (splitlines old_text) = length (splitlines new_text) ->
  _apply_changes_preserving_states old_text new_text =
  fast_path (splitlines old_text) (splitlines new_text) new_text.
Proof.
  intros Hne Hlen. unfold _apply_changes_preserving_states.
  rewrite Hne, Hlen, Nat.eqb_refl. reflexivity.
Qed.

Lemma apply_changes_slow (old_text new_text : text) :
  text_eqb old_text new_text = false ->
  length (splitlines old_text) <> length (splitlines new_text) ->
  _apply_changes_preserving_states old_text new_text =
  slow_path (splitlines old_text) (splitlines new_text) new_text.
Proof.
  intros Hne Hlen. unfold _apply_changes_preserving_states.
  rewrite Hne. apply Nat.eqb_neq in Hlen. rewrite Hlen. reflexivity.
Qed.

Lemma state_writes_quiet_tail (x y : Z) (carets : list Caret) :
  forallb (fun c => negb (writes_content_or_state c))
    (match carets with
     | [] => []
     | _ :: _ => [GetLineCount; GetLineLen y; SetCaret x y]
     end ++ [ActionUpdate]) = true.
Proof. destruct carets; reflexivity. Qed.

(** C5: reconciling a text with itself returns at once: the editor,
    with its document, line states, carets and the log of calls received,
    is the one before the call, so no host call of any kind was made. *)
Theorem noop_on_identical_texts (T : text) (e : Editor) :
  _apply_changes_preserving_states T T e = (tt, e).
Proof.
  unfold _apply_changes_preserving_states.
  rewrite text_eqb_refl. reflexivity.
Qed.

(** C4, as amended: with equal line counts and different texts, and a
    saved state array that is not empty and has an entry for every old
    line, the calls are: the reads of the state array and of the carets,
    one [replace] of the whole document by [new_text], then for each row
    of [new_lines] one state write (the saved tag when the line is the
    same, [LINESTATE_CHANGED] otherwise), and after these no further write
    to content or line states. The document is then [new_text]. *)
Theorem fast_path_with_states (old_text new_text : text) (e : Editor) :
  let old_lines := splitlines old_text in
  let new_lines := splitlines new_text in
  let e' := run (_apply_changes_preserving_states old_text new_text) e in
  text_eqb old_text new_text = false ->
  length old_lines = length new_lines ->
  truthy (ed_states e) = true ->
  (length old_lines <= length (ed_states e))%nat ->
  ed_text e' = new_text
  /\ exists tail,
       ed_calls e' =
       ed_calls e
       ++ [GetLineStates; GetCarets; GetLineCount; GetLineLen (last_row e);
           Replace 0 0 (last_row_len e) (last_row e) new_text]
       ++ state_writes old_lines new_lines (ed_states e)
       ++ tail
       /\ forallb (fun c => negb (writes_content_or_state c)) tail = true.
Proof.
  intros old_lines new_lines e' Hne Hlen Htruthy Hstates. subst e'.
  rewrite apply_changes_fast by assumption.
  fold old_lines new_lines. rewrite fast_path_run.
  rewrite Htruthy. apply Nat.leb_le in Hstates. rewrite Hstates.
  cbn [andb]. rewrite restore_states_write by exact Hlen.
  set (f := fun i : nat => _).
  set (e1 := run (fast_path_replace new_text) e).
  destruct (write_states_frame f (seq 0 (length new_lines)) e1)
    as (Ht & _ & _ & _ & Hcalls).
  set (e2 := run (write_states f (seq 0 (length new_lines))) e1) in *.
  destruct (restore_caret_frame (ed_carets e) e2)
    as (Ht3 & _ & _ & x & y & Hcalls3 & _).
  split.
  - cbn [logged ed_text]. rewrite Ht3, Ht. apply fast_path_replace_text.
  - exists (match ed_carets e with
            | [] => []
            | _ :: _ => [GetLineCount; GetLineLen y; SetCaret x y]
            end ++ [ActionUpdate]).
    split; [|apply state_writes_quiet_tail].
    cbn [logged ed_calls]. rewrite Hcalls3, Hcalls.
    subst e1. rewrite fast_path_replace_calls.
    unfold state_writes. fold old_lines new_lines.
    rewrite <- !app_assoc. reflexivity.
Qed.

Lemma fast_path_with_states_witness :
  text_eqb text_abc text_axc = false
  /\ length (splitlines text_abc) = length (splitlines text_axc)
  /\ truthy (ed_states editor_abc) = true
  /\ (length (splitlines text_abc) <= length (ed_states editor_abc))%nat
  /\ ed_text (run (_apply_changes_preserving_states text_abc text_axc)
                editor_abc) = text_axc.
Proof.
  assert (H1 : text_eqb text_abc text_axc = false) by reflexivity.
  assert (H2 : length (splitlines text_abc) = length (splitlines text_axc))
    by reflexivity.
  assert (H3 : truthy (ed_states editor_abc) = true) by reflexivity.
  assert (H4 : (length (splitlines text_abc)
                <= length (ed_states editor_abc))%nat) by (vm_compute; lia).
  split; [exact H1|]. split; [exact H2|]. split; [exact H3|].
  split; [exact H4|].
  exact (proj1 (fast_path_with_states text_abc text_axc editor_abc
                  H1 H2 H3 H4)).
Defined.

(** The example of the spec: lines a, b, c with tags S0, S1, S2 become
    a, x, c with tags S0, changed, S2. *)
Example fast_path_abc_states :
  ed_states (run (_apply_changes_preserving_states text_abc text_axc)
               editor_abc) = [0; LINESTATE_CHANGED; 2].
Proof. reflexivity. Qed.

(** C4, counterexample: the host reports an empty state array; the line
    counts are equal and the texts differ, and no state write is made:
    row 0, whose line changed, is not tagged. *)
Lemma fast_path_no_write_on_empty_states :
  ~ fast_path_writes_states (py "a") (py "b")
      (mkEditor (py "a.py") (py "a") [] [] []).
Proof.
  intros H. specialize (H eq_refl eq_refl _ (or_introl eq_refl)).
  vm_compute in H.
  repeat (destruct H as [H|H]; [discriminate H|]). exact H.
Qed.

Lemma restore_caret_saved (c : Caret) (rest : list Caret) (e : Editor) :
  run (restore_caret (c :: rest)) e =
  mkEditor (ed_filename e) (ed_text e) (ed_states e) [restored_caret e c]
           (ed_calls e ++ restore_calls e (c :: rest)).
Proof.
  unfold run, restore_caret, bind, get_line_count, get_line_len,
    set_caret, logged, restore_calls, restored_caret, clamp_row, clamp_col.
  cbn [fst snd ed_text ed_states ed_carets ed_calls ed_filename cx cy].
  change (ed_lines (mkEditor (ed_filename e) (ed_text e) (ed_states e)
                      (ed_carets e) (ed_calls e ++ [GetLineCount])))
    with (ed_lines e).
  rewrite <- !app_assoc. reflexivity.
Qed.

Lemma restored_caret_text (e1 e2 : Editor) (c : Caret) :
  ed_text e1 = ed_text e2 -> restored_caret e1 c = restored_caret e2 c.
Proof.
  intros H. unfold restored_caret, get_line_len, ed_lines. rewrite H.
  reflexivity.
Qed.

Lemma restored_caret_clamped (e : Editor) (c : Caret) :
  0 <= cy c -> restored_caret e c = clamped_caret e c.
Proof.
  intros Hy.
  pose proof (in_rows_clamp_row (ed_lines e) (cy c) (ed_lines_nonempty e) Hy)
    as Hrow.
  unfold restored_caret, clamped_caret, get_line_len, row_len.
  cbn [fst]. rewrite Hrow. reflexivity.
Qed.

(** C9: with equal line counts and different texts, when the saved state
    array is empty or shorter than the old line count, the calls are the
    two reads, the [replace] of the whole document, the caret block (when
    there was a caret) and the update: no line state is written and the
    document is [new_text]. The caret block sets one caret from the first
    caret saved before the replacement: its row brought below the line
    count of the new document and its column brought to the length of that
    row, which for a saved row that is not negative is the saved position
    clamped to the new document. *)
Theorem fast_path_guard_skips_state_writes (old_text new_text : text)
    (e : Editor) :
  let old_lines := splitlines old_text in
  let new_lines := splitlines new_text in
  let e' := run (_apply_changes_preserving_states old_text new_text) e in
  text_eqb old_text new_text = false ->
  length old_lines = length new_lines ->
  ed_states e = [] \/ (length (ed_states e) < length old_lines)%nat ->
  ed_text e' = new_text
  /\ ed_calls e' =
     ed_calls e
     ++ [GetLineStates; GetCarets; GetLineCount; GetLineLen (last_row e);
         Replace 0 0 (last_row_len e) (last_row e) new_text]
     ++ restore_calls e' (ed_carets e)
     ++ [ActionUpdate]
  /\ ed_carets e' = match ed_carets e with
                    | [] => []
                    | c :: _ => [restored_caret e' c]
                    end
  /\ forall c rest, ed_carets e = c :: rest -> 0 <= cy c ->
       restored_caret e' c = clamped_caret e' c.
Proof.
  intros old_lines new_lines e' Hne Hlen Hguard.
  assert (Hg : truthy (ed_states e)
               && (length old_lines <=? length (ed_states e))%nat = false).
  { destruct Hguard as [-> | Hlt]; [reflexivity|].
    apply andb_false_iff; right. apply Nat.leb_gt. exact Hlt. }
  set (e1 := run (fast_path_replace new_text) e).
  assert (He' : e' = logged ActionUpdate
                       (run (restore_caret (ed_carets e)) e1)).
  { subst e' e1. rewrite apply_changes_fast by assumption.
    fold old_lines new_lines. rewrite fast_path_run, Hg, run_ret.
    reflexivity. }
  assert (Ht1 : ed_text e1 = new_text) by apply fast_path_replace_text.
  assert (Ht : ed_text e' = new_text).
  { rewrite He'. cbn [logged ed_text].
    destruct (restore_caret_frame (ed_carets e) e1) as (Hx & _).
    rewrite Hx. exact Ht1. }
  split; [exact Ht|].
  assert (Hsame : forall c, restored_caret e' c = restored_caret e1 c).
  { intros c. apply restored_caret_text. congruence. }
  split; [|split].
  - unfold restore_calls. rewrite He' at 1. cbn [logged ed_calls].
    destruct (ed_carets e) as [|c rest].
    + cbn [restore_caret]. rewrite run_ret. unfold e1.
      rewrite fast_path_replace_calls, <- !app_assoc. reflexivity.
    + rewrite restore_caret_saved. cbn [ed_calls]. unfold restore_calls.
      rewrite (Hsame c). unfold e1 at 1.
      rewrite fast_path_replace_calls, <- !app_assoc. reflexivity.
  - rewrite He' at 1. cbn [logged ed_carets].
    destruct (ed_carets e) as [|c rest] eqn:Ec.
    + cbn [restore_caret]. rewrite run_ret. unfold e1.
      rewrite fast_path_replace_carets. exact Ec.
    + rewrite restore_caret_saved. cbn [ed_carets].
      rewrite (Hsame c). reflexivity.
  - intros c rest _ Hy. apply restored_caret_clamped. exact Hy.
Qed.

Lemma fast_path_guard_skips_state_writes_witness :
  text_eqb (py "abcdef") (py "xy") = false
  /\ length (splitlines (py "abcdef")) = length (splitlines (py "xy"))
  /\ ed_states editor_untagged = []
  /\ ed_text (run (_apply_changes_preserving_states (py "abcdef") (py "xy"))
                editor_untagged) = py "xy"
  /\ ed_calls (run (_apply_changes_preserving_states (py "abcdef") (py "xy"))
                 editor_untagged)
     = [GetLineStates; GetCarets; GetLineCount; GetLineLen 0;
        Replace 0 0 6 0 (py "xy");
        GetLineCount; GetLineLen 0; SetCaret 2 0; ActionUpdate]
  /\ ed_carets (run (_apply_changes_preserving_states (py "abcdef")
                       (py "xy")) editor_untagged)
     = [mkCaret 2 0 (-1) (-1)].
Proof.
  do 3 (split; [reflexivity|]).
  pose proof (fast_path_guard_skips_state_writes (py "abcdef") (py "xy")
                editor_untagged eq_refl eq_refl (or_introl eq_refl))
    as (Ht & Hc & Hp & _).
  split; [exact Ht|]. split; [exact Hc | exact Hp].
Defined.

(** ** The general path: the calls of the opcode loop *)

Lemma delete_lines_frame (n : nat) (adj : Z) (e : Editor) :
  let e' := run (delete_lines n adj) e in
  ed_carets e' = ed_carets e
  /\ ed_calls e' = ed_calls e ++ repeat (Delete 0 adj 0 (adj + 1)) n.
Proof.
  unfold delete_lines, range. rewrite Nat.sub_0_r.
  generalize 0%nat as s. revert e.
  induction n as [|n IH]; intros e s; simpl.
  - rewrite app_nil_r. split; reflexivity.
  - rewrite run_bind. destruct (IH (snd (delete 0 adj 0 (adj + 1) e)) (S s))
      as [Hc Hl].
    rewrite Hc, Hl. simpl. rewrite <- app_assoc. split; reflexivity.
Qed.

Lemma insert_lines_frame (new_lines : list text) (n j1 : nat) (adj : Z)
    (e : Editor) :
  let e' := run (insert_lines new_lines (seq j1 n) adj) e in
  ed_carets e' = ed_carets e
  /\ ed_calls e' =
     ed_calls e
     ++ map (fun k => Insert 0 (adj + Z.of_nat k)
                             (nth (j1 + k) new_lines [] ++ [LF]))
            (seq 0 n).
Proof.
  revert j1 adj e. induction n as [|n IH]; intros j1 adj e; simpl.
  - rewrite app_nil_r. split; reflexivity.
  - rewrite run_bind.
    destruct (IH (S j1) (adj + 1)
                (snd (insert 0 adj (nth j1 new_lines [] ++ [LF]) e)))
      as [Hc Hl].
    rewrite Hc, Hl. simpl. split; [reflexivity|].
    rewrite <- app_assoc. simpl. rewrite Z.add_0_r, Nat.add_0_r.
    do 2 f_equal. rewrite <- seq_shift, map_map.
    apply map_ext. intros k.
    replace (adj + 1 + Z.of_nat k) with (adj + Z.of_nat (S k)) by lia.
    rewrite <- plus_n_Sm. reflexivity.
Qed.

Lemma apply_opcode_frame (new_lines : list text) (op : Opcode) (offset : Z)
    (e : Editor) :
  let r := apply_opcode new_lines op offset e in
  fst r = offset + (lines_inserted op - lines_deleted op)
  /\ ed_carets (snd r) = ed_carets e
  /\ ed_calls (snd r) = ed_calls e ++ op_calls new_lines op offset.
Proof.
  unfold apply_opcode, op_calls, lines_inserted, lines_deleted, range.
  destruct (op_tag op); cbn zeta.
  - simpl. rewrite app_nil_r. repeat split; lia.
  - set (adj := Z.of_nat (op_i1 op) + offset).
    destruct (delete_lines_frame (op_i2 op - op_i1 op) adj e) as [Hc1 Hl1].
    set (e1 := run (delete_lines (op_i2 op - op_i1 op) adj) e) in *.
    destruct (insert_lines_frame new_lines (op_j2 op - op_j1 op) (op_j1 op)
                adj e1) as [Hc2 Hl2].
    unfold bind.
    fold (run (delete_lines (op_i2 op - op_i1 op) adj) e).
    destruct (delete_lines (op_i2 op - op_i1 op) adj e) as [u1 e1'] eqn:E1.
    assert (e1' = e1) by (subst e1; unfold run; now rewrite E1). subst e1'.
    destruct (insert_lines new_lines (seq (op_j1 op) (op_j2 op - op_j1 op))
                adj e1) as [u2 e2] eqn:E2.
    unfold run in Hc2, Hl2. rewrite E2 in Hc2, Hl2. simpl in Hc2, Hl2.
    simpl. rewrite Hc2, Hl2, Hc1, Hl1, <- app_assoc.
    repeat split; lia.
  - set (adj := Z.of_nat (op_i1 op) + offset).
    destruct (delete_lines_frame (op_i2 op - op_i1 op) adj e) as [Hc1 Hl1].
    unfold bind, run in *.
    destruct (delete_lines (op_i2 op - op_i1 op) adj e) as [u1 e1].
    simpl in *. rewrite Hc1, Hl1. repeat split; lia.
  - set (adj := Z.of_nat (op_i1 op) + offset).
    destruct (insert_lines_frame new_lines (op_j2 op - op_j1 op) (op_j1 op)
                adj e) as [Hc2 Hl2].
    unfold bind, run in *.
    destruct (insert_lines new_lines (seq (op_j1 op) (op_j2 op - op_j1 op))
                adj e) as [u2 e2].
    simpl in *. rewrite Hc2, Hl2. repeat split; lia.
Qed.

Lemma inserted_so_far_app (xs ys : list Opcode) :
  inserted_so_far (xs ++ ys) = inserted_so_far xs + inserted_so_far ys.
Proof. induction xs as [|x r IH]; simpl; [reflexivity | lia]. Qed.

Lemma deleted_so_far_app (xs ys : list Opcode) :
  deleted_so_far (xs ++ ys) = deleted_so_far xs + deleted_so_far ys.
Proof. induction xs as [|x r IH]; simpl; [reflexivity | lia]. Qed.

(** The loop keeps [offset] equal to the lines inserted so far minus the
    lines deleted so far, issues every call at the old range start moved
    by that offset, and leaves the carets alone. *)
Lemma apply_opcodes_frame (new_lines : list text) (todo done : list Opcode)
    (e : Editor) :
  let r := apply_opcodes new_lines todo
             (inserted_so_far done - deleted_so_far done) e in
  fst r = inserted_so_far (done ++ todo) - deleted_so_far (done ++ todo)
  /\ ed_carets (snd r) = ed_carets e
  /\ ed_calls (snd r) = ed_calls e ++ script_calls new_lines done todo.
Proof.
  revert done e. induction todo as [|op r IH]; intros done e; simpl.
  - rewrite !app_nil_r. repeat split; reflexivity.
  - unfold bind.
    destruct (apply_opcode_frame new_lines op
                (inserted_so_far done - deleted_so_far done) e)
      as (Ho & Hc & Hl).
    destruct (apply_opcode new_lines op
                (inserted_so_far done - deleted_so_far done) e)
      as [offset' e1].
    simpl in Ho, Hc, Hl.
    assert (Hoff : offset' = inserted_so_far (done ++ [op])
                             - deleted_so_far (done ++ [op])).
    { rewrite inserted_so_far_app, deleted_so_far_app. simpl. lia. }
    rewrite Hoff.
    destruct (IH (done ++ [op]) e1) as (Ho2 & Hc2 & Hl2).
    rewrite Ho2, Hc2, Hl2, Hc, Hl, <- !app_assoc. simpl.
    repeat split; reflexivity.
Qed.

(** ** The general path: the lines after each call *)

Lemma split_lf_line (l : text) : lf_free l -> split_lf l = [l].
Proof.
  intros H. pose proof (split_lf_from_free l [] [] H) as E.
  rewrite app_nil_r in E. exact E.
Qed.

Lemma split_lf_two (l m : text) :
  lf_free l -> lf_free m -> split_lf (l ++ LF :: m) = [l; m].
Proof.
  intros Hl Hm. unfold split_lf. rewrite split_lf_from_free by exact Hl.
  simpl. f_equal. apply split_lf_line, Hm.
Qed.

Lemma firstn_length_app {A} (pre r : list A) :
  firstn (length pre) (pre ++ r) = pre.
Proof.
  rewrite firstn_app, Nat.sub_diag, firstn_all. simpl. apply app_nil_r.
Qed.

Lemma skipn_length_app {A} (pre r : list A) :
  skipn (length pre) (pre ++ r) = r.
Proof.
  rewrite skipn_app, Nat.sub_diag, skipn_all. reflexivity.
Qed.

Lemma nth_length_app {A} (pre r : list A) (x d : A) :
  nth (length pre) (pre ++ x :: r) d = x.
Proof.
  rewrite app_nth2 by lia. rewrite Nat.sub_diag. reflexivity.
Qed.

(** [ed.delete(0, y, 0, y + 1)] on a row that is not the last removes
    that line. *)
Lemma delete_line_lines (e : Editor) (pre post : list text) (l : text) :
  ed_lines e = pre ++ l :: post -> post <> [] ->
  ed_lines (snd (delete 0 (Z.of_nat (length pre)) 0
                        (Z.of_nat (length pre) + 1) e)) = pre ++ post.
Proof.
  intros H Hpost. destruct post as [|m post']; [congruence|].
  pose proof (ed_lines_lf_free e) as Hfree. rewrite H in Hfree.
  apply Forall_app in Hfree as [_ Hfree].
  inversion Hfree as [|? ? _ Hfree']; subst.
  inversion Hfree' as [|? ? Hm _]; subst.
  unfold delete. cbn [snd]. rewrite ed_lines_edit_range, H.
  rewrite !resolve_in by (rewrite length_app; simpl; lia).
  replace (Z.to_nat (Z.of_nat (length pre) + 1)) with (S (length pre)) by lia.
  rewrite Nat2Z.id. unfold splice_lines, line_at.
  rewrite firstn_length_app.
  change (pre ++ l :: m :: post') with (pre ++ [l] ++ m :: post').
  rewrite (app_assoc pre [l]).
  replace (S (length pre)) with (length (pre ++ [l]))
    by (rewrite length_app; simpl; lia).
  rewrite nth_length_app.
  change ((pre ++ [l]) ++ m :: post') with ((pre ++ [l]) ++ [m] ++ post').
  rewrite (app_assoc (pre ++ [l]) [m]).
  replace (S (length (pre ++ [l]))) with (length ((pre ++ [l]) ++ [m]))
    by (rewrite !length_app; simpl; lia).
  rewrite skipn_length_app. simpl.
  rewrite split_lf_line by exact Hm. reflexivity.
Qed.

(** [ed.insert(0, y, line + '\n')] on an existing row puts [line] before
    it. *)
Lemma insert_line_lines (e : Editor) (pre post : list text) (line : text) :
  ed_lines e = pre ++ post -> post <> [] -> lf_free line ->
  ed_lines (snd (insert 0 (Z.of_nat (length pre)) (line ++ [LF]) e))
  = pre ++ line :: post.
Proof.
  intros H Hpost Hline. destruct post as [|m post']; [congruence|].
  pose proof (ed_lines_lf_free e) as Hfree. rewrite H in Hfree.
  apply Forall_app in Hfree as [_ Hfree].
  inversion Hfree as [|? ? Hm _]; subst.
  unfold insert. cbn [snd]. rewrite ed_lines_edit_range, H.
  rewrite !resolve_in by (rewrite length_app; simpl; lia).
  rewrite Nat2Z.id. unfold splice_lines, line_at.
  rewrite firstn_length_app, nth_length_app.
  change (pre ++ m :: post') with (pre ++ [m] ++ post').
  rewrite (app_assoc pre [m]).
  replace (S (length pre)) with (length (pre ++ [m]))
    by (rewrite length_app; simpl; lia).
  rewrite skipn_length_app. simpl.
  rewrite <- app_assoc. simpl.
  rewrite split_lf_two by assumption. reflexivity.
Qed.

Lemma delete_lines_lines (mid pre post : list text) (e : Editor) :
  ed_lines e = pre ++ mid ++ post -> post <> [] ->
  ed_lines (run (delete_lines (length mid) (Z.of_nat (length pre))) e)
  = pre ++ post.
Proof.
  intros H Hpost. unfold delete_lines, range. rewrite Nat.sub_0_r.
  generalize 0%nat as s. revert e H.
  induction mid as [|l mid IH]; intros e H s; simpl.
  - exact H.
  - rewrite run_bind. cbn [fst]. apply IH.
    apply delete_line_lines with (l := l).
    + exact H.
    + destruct mid; simpl; [exact Hpost | discriminate].
Qed.

Lemma insert_lines_lines (new_lines : list text) (n j1 : nat)
    (pre post : list text) (e : Editor) :
  ed_lines e = pre ++ post -> post <> [] ->
  (forall k, (j1 <= k < j1 + n)%nat -> lf_free (nth k new_lines [])) ->
  ed_lines (run (insert_lines new_lines (seq j1 n) (Z.of_nat (length pre))) e)
  = pre ++ map (fun k => nth k new_lines []) (seq j1 n) ++ post.
Proof.
  revert j1 pre e. induction n as [|n IH]; intros j1 pre e H Hpost Hfree;
    simpl.
  - exact H.
  - rewrite run_bind. cbn [fst].
    replace (Z.of_nat (length pre) + 1)
      with (Z.of_nat (length (pre ++ [nth j1 new_lines []])))
      by (rewrite length_app; simpl; lia).
    rewrite IH.
    + rewrite <- app_assoc. reflexivity.
    + rewrite <- app_assoc. simpl.
      apply insert_line_lines; [exact H | exact Hpost | apply Hfree; lia].
    + exact Hpost.
    + intros k Hk. apply Hfree. lia.
Qed.

Lemma skipn_cons_nth {A} (l : list A) (j : nat) (d : A) :
  (j < length l)%nat -> skipn j l = nth j l d :: skipn (S j) l.
Proof.
  revert j; induction l as [|x l IH]; intros [|j] H; simpl in *;
    try lia; [reflexivity | apply IH; lia].
Qed.

Lemma map_nth_seq {A} (l : list A) (d : A) (n j1 : nat) :
  (j1 + n <= length l)%nat ->
  map (fun k => nth k l d) (seq j1 n) = firstn n (skipn j1 l).
Proof.
  revert j1; induction n as [|n IH]; intros j1 H; simpl; [reflexivity|].
  rewrite (skipn_cons_nth l j1 d) by lia. simpl. f_equal.
  apply IH. lia.
Qed.

Lemma Forall_nth_lf_free (b : list text) (k : nat) :
  Forall lf_free b -> lf_free (nth k b []).
Proof.
  intros H. destruct (Nat.lt_ge_cases k (length b)) as [Hk|Hk].
  - rewrite Forall_forall in H. apply H, nth_In, Hk.
  - rewrite nth_overflow by exact Hk. intros [].
Qed.

(** One operation on a document whose rows are [pre], the rows [mid] the
    operation removes, and [post]: the rows become [pre], the new lines
    the operation names, and [post]. *)
Lemma apply_opcode_lines (new_lines : list text) (op : Opcode) (offset : Z)
    (pre mid post : list text) (e : Editor) :
  ed_lines e = pre ++ mid ++ post ->
  (op_tag op <> tag_equal -> post <> []) ->
  Forall lf_free new_lines ->
  (op_j2 op <= length new_lines)%nat ->
  Z.of_nat (op_i1 op) + offset = Z.of_nat (length pre) ->
  length mid = match op_tag op with
               | tag_replace | tag_delete => (op_i2 op - op_i1 op)%nat
               | _ => O
               end ->
  ed_lines (snd (apply_opcode new_lines op offset e)) =
  pre ++ match op_tag op with
         | tag_replace | tag_insert => slice new_lines (op_j1 op) (op_j2 op)
         | _ => []
         end ++ post.
Proof.
  intros H Hpost Hfree Hj2 Hadj Hmid.
  assert (Hins : forall e1, post <> [] -> ed_lines e1 = pre ++ post ->
            ed_lines (run (insert_lines new_lines
                             (range (op_j1 op) (op_j2 op))
                             (Z.of_nat (length pre))) e1)
            = pre ++ slice new_lines (op_j1 op) (op_j2 op) ++ post).
  { intros e1 Hpost1 H1. unfold range, slice.
    rewrite insert_lines_lines with (post := post);
      [| exact H1 | exact Hpost1
       | intros k _; apply Forall_nth_lf_free, Hfree].
    destruct (Nat.le_gt_cases (op_j1 op) (op_j2 op)) as [Hle|Hgt].
    - rewrite map_nth_seq by lia. reflexivity.
    - replace (op_j2 op - op_j1 op)%nat with O by lia. reflexivity. }
  unfold apply_opcode. rewrite Hadj.
  destruct (op_tag op); cbn zeta.
  - destruct mid; [|discriminate]. exact H.
  - rewrite <- Hmid.
    change (snd ?x) with (run
      (delete_lines (length mid) (Z.of_nat (length pre)) ;;;
       insert_lines new_lines (range (op_j1 op) (op_j2 op))
         (Z.of_nat (length pre)) ;;;
       ret (offset + (Z.of_nat (op_j2 op) - Z.of_nat (op_j1 op)
                      - (Z.of_nat (op_i2 op) - Z.of_nat (op_i1 op))))) e).
    rewrite !run_bind, run_ret. cbn [fst].
    apply Hins; [apply Hpost; discriminate|].
    fold (run (delete_lines (length mid) (Z.of_nat (length pre))) e).
    apply delete_lines_lines; [assumption | apply Hpost; discriminate].
  - rewrite <- Hmid.
    change (snd ?x) with (run
      (delete_lines (length mid) (Z.of_nat (length pre)) ;;;
       ret (offset - (Z.of_nat (op_i2 op) - Z.of_nat (op_i1 op)))) e).
    rewrite run_bind, run_ret. simpl.
    fold (run (delete_lines (length mid) (Z.of_nat (length pre))) e).
    apply delete_lines_lines; [assumption | apply Hpost; discriminate].
  - destruct mid; [|discriminate].
    change (snd ?x) with (run
      (insert_lines new_lines (range (op_j1 op) (op_j2 op))
         (Z.of_nat (length pre)) ;;;
       ret (offset + (Z.of_nat (op_j2 op) - Z.of_nat (op_j1 op)))) e).
    rewrite run_bind, run_ret.
    apply Hins; [apply Hpost; discriminate | exact H].
Qed.

Lemma valid_script_bounds (a b : list text) (ops : list Opcode) (i j : nat) :
  valid_script a b i j ops -> (i <= length a)%nat /\ (j <= length b)%nat.
Proof.
  revert i j; induction ops as [|op r IH]; intros i j H; simpl in H.
  - lia.
  - destruct H as (_ & _ & Hi & Hj & _ & Hr). apply IH in Hr. lia.
Qed.

Lemma skipn_slice {A} (l : list A) (i i2 : nat) :
  (i <= i2)%nat -> skipn i l = slice l i i2 ++ skipn i2 l.
Proof.
  intros H. unfold slice.
  rewrite <- (firstn_skipn (i2 - i) (skipn i l)) at 1.
  rewrite skipn_skipn. replace (i2 - i + i)%nat with i2 by lia. reflexivity.
Qed.

Lemma firstn_slice {A} (l : list A) (j j2 : nat) :
  (j <= j2)%nat -> firstn j2 l = firstn j l ++ slice l j j2.
Proof.
  intros H. unfold slice.
  rewrite <- (firstn_skipn j (firstn j2 l)) at 1.
  rewrite firstn_firstn, skipn_firstn_comm.
  replace (Nat.min j j2) with j by lia. reflexivity.
Qed.

Lemma length_slice {A} (l : list A) (i i2 : nat) :
  (i2 <= length l)%nat -> length (slice l i i2) = (i2 - i)%nat.
Proof.
  intros H. unfold slice. rewrite length_firstn, length_skipn. lia.
Qed.

(** The invariant of the opcode loop: before the operation that starts at
    [(i, j)] the document holds the first [j] new lines, the old lines
    from [i] on, and the rows [tail] after the old text; [offset] is
    [j - i]. *)
Lemma apply_opcodes_lines (a b : list text) (tail : list text)
    (ops : list Opcode) (i j : nat) (offset : Z) (e : Editor) :
  valid_script a b i j ops -> Forall lf_free b ->
  calls_in_range (length a + length tail) ops ->
  ed_lines e = firstn j b ++ skipn i a ++ tail ->
  offset = Z.of_nat j - Z.of_nat i ->
  ed_lines (snd (apply_opcodes b ops offset e)) = b ++ tail.
Proof.
  revert i j offset e.
  induction ops as [|op r IH]; intros i j offset e Hv Hfree Htail H Hoff.
  - simpl in Hv. destruct Hv as [-> ->].
    rewrite firstn_all, skipn_all in H. exact H.
  - simpl in Hv. destruct Hv as (Hi1 & Hj1 & Hi & Hj & Htag & Hr).
    destruct (valid_script_bounds _ _ _ _ _ Hr) as [Hi2 Hj2].
    pose proof (Forall_inv Htail) as Hrange.
    pose proof (Forall_inv_tail Htail) as Htail'. cbv beta in Hrange.
    simpl. unfold bind.
    destruct (apply_opcode_frame b op offset e) as (Ho & _ & _).
    set (mid := match op_tag op with
                | tag_replace | tag_delete => slice a i (op_i2 op)
                | _ => []
                end).
    assert (Hmidlen : length mid = match op_tag op with
                                   | tag_replace | tag_delete =>
                                       (op_i2 op - op_i1 op)%nat
                                   | _ => O
                                   end).
    { subst mid. rewrite Hi1.
      destruct (op_tag op); try reflexivity; apply length_slice; exact Hi2. }
    assert (Hlines : ed_lines e
                     = firstn j b ++ mid
                       ++ (match op_tag op with
                           | tag_replace | tag_delete => skipn (op_i2 op) a
                           | _ => skipn i a
                           end ++ tail)).
    { rewrite H. f_equal. subst mid.
      destruct (op_tag op); simpl; try reflexivity;
        rewrite (skipn_slice a i (op_i2 op)) by exact Hi;
        rewrite <- app_assoc; reflexivity. }
    pose proof (apply_opcode_lines b op offset _ _ _ e Hlines) as Hstep.
    rewrite length_firstn in Hstep.
    replace (Nat.min j (length b)) with j in Hstep by lia.
    assert (Hpost : op_tag op <> tag_equal ->
              match op_tag op with
              | tag_replace | tag_delete => skipn (op_i2 op) a
              | _ => skipn i a
              end ++ tail <> []).
    { intros Hneq Hnil. apply (f_equal (@length text)) in Hnil.
      rewrite length_app in Hnil. simpl in Hnil.
      destruct Hrange as [Heq|Hlt]; [contradiction|].
      destruct (op_tag op); rewrite ?length_skipn in Hnil; lia. }
    specialize (Hstep Hpost Hfree Hj2 ltac:(lia) Hmidlen).
    destruct (apply_opcode b op offset e) as [offset' e1].
    cbn [fst snd] in *.
    apply IH with (i := op_i2 op) (j := op_j2 op); try assumption.
    + rewrite Hstep, (firstn_slice b j (op_j2 op)) by exact Hj.
      rewrite <- app_assoc. rewrite Hj1. f_equal.
      destruct (op_tag op) eqn:Et.
      * (* equal *)
        rewrite (skipn_slice a i (op_i2 op)) by exact Hi.
        rewrite <- Htag, <- app_assoc. reflexivity.
      * reflexivity.
      * rewrite Htag. unfold slice. rewrite Nat.sub_diag. reflexivity.
      * rewrite Htag. reflexivity.
    + rewrite Ho. unfold lines_inserted, lines_deleted.
      destruct (op_tag op) eqn:Et.
      * assert (length (slice a i (op_i2 op))
                = length (slice b j (op_j2 op))) by now rewrite Htag.
        rewrite !length_slice in * by assumption. lia.
      * lia.
      * lia.
      * lia.
Qed.

Lemma valid_script_net (a b : list text) (ops : list Opcode) (i j : nat) :
  valid_script a b i j ops ->
  inserted_so_far ops - deleted_so_far ops
  = (Z.of_nat (length b) - Z.of_nat j) - (Z.of_nat (length a) - Z.of_nat i).
Proof.
  revert i j; induction ops as [|op r IH]; intros i j H; simpl in H.
  - destruct H as [-> ->]. simpl. lia.
  - destruct H as (Hi1 & Hj1 & Hi & Hj & Htag & Hr).
    destruct (valid_script_bounds _ _ _ _ _ Hr) as [Hi2 Hj2].
    simpl. pose proof (IH _ _ Hr) as E.
    unfold lines_inserted, lines_deleted.
    destruct (op_tag op).
    + assert (length (slice a i (op_i2 op))
              = length (slice b j (op_j2 op))) by now rewrite Htag.
      rewrite !length_slice in * by assumption. lia.
    + lia.
    + lia.
    + lia.
Qed.

(** X13: the opcode loop applied to any edit script from the old lines [a]
    to the new lines [b], on a document that holds [a] followed by the
    rows [tail], with every call addressing rows the document has. The
    offset the loop holds after any first part of the script is the lines
    inserted so far minus the lines deleted so far; the calls made are, for
    each operation, its deletions and insertions at the old range start
    moved by that offset; the offset at the end is the difference of the
    line counts; and the document then holds [b] followed by [tail]. *)
Theorem offset_tracking (a b tail : list text) (ops : list Opcode)
    (e : Editor) :
  valid_script a b 0 0 ops ->
  Forall lf_free b ->
  calls_in_range (length a + length tail) ops ->
  ed_lines e = a ++ tail ->
  let r := apply_opcodes b ops 0 e in
  (forall done todo, ops = done ++ todo ->
     fst (apply_opcodes b done 0 e)
     = inserted_so_far done - deleted_so_far done)
  /\ ed_calls (snd r) = ed_calls e ++ script_calls b [] ops
  /\ fst r = Z.of_nat (length b) - Z.of_nat (length a)
  /\ ed_lines (snd r) = b ++ tail.
Proof.
  intros Hv Hfree Hrange H r. subst r.
  destruct (apply_opcodes_frame b ops [] e) as (Ho & _ & Hl).
  simpl in Ho, Hl.
  split; [|split; [exact Hl | split]].
  - intros done todo _.
    destruct (apply_opcodes_frame b done [] e) as (Ho' & _).
    simpl in Ho'. rewrite Ho'. reflexivity.
  - rewrite Ho, (valid_script_net a b ops 0 0 Hv). lia.
  - apply apply_opcodes_lines with (a := a) (i := O) (j := O);
      try assumption; reflexivity.
Qed.

Lemma offset_tracking_witness :
  valid_script lines_abcde lines_axcefg 0 0 script_abcde
  /\ Forall lf_free lines_axcefg
  /\ calls_in_range (length lines_abcde + length [@nil char]) script_abcde
  /\ ed_lines editor_abcde = lines_abcde ++ [[]]
  /\ ed_lines (snd (apply_opcodes lines_axcefg script_abcde 0 editor_abcde))
     = lines_axcefg ++ [[]].
Proof.
  assert (H1 : valid_script lines_abcde lines_axcefg 0 0 script_abcde).
  { simpl. repeat split; auto. }
  assert (H2 : Forall lf_free lines_axcefg).
  { repeat constructor; unfold lf_free; simpl; intros H;
      repeat (destruct H as [H|H]; [discriminate H|]); exact H. }
  assert (H3 : calls_in_range (length lines_abcde + length [@nil char])
                 script_abcde).
  { repeat constructor; simpl; (left; reflexivity) || (right; lia). }
  assert (H4 : ed_lines editor_abcde = lines_abcde ++ [[]]) by reflexivity.
  split; [exact H1|]. split; [exact H2|]. split; [exact H3|].
  split; [exact H4|].
  exact (proj2 (proj2 (proj2
    (offset_tracking lines_abcde lines_axcefg [[]] script_abcde
       editor_abcde H1 H2 H3 H4)))).
Defined.

(** C3, the failing input: the document is "a", "b" without a final LF and
    the new text has the line "c" after them. The line counts are 2 and 3,
    so the general path runs; the script is an equal span and one insert
    hunk at old line 2, and the loop makes the one call the claim
    describes, [insert(0, 2, "c\n")] at the old range start moved by the
    offset 0, and ends with the offset 1. The document has two rows, so
    row 2 does not exist and the text lands at the end of the last line:
    the rows are "a", "bc" and an empty row, not the lines of the new
    text. *)
Theorem insert_after_unterminated_line :
  get_opcodes (splitlines text_ab) (splitlines text_ab_c)
  = [mkOp tag_equal 0 2 0 2; mkOp tag_insert 2 2 2 3]
  /\ fst (apply_opcodes (splitlines text_ab_c)
            (get_opcodes (splitlines text_ab) (splitlines text_ab_c)) 0
            (logged GetCarets editor_ab)) = 1
  /\ ed_calls (after_opcodes text_ab text_ab_c editor_ab)
     = [GetCarets; Insert 0 2 (py "c" ++ [LF])]
  /\ ed_lines (after_opcodes text_ab text_ab_c editor_ab)
     = [py "a"; py "bc"; []]
  /\ ed_text (run (_apply_changes_preserving_states text_ab text_ab_c)
                editor_ab) = join_lf [py "a"; py "bc"; []]
  /\ splitlines (ed_text (run (_apply_changes_preserving_states text_ab
                                 text_ab_c) editor_ab))
     <> splitlines text_ab_c.
Proof.
  do 5 (split; [reflexivity|]).
  vm_compute. discriminate.
Qed.

(** ** The general path: the trailing terminator *)

Lemma join_lf_snoc (ls : list text) (m : text) :
  ls <> [] -> join_lf (ls ++ [m]) = join_lf ls ++ LF :: m.
Proof.
  induction ls as [|l r IH]; intros Hne; [congruence|].
  destruct r as [|l' r'].
  - reflexivity.
  - change ((l :: l' :: r') ++ [m]) with (l :: ((l' :: r') ++ [m])).
    rewrite join_lf_cons by (simpl; discriminate).
    rewrite IH by discriminate.
    rewrite (join_lf_cons l (l' :: r')) by discriminate.
    rewrite <- app_assoc. reflexivity.
Qed.

Lemma list_init_last {A} (ls : list A) (d : A) :
  ls <> [] ->
  ls = firstn (length ls - 1) ls ++ [nth (length ls - 1) ls d].
Proof.
  intros Hne.
  assert (Hlen : (length ls - 1 < length ls)%nat)
    by (destruct ls; [congruence | simpl; lia]).
  rewrite <- (firstn_skipn (length ls - 1) ls) at 1.
  f_equal. rewrite (skipn_cons_nth ls _ d Hlen).
  replace (S (length ls - 1)) with (length ls) by lia.
  rewrite skipn_all. reflexivity.
Qed.

Lemma force_trailing_newline_run (e : Editor) :
  run force_trailing_newline e =
  edit_range
    (logged (GetLineLen (last_row e))
       (logged (GetTextLine (last_row e)) (logged GetLineCount e)))
    0 (last_row e) (last_row_len e) (last_row e) (last_row_text e ++ [LF])
    (Replace 0 (last_row e) (last_row_len e) (last_row e)
             (last_row_text e ++ [LF])).
Proof.
  unfold force_trailing_newline.
  repeat (rewrite run_bind;
          cbn [fst snd get_line_count get_text_line get_line_len replace]).
  change (ed_lines (logged GetLineCount e)) with (ed_lines e).
  change (ed_lines (logged (GetTextLine (Z.of_nat (length (ed_lines e)) - 1))
                      (logged GetLineCount e))) with (ed_lines e).
  fold (last_row e). rewrite in_rows_last_row. reflexivity.
Qed.

(** The block appends one LF to the text of the document, whatever the
    last row holds. *)
Lemma force_trailing_newline_text (e : Editor) :
  ed_text (run force_trailing_newline e) = ed_text e ++ [LF].
Proof.
  rewrite force_trailing_newline_run.
  unfold edit_range. cbn [ed_text].
  set (e1 := logged _ _).
  change (ed_lines e1) with (ed_lines e).
  pose proof (split_lf_length (ed_text e)) as Hn. fold (ed_lines e) in Hn.
  pose proof (ed_lines_nonempty e) as Hne.
  rewrite !resolve_in by (unfold last_row; lia).
  unfold splice_lines, last_row_len, row_len, last_row_text, line_at.
  replace (Z.to_nat (last_row e)) with (length (ed_lines e) - 1)%nat
    by (unfold last_row; lia).
  set (l := nth (length (ed_lines e) - 1) (ed_lines e) []).
  rewrite Nat2Z.id, (skipn_all l), app_nil_r.
  change (firstn (Z.to_nat 0) l) with (@nil char). rewrite app_nil_l.
  replace (S (length (ed_lines e) - 1)) with (length (ed_lines e)) by lia.
  rewrite (skipn_all (ed_lines e)), app_nil_r.
  assert (Hl : lf_free l) by apply Forall_nth_lf_free, ed_lines_lf_free.
  rewrite (split_lf_two l []) by (exact Hl || intros []).
  change [l; []] with ([l] ++ [[]]). rewrite app_assoc.
  subst l. rewrite <- (list_init_last (ed_lines e) [] Hne).
  rewrite join_lf_snoc by exact Hne.
  unfold ed_lines. rewrite join_split_lf. reflexivity.
Qed.

Lemma force_trailing_newline_frame (e : Editor) :
  let e' := run force_trailing_newline e in
  ed_carets e' = ed_carets e
  /\ ed_calls e' =
     ed_calls e
     ++ [GetLineCount; GetTextLine (last_row e); GetLineLen (last_row e);
         Replace 0 (last_row e) (last_row_len e) (last_row e)
                 (last_row_text e ++ [LF])].
Proof.
  rewrite force_trailing_newline_run. simpl.
  rewrite <- !app_assoc. split; reflexivity.
Qed.

(** The general path is: the read of the carets, the opcode loop, the
    block for the trailing terminator when [new_text] ends with LF, the
    caret block on the saved carets, and the update. *)
Lemma slow_path_run (old_text new_text : text) (e : Editor) :
  run (slow_path (splitlines old_text) (splitlines new_text) new_text) e =
  logged ActionUpdate
    (run (restore_caret (ed_carets e))
       (run (if endswith_lf new_text then force_trailing_newline
             else ret tt)
          (after_opcodes old_text new_text e))).
Proof.
  unfold slow_path, after_opcodes.
  repeat (rewrite run_bind; cbn [fst snd get_carets action_update]).
  reflexivity.
Qed.

Lemma after_opcodes_frame (old_text new_text : text) (e : Editor) :
  ed_carets (after_opcodes old_text new_text e) = ed_carets e
  /\ ed_calls (after_opcodes old_text new_text e) =
     ed_calls e ++ [GetCarets]
     ++ script_calls (splitlines new_text) []
          (get_opcodes (splitlines old_text) (splitlines new_text)).
Proof.
  unfold after_opcodes.
  destruct (apply_opcodes_frame (splitlines new_text)
              (get_opcodes (splitlines old_text) (splitlines new_text)) []
              (logged GetCarets e)) as (_ & Hc & Hl).
  simpl in Hc, Hl. rewrite Hc, Hl, <- app_assoc. split; reflexivity.
Qed.

(** The calls of the general path, and its carets. *)
Lemma slow_path_trace (old_text new_text : text) (e : Editor) :
  let e' := run (slow_path (splitlines old_text) (splitlines new_text)
                   new_text) e in
  exists x y,
    ed_calls e' = ed_calls e ++ slow_path_calls old_text new_text e x y
    /\ ed_carets e' = match ed_carets e with
                      | [] => []
                      | _ :: _ => [mkCaret x y (-1) (-1)]
                      end.
Proof.
  intros e'. subst e'. rewrite slow_path_run.
  destruct (after_opcodes_frame old_text new_text e) as [Hc1 Hl1].
  set (e1 := after_opcodes old_text new_text e) in *.
  set (e2 := run (if endswith_lf new_text then force_trailing_newline
                  else ret tt) e1).
  assert (H2 : ed_carets e2 = ed_carets e
               /\ ed_calls e2 =
                  ed_calls e1 ++ (if endswith_lf new_text
                                  then force_calls e1 else [])).
  { subst e2. destruct (endswith_lf new_text).
    - destruct (force_trailing_newline_frame e1) as [Hc Hl].
      rewrite Hc, Hl, Hc1. split; reflexivity.
    - rewrite run_ret, app_nil_r. split; [exact Hc1 | reflexivity]. }
  destruct H2 as [Hc2 Hl2].
  destruct (restore_caret_frame (ed_carets e) e2)
    as (_ & _ & _ & x & y & Hl3 & Hc3).
  exists x, y. cbn [logged ed_calls ed_carets].
  rewrite Hl3, Hc3, Hl2, Hl1, Hc2. unfold slow_path_calls.
  fold e1. unfold caret_block_calls.
  split; [rewrite <- !app_assoc; reflexivity|].
  destruct (ed_carets e); reflexivity.
Qed.

Lemma endswith_lf_snoc (t : text) : endswith_lf (t ++ [LF]) = true.
Proof. unfold endswith_lf. rewrite rev_unit. reflexivity. Qed.

(** C6: in the general path, when [new_text] ends with LF and the text
    of the document after the opcode loop does not, the last row is
    replaced by its own text followed by LF: the final text is the text
    after the loop plus one LF, and so ends with LF as [new_text] does. *)
Theorem trailing_terminator_forced (old_text new_text : text) (e : Editor) :
  let e1 := after_opcodes old_text new_text e in
  let e' := run (_apply_changes_preserving_states old_text new_text) e in
  text_eqb old_text new_text = false ->
  length (splitlines old_text) <> length (splitlines new_text) ->
  endswith_lf new_text = true ->
  endswith_lf (ed_text e1) = false ->
  In (Replace 0 (last_row e1) (last_row_len e1) (last_row e1)
              (last_row_text e1 ++ [LF])) (ed_calls e')
  /\ ed_text e' = ed_text e1 ++ [LF]
  /\ endswith_lf (ed_text e') = endswith_lf new_text.
Proof.
  intros e1 e' Hne Hlen Hnew Hold. subst e'.
  rewrite apply_changes_slow by assumption.
  assert (Ht : ed_text (run (slow_path (splitlines old_text)
                               (splitlines new_text) new_text) e)
               = ed_text e1 ++ [LF]).
  { rewrite slow_path_run, Hnew. cbn [logged ed_text].
    destruct (restore_caret_frame (ed_carets e)
                (run force_trailing_newline
                   (after_opcodes old_text new_text e))) as (Htx & _).
    rewrite Htx. apply force_trailing_newline_text. }
  split; [|split].
  - destruct (slow_path_trace old_text new_text e) as (x & y & Hl & _).
    rewrite Hl. unfold slow_path_calls. rewrite Hnew. fold e1.
    apply in_or_app; right. apply in_or_app; right.
    apply in_or_app; right. apply in_or_app; left.
    unfold force_calls. simpl. auto.
  - exact Ht.
  - rewrite Ht, Hnew. apply endswith_lf_snoc.
Qed.

Lemma trailing_terminator_forced_witness :
  text_eqb text_abc text_ac = false
  /\ length (splitlines text_abc) <> length (splitlines text_ac)
  /\ endswith_lf text_ac = true
  /\ endswith_lf (ed_text (after_opcodes text_abc text_ac editor_abc)) = false
  /\ ed_text (run (_apply_changes_preserving_states text_abc text_ac)
                editor_abc) = text_ac.
Proof.
  assert (H1 : text_eqb text_abc text_ac = false) by reflexivity.
  assert (H2 : length (splitlines text_abc) <> length (splitlines text_ac))
    by (vm_compute; lia).
  assert (H3 : endswith_lf text_ac = true) by reflexivity.
  assert (H4 : endswith_lf (ed_text (after_opcodes text_abc text_ac
                                       editor_abc)) = false) by reflexivity.
  split; [exact H1|]. split; [exact H2|]. split; [exact H3|].
  split; [exact H4|].
  exact (proj1 (proj2 (trailing_terminator_forced text_abc text_ac editor_abc
                         H1 H2 H3 H4))).
Defined.

(** ** The content after a call *)

(** On the fast path the document is [new_text]. *)
Lemma fast_path_content (old_text new_text : text) (e : Editor) :
  text_eqb old_text new_text = false ->
  length (splitlines old_text) = length (splitlines new_text) ->
  ed_text (run (_apply_changes_preserving_states old_text new_text) e)
  = new_text.
Proof.
  intros Hne Hlen. rewrite apply_changes_fast by assumption.
  rewrite fast_path_run. cbn [logged ed_text].
  destruct (restore_caret_frame (ed_carets e)
    (run (if truthy (ed_states e)
             && (length (splitlines old_text) <=? length (ed_states e))%nat
          then restore_states (splitlines old_text) (splitlines new_text)
                 (ed_states e)
          else ret tt) (run (fast_path_replace new_text) e))) as (Ht & _).
  rewrite Ht.
  destruct (truthy (ed_states e)
            && (length (splitlines old_text) <=? length (ed_states e))%nat).
  - rewrite restore_states_write by exact Hlen.
    destruct (write_states_frame
      (fun i => if text_eqb (nth i (splitlines old_text) [])
                            (nth i (splitlines new_text) [])
                then nth i (ed_states e) LINESTATE_NORMAL
                else LINESTATE_CHANGED)
      (seq 0 (length (splitlines new_text)))
      (run (fast_path_replace new_text) e)) as (Ht2 & _).
    rewrite Ht2. apply fast_path_replace_text.
  - rewrite run_ret. apply fast_path_replace_text.
Qed.

(** On the general path, when [new_text] ends with LF, the document is the
    text the opcode loop left plus one LF, whether or not that text ended
    with LF already. *)
Lemma slow_path_content_lf (old_text new_text : text) (e : Editor) :
  text_eqb old_text new_text = false ->
  length (splitlines old_text) <> length (splitlines new_text) ->
  endswith_lf new_text = true ->
  ed_text (run (_apply_changes_preserving_states old_text new_text) e)
  = ed_text (after_opcodes old_text new_text e) ++ [LF].
Proof.
  intros Hne Hlen Hnew. rewrite apply_changes_slow by assumption.
  rewrite slow_path_run, Hnew. cbn [logged ed_text].
  destruct (restore_caret_frame (ed_carets e)
              (run force_trailing_newline
                 (after_opcodes old_text new_text e))) as (Htx & _).
  rewrite Htx. apply force_trailing_newline_text.
Qed.

(** C1, the failing input: the document is "import os", "x = 1" with a
    final LF and the new text is "x = 1" with a final LF. The line counts
    are 2 and 1, so the general path runs; after the deletion of row 0 the
    document equals the new text, and the block for the trailing
    terminator then adds a second LF: the final text is not the new
    text. *)
Theorem slow_path_adds_second_newline :
  ed_text (after_opcodes text_import text_fixed editor_import) = text_fixed
  /\ ed_text (run (_apply_changes_preserving_states text_import text_fixed)
                editor_import) = text_fixed ++ [LF]
  /\ ed_text (run (_apply_changes_preserving_states text_import text_fixed)
                editor_import) <> text_fixed.
Proof.
  split; [reflexivity|]. split; [reflexivity|].
  vm_compute. discriminate.
Qed.

(** ** The caret after a call *)

Lemma apply_changes_ends_with_caret_block (old_text new_text : text)
    (e : Editor) :
  text_eqb old_text new_text = false ->
  exists e2,
    run (_apply_changes_preserving_states old_text new_text) e
    = logged ActionUpdate (run (restore_caret (ed_carets e)) e2).
Proof.
  intros Hne.
  destruct (Nat.eq_dec (length (splitlines old_text))
                       (length (splitlines new_text))) as [Hlen|Hlen].
  - rewrite apply_changes_fast by assumption. rewrite fast_path_run.
    eexists. reflexivity.
  - rewrite apply_changes_slow by assumption. rewrite slow_path_run.
    eexists. reflexivity.
Qed.

(** C7: in both paths, when there was a caret (at a column and a row
    that are not negative), the editor ends with that caret moved into the
    final document: the row is the saved one, or the last row when the
    saved row is at or past the line count; the column is the saved one,
    or the length of that row when the saved column exceeds it. The caret
    is a position of the final document. *)
Theorem caret_clamped (old_text new_text : text) (e : Editor) (c : Caret)
    (rest : list Caret) :
  let e' := run (_apply_changes_preserving_states old_text new_text) e in
  text_eqb old_text new_text = false ->
  ed_carets e = c :: rest ->
  0 <= cx c -> 0 <= cy c ->
  ed_carets e' = [clamped_caret e' c]
  /\ valid_caret e' (clamped_caret e' c).
Proof.
  intros e' Hne Hc Hx Hy. subst e'.
  destruct (apply_changes_ends_with_caret_block old_text new_text e Hne)
    as [e2 ->].
  rewrite Hc, restore_caret_run by exact Hy.
  split; [reflexivity|].
  apply (clamped_caret_valid
           (logged ActionUpdate
              (mkEditor (ed_filename e2) (ed_text e2) (ed_states e2)
                 [clamped_caret e2 c]
                 (ed_calls e2 ++ caret_calls e2 (c :: rest)))) c Hx Hy).
Qed.

Lemma caret_clamped_witness :
  text_eqb text_ten text_three = false
  /\ ed_carets editor_ten = [mkCaret 4 5 (-1) (-1); mkCaret 0 7 2 7]
  /\ 0 <= 4 /\ 0 <= 5
  /\ ed_carets (run (_apply_changes_preserving_states text_ten text_three)
                  editor_ten) = [mkCaret 2 2 (-1) (-1)].
Proof.
  assert (H1 : text_eqb text_ten text_three = false) by reflexivity.
  assert (H2 : ed_carets editor_ten
               = [mkCaret 4 5 (-1) (-1); mkCaret 0 7 2 7]) by reflexivity.
  assert (H3 : 0 <= 4) by lia.
  assert (H4 : 0 <= 5) by lia.
  split; [exact H1|]. split; [exact H2|]. split; [exact H3|].
  split; [exact H4|].
  exact (proj1 (caret_clamped text_ten text_three editor_ten
                  (mkCaret 4 5 (-1) (-1)) [mkCaret 0 7 2 7] H1 H2 H3 H4)).
Defined.

(** ** The calls of a whole run *)

Lemma forallb_map_true {A B} (p : B -> bool) (f : A -> B) (l : list A) :
  (forall x, p (f x) = true) -> forallb p (map f l) = true.
Proof.
  intros H. induction l as [|x r IH]; simpl; [reflexivity|].
  rewrite H, IH. reflexivity.
Qed.

Lemma forallb_repeat_true {A} (p : A -> bool) (a : A) (n : nat) :
  p a = true -> forallb p (repeat a n) = true.
Proof.
  intros H. induction n as [|n IH]; simpl; [reflexivity|].
  rewrite H, IH. reflexivity.
Qed.

(** The opcode loop only deletes and inserts. *)
Lemma script_calls_edits (p : HostCall -> bool) (new_lines : list text)
    (todo done : list Opcode) :
  (forall x1 y1 x2 y2, p (Delete x1 y1 x2 y2) = true) ->
  (forall x y t, p (Insert x y t) = true) ->
  forallb p (script_calls new_lines done todo) = true.
Proof.
  intros Hd Hi. revert done.
  induction todo as [|op r IH]; intros done; simpl; [reflexivity|].
  rewrite forallb_app, IH, andb_true_r. unfold op_calls.
  destruct (op_tag op); try reflexivity;
    rewrite ?forallb_app, ?forallb_repeat_true, ?forallb_map_true;
    auto.
Qed.

(** The calls of the fast path, and its carets. *)
Lemma fast_path_trace (old_text new_text : text) (e : Editor) :
  let old_lines := splitlines old_text in
  let new_lines := splitlines new_text in
  let e' := run (fast_path old_lines new_lines new_text) e in
  length old_lines = length new_lines ->
  exists x y,
    ed_calls e' =
    ed_calls e
    ++ [GetLineStates; GetCarets; GetLineCount; GetLineLen (last_row e);
        Replace 0 0 (last_row_len e) (last_row e) new_text]
    ++ (if truthy (ed_states e)
           && (length old_lines <=? length (ed_states e))%nat
        then state_writes old_lines new_lines (ed_states e) else [])
    ++ caret_block_calls (ed_carets e) x y
    ++ [ActionUpdate]
    /\ ed_carets e' = match ed_carets e with
                      | [] => []
                      | _ :: _ => [mkCaret x y (-1) (-1)]
                      end.
Proof.
  intros old_lines new_lines e' Hlen. subst e'. rewrite fast_path_run.
  set (e1 := run (fast_path_replace new_text) e).
  set (g := truthy (ed_states e)
            && (length old_lines <=? length (ed_states e))%nat).
  set (e2 := run (if g then restore_states old_lines new_lines (ed_states e)
                  else ret tt) e1).
  assert (H2 : ed_carets e2 = ed_carets e
               /\ ed_calls e2 =
                  ed_calls e1
                  ++ (if g then state_writes old_lines new_lines (ed_states e)
                      else [])).
  { subst e2. destruct g.
    - rewrite restore_states_write by exact Hlen.
      match goal with
      | |- context [run (write_states ?f ?l) e1] =>
          destruct (write_states_frame f l e1) as (_ & Hc & _ & _ & Hl)
      end.
      rewrite Hc, Hl. subst e1. rewrite fast_path_replace_carets.
      split; reflexivity.
    - rewrite run_ret, app_nil_r. subst e1.
      rewrite fast_path_replace_carets. split; reflexivity. }
  destruct H2 as [Hc2 Hl2].
  destruct (restore_caret_frame (ed_carets e) e2)
    as (_ & _ & _ & x & y & Hl3 & Hc3).
  exists x, y. cbn [logged ed_calls ed_carets].
  rewrite Hl3, Hc3, Hl2, Hc2. subst e1. rewrite fast_path_replace_calls.
  unfold caret_block_calls.
  split; [rewrite <- !app_assoc; reflexivity|].
  destruct (ed_carets e); reflexivity.
Qed.

Lemma caret_after_run (old_text new_text : text) (e : Editor) (c : Caret)
    (rest : list Caret) :
  let e' := run (_apply_changes_preserving_states old_text new_text) e in
  text_eqb old_text new_text = false ->
  ed_carets e = c :: rest -> 0 <= cy c ->
  ed_carets e' = [clamped_caret e' c].
Proof.
  intros e' Hne Hc Hy. subst e'.
  destruct (apply_changes_ends_with_caret_block old_text new_text e Hne)
    as [e2 ->].
  rewrite Hc, restore_caret_run by exact Hy. reflexivity.
Qed.

Lemma apply_changes_trace (old_text new_text : text) (e : Editor) :
  let e' := run (_apply_changes_preserving_states old_text new_text) e in
  text_eqb old_text new_text = false ->
  exists x y tr,
    ed_calls e' = ed_calls e ++ tr ++ caret_block_calls (ed_carets e) x y
                  ++ [ActionUpdate]
    /\ forallb (fun c => negb (is_set_caret c)) tr = true
    /\ (length (splitlines old_text) <> length (splitlines new_text) ->
        forallb (fun c => negb (is_set_line_state c)) tr = true)
    /\ ed_carets e' = match ed_carets e with
                      | [] => []
                      | _ :: _ => [mkCaret x y (-1) (-1)]
                      end.
Proof.
  intros e' Hne. subst e'.
  destruct (Nat.eq_dec (length (splitlines old_text))
                       (length (splitlines new_text))) as [Hlen|Hlen].
  - rewrite apply_changes_fast by assumption.
    destruct (fast_path_trace old_text new_text e Hlen)
      as (x & y & Hl & Hc).
    exists x, y.
    exists ([GetLineStates; GetCarets; GetLineCount; GetLineLen (last_row e);
             Replace 0 0 (last_row_len e) (last_row e) new_text]
            ++ (if truthy (ed_states e)
                   && (length (splitlines old_text)
                       <=? length (ed_states e))%nat
                then state_writes (splitlines old_text)
                       (splitlines new_text) (ed_states e)
                else [])).
    split; [|split; [|split; [|exact Hc]]].
    + rewrite Hl. reflexivity.
    + rewrite forallb_app. apply andb_true_iff; split; [reflexivity|].
      destruct (truthy (ed_states e)
                && (length (splitlines old_text)
                    <=? length (ed_states e))%nat); [|reflexivity].
      apply forallb_map_true. reflexivity.
    + intros Hd. contradiction.
  - rewrite apply_changes_slow by assumption.
    destruct (slow_path_trace old_text new_text e) as (x & y & Hl & Hc).
    exists x, y.
    exists ([GetCarets]
            ++ script_calls (splitlines new_text) []
                 (get_opcodes (splitlines old_text) (splitlines new_text))
            ++ (if endswith_lf new_text
                then force_calls (after_opcodes old_text new_text e)
                else [])).
    split; [|split; [|split; [|exact Hc]]].
    + rewrite Hl. unfold slow_path_calls. cbn [app]. do 2 f_equal.
      rewrite <- app_assoc. reflexivity.
    + rewrite !forallb_app.
      rewrite script_calls_edits by reflexivity.
      destruct (endswith_lf new_text); reflexivity.
    + intros _. rewrite !forallb_app.
      rewrite script_calls_edits by reflexivity.
      destruct (endswith_lf new_text); reflexivity.
Qed.

(** C10: a run on different texts. With no caret reported, the editor
    still has none and no [set_caret] call is made. With carets reported,
    the editor ends with exactly one caret, the one set by the single
    [set_caret] call; it is computed from the column and row of the first
    saved caret only (when its row is not negative, it is that position
    clamped to the final document), and the other carets are gone. *)
Theorem single_caret_or_none (old_text new_text : text) (e : Editor) :
  let e' := run (_apply_changes_preserving_states old_text new_text) e in
  text_eqb old_text new_text = false ->
  match ed_carets e with
  | [] =>
      ed_carets e' = []
      /\ exists tr, ed_calls e' = ed_calls e ++ tr
                    /\ forallb (fun c => negb (is_set_caret c)) tr = true
  | c :: _ =>
      (exists x y tr,
         ed_carets e' = [mkCaret x y (-1) (-1)]
         /\ ed_calls e' = ed_calls e ++ tr ++ [GetLineCount; GetLineLen y;
                                               SetCaret x y; ActionUpdate]
         /\ forallb (fun c => negb (is_set_caret c)) tr = true)
      /\ (0 <= cy c -> ed_carets e' = [clamped_caret e' c])
  end.
Proof.
  intros e' Hne.
  destruct (apply_changes_trace old_text new_text e Hne)
    as (x & y & tr & Hl & Hq & _ & Hc).
  fold e' in Hl, Hc.
  destruct (ed_carets e) as [|c rest] eqn:Ec.
  - split; [exact Hc|]. exists (tr ++ [ActionUpdate]).
    split; [exact Hl|]. rewrite forallb_app, Hq. reflexivity.
  - split.
    + exists x, y, tr. split; [exact Hc|]. split; [exact Hl | exact Hq].
    + intros Hy. exact (caret_after_run old_text new_text e c rest Hne Ec Hy).
Qed.

Lemma single_caret_or_none_witness :
  text_eqb text_ten text_three = false
  /\ ((0 <= 5 ->
       ed_carets (run (_apply_changes_preserving_states text_ten text_three)
                    editor_ten) = [mkCaret 2 2 (-1) (-1)]))
  /\ ed_carets (run (_apply_changes_preserving_states text_abc text_axc)
                  (mkEditor (py "a.py") text_abc [0; 0; 0] [] [])) = [].
Proof.
  assert (H1 : text_eqb text_ten text_three = false) by reflexivity.
  assert (H2 : text_eqb text_abc text_axc = false) by reflexivity.
  split; [exact H1|]. split.
  - exact (proj2 (single_caret_or_none text_ten text_three editor_ten H1)).
  - exact (proj1 (single_caret_or_none text_abc text_axc
                    (mkEditor (py "a.py") text_abc [0; 0; 0] [] []) H2)).
Defined.

(** ** The line states after a call *)

(** C2, counterexample: the document is the lines a, b with tags 0, 0,
    and the new text is the lines b, a. The edit script between the two
    has the [equal] span of line a (old row 0, new row 1); the line counts
    are equal, the fast path compares rows by position and tags both rows
    [LINESTATE_CHANGED], so the row of the [equal] span lost its tag. *)
Lemma fast_path_tags_by_position :
  ~ states_follow_script text_ab text_ba editor_ab.
Proof.
  intros H. specialize (H 1%nat ltac:(vm_compute; lia)).
  vm_compute in H. discriminate H.
Qed.

Example positional_tags_trace :
  get_opcodes (splitlines text_ab) (splitlines text_ba)
  = [mkOp tag_insert 0 0 0 1; mkOp tag_equal 0 1 1 2; mkOp tag_delete 1 2 2 2]
  /\ ed_states editor_ab = [LINESTATE_NORMAL; LINESTATE_NORMAL]
  /\ ed_states (run (_apply_changes_preserving_states text_ab text_ba)
                  editor_ab) = [LINESTATE_CHANGED; LINESTATE_CHANGED].
Proof. repeat split. Qed.

(** C2, as amended: on different texts. With equal line counts and a
    saved state array that is not empty and has an entry for every old
    line, every row [i] below the new line count that the document has
    carries the saved tag of row [i] when old and new line [i] are the same
    text, and [LINESTATE_CHANGED] otherwise. With different line counts,
    the reconciler makes no line-state write at all. *)
Theorem states_after_reconcile (old_text new_text : text) (e : Editor) :
  let old_lines := splitlines old_text in
  let new_lines := splitlines new_text in
  let e' := run (_apply_changes_preserving_states old_text new_text) e in
  text_eqb old_text new_text = false ->
  (length old_lines = length new_lines ->
   truthy (ed_states e) = true ->
   (length old_lines <= length (ed_states e))%nat ->
   forall i, (i < length new_lines)%nat -> (i < length (ed_states e'))%nat ->
     nth i (ed_states e') LINESTATE_NORMAL
     = if text_eqb (nth i old_lines []) (nth i new_lines [])
       then nth i (ed_states e) LINESTATE_NORMAL
       else LINESTATE_CHANGED)
  /\ (length old_lines <> length new_lines ->
      exists tr,
        ed_calls e' = ed_calls e ++ tr
        /\ forallb (fun c => negb (is_set_line_state c)) tr = true).
Proof.
  intros old_lines new_lines e' Hne. split.
  - intros Hlen Htruthy Hstates i Hi Hi'. subst old_lines new_lines.
    set (f := fun k : nat =>
                if text_eqb (nth k (splitlines old_text) [])
                            (nth k (splitlines new_text) [])
                then nth k (ed_states e) LINESTATE_NORMAL
                else LINESTATE_CHANGED).
    set (e1 := run (fast_path_replace new_text) e).
    set (idxs := seq 0 (length (splitlines new_text))).
    assert (Hst : ed_states e' = ed_states (run (write_states f idxs) e1)).
    { subst e'. rewrite apply_changes_fast by assumption.
      rewrite fast_path_run. apply Nat.leb_le in Hstates.
      rewrite Htruthy, Hstates. cbn [andb].
      rewrite restore_states_write by exact Hlen.
      destruct (restore_caret_frame (ed_carets e)
                  (run (write_states f idxs) e1)) as (_ & Hs & _).
      cbn [logged ed_states]. exact Hs. }
    rewrite Hst in Hi' |- *.
    destruct (write_states_frame f idxs e1) as (_ & _ & _ & Hlen2 & _).
    rewrite write_states_nth.
    + reflexivity.
    + apply seq_NoDup.
    + apply in_seq. lia.
    + rewrite <- Hlen2. exact Hi'.
  - intros Hlen.
    destruct (apply_changes_trace old_text new_text e Hne)
      as (x & y & tr & Hl & _ & Hq & _).
    fold e' in Hl.
    exists (tr ++ caret_block_calls (ed_carets e) x y ++ [ActionUpdate]).
    split; [exact Hl|].
    rewrite !forallb_app, (Hq Hlen).
    destruct (ed_carets e); reflexivity.
Qed.

Lemma states_after_reconcile_witness :
  text_eqb text_abc text_axc = false
  /\ nth 1 (ed_states (run (_apply_changes_preserving_states text_abc
                              text_axc) editor_abc)) LINESTATE_NORMAL
     = LINESTATE_CHANGED
  /\ nth 2 (ed_states (run (_apply_changes_preserving_states text_abc
                              text_axc) editor_abc)) LINESTATE_NORMAL
     = 2.
Proof.
  assert (H1 : text_eqb text_abc text_axc = false) by reflexivity.
  assert (H2 : length (splitlines text_abc) = length (splitlines text_axc))
    by reflexivity.
  assert (H3 : truthy (ed_states editor_abc) = true) by reflexivity.
  assert (H4 : (length (splitlines text_abc)
                <= length (ed_states editor_abc))%nat) by (vm_compute; lia).
  split; [exact H1|]. split.
  - exact (proj1 (states_after_reconcile text_abc text_axc editor_abc H1)
             H2 H3 H4 1%nat ltac:(vm_compute; lia) ltac:(vm_compute; lia)).
  - exact (proj1 (states_after_reconcile text_abc text_axc editor_abc H1)
             H2 H3 H4 2%nat ltac:(vm_compute; lia) ltac:(vm_compute; lia)).
Defined.

(** ** The commands *)

Lemma only_reports_direct (e : Editor) (m : HostCall) :
  is_message m = true -> only_reports e (logged m e).
Proof.
  intros Hm. unfold only_reports. cbn [logged ed_text ed_states ed_carets].
  do 3 (split; [reflexivity|]). exists [], m.
  split; [reflexivity|]. split; [|exact Hm].
  destruct m; try discriminate Hm; reflexivity.
Qed.

Lemma only_reports_after_reads (e : Editor) (m : HostCall) :
  is_message m = true -> only_reports e (logged m (after_reads e)).
Proof.
  intros Hm. unfold only_reports, after_reads.
  cbn [logged ed_text ed_states ed_carets ed_calls].
  do 3 (split; [reflexivity|]). exists [GetTextAll; GetFilename], m.
  split; [rewrite <- !app_assoc; reflexivity|]. split; [|exact Hm].
  destruct m; try discriminate Hm; reflexivity.
Qed.

Lemma fix_file_run (linter : Linter)
    (subprocess_run : list text -> text -> RunResult) (unsafe : bool)
    (path : text) (e : Editor) :
  ruff_path linter = Some path ->
  run (_fix_file linter subprocess_run unsafe) e =
  run (match subprocess_run (fix_cmd linter path (ed_filename e) unsafe)
               (ed_text e) with
       | Completed returncode stdout stderr =>
           if fix_accepts returncode then
             if syntax_error_in stderr then
               msg_status
                 (py "Ruff: File has syntax errors - cannot apply fixes")
             else if truthy stdout && negb (text_eqb stdout (ed_text e)) then
               _apply_changes_preserving_states (ed_text e) stdout ;;;
               msg_status (py "Ruff: Applied fixes (Ctrl+Z to undo)")
             else msg_status (py "Ruff: No fixes needed")
           else
             msg_status (py "Ruff --fix error: " ++ or_text stderr stdout)
       | TimeoutExpired =>
           msg_box (py "Ruff --fix timed out (>" ++ timeout_str linter
                    ++ py "s)")
       | Raised err => msg_box (py "Ruff --fix failed:" ++ [LF] ++ err)
       end) (after_reads e).
Proof.
  intros Hpath. unfold _fix_file. rewrite Hpath.
  rewrite !run_bind. cbn [fst snd get_text_all get_filename].
  change (ed_filename (logged GetTextAll e)) with (ed_filename e).
  replace (fix_cmd linter path (ed_filename e) unsafe)
    with ((if truthy (ignore_codes linter)
           then (if truthy (select_codes linter)
                 then (if unsafe
                       then [path; py "check"; py "--fix"; py "-"]
                            ++ [py "--unsafe-fixes"]
                       else [path; py "check"; py "--fix"; py "-"])
                      ++ [py "--select"; join_comma (select_codes linter)]
                 else if unsafe
                      then [path; py "check"; py "--fix"; py "-"]
                           ++ [py "--unsafe-fixes"]
                      else [path; py "check"; py "--fix"; py "-"])
                ++ [py "--ignore"; join_comma (ignore_codes linter)]
           else if truthy (select_codes linter)
                then (if unsafe
                      then [path; py "check"; py "--fix"; py "-"]
                           ++ [py "--unsafe-fixes"]
                      else [path; py "check"; py "--fix"; py "-"])
                     ++ [py "--select"; join_comma (select_codes linter)]
                else if unsafe
                     then [path; py "check"; py "--fix"; py "-"]
                          ++ [py "--unsafe-fixes"]
                     else [path; py "check"; py "--fix"; py "-"])
          ++ [py "--stdin-filename";
              or_text (ed_filename e) (py "untitled.py")]).
  - unfold after_reads, fix_accepts. reflexivity.
  - unfold fix_cmd.
    destruct unsafe, (truthy (select_codes linter)),
      (truthy (ignore_codes linter)); reflexivity.
Qed.

Lemma format_file_run (linter : Linter)
    (subprocess_run : list text -> text -> RunResult) (path : text)
    (e : Editor) :
  ruff_path linter = Some path ->
  run (format_file linter subprocess_run) e =
  run (match subprocess_run (format_cmd path (ed_filename e)) (ed_text e)
       with
       | Completed returncode stdout stderr =>
           if format_accepts returncode then
             if truthy stdout && negb (text_eqb stdout (ed_text e)) then
               _apply_changes_preserving_states (ed_text e) stdout ;;;
               msg_status (py "Ruff: Formatted (Ctrl+Z to undo)")
             else msg_status (py "Ruff: Already formatted")
           else if syntax_error_in stderr then
             msg_status (py "Ruff: File has syntax errors - cannot format")
           else
             msg_status (py "Ruff format error: " ++ or_text stderr stdout)
       | TimeoutExpired =>
           msg_box (py "Ruff format timed out (>" ++ timeout_str linter
                    ++ py "s)")
       | Raised err => msg_box (py "Ruff format failed:" ++ [LF] ++ err)
       end) (after_reads e).
Proof.
  intros Hpath. unfold format_file. rewrite Hpath.
  rewrite !run_bind. cbn [fst snd get_text_all get_filename].
  reflexivity.
Qed.

(** C8: [_fix_file] and [format_file] call the reconciler exactly when
    the tool run completed with an accepted return code (0 or 1 for the
    fix, 0 for the format), no syntax error was detected in that branch,
    and the output is not empty and differs from the buffer text; the
    reconciler then gets the buffer text and the output, and a status
    message follows. In every other case (no executable, rejected return
    code, timeout, another exception, detected syntax error, empty or
    unchanged output) the document, the line states and the carets are as
    before, no mutating call was made, and the last call shows a
    message. *)
Theorem commands_reconcile_only_when_due (linter : Linter)
    (subprocess_run : list text -> text -> RunResult) (unsafe : bool)
    (e : Editor) :
  match ruff_path linter with
  | None =>
      only_reports e (run (_fix_file linter subprocess_run unsafe) e)
      /\ only_reports e (run (format_file linter subprocess_run) e)
  | Some path =>
      let code := ed_text e in
      let fixed := subprocess_run (fix_cmd linter path (ed_filename e) unsafe)
                     code in
      let formatted := subprocess_run (format_cmd path (ed_filename e))
                         code in
      (if reconcile_due fix_accepts true code fixed
       then run (_fix_file linter subprocess_run unsafe) e =
            logged (MsgStatus (py "Ruff: Applied fixes (Ctrl+Z to undo)"))
              (run (_apply_changes_preserving_states code (run_stdout fixed))
                 (after_reads e))
       else only_reports e (run (_fix_file linter subprocess_run unsafe) e))
      /\ (if reconcile_due format_accepts false code formatted
          then run (format_file linter subprocess_run) e =
               logged (MsgStatus (py "Ruff: Formatted (Ctrl+Z to undo)"))
                 (run (_apply_changes_preserving_states code
                         (run_stdout formatted))
                    (after_reads e))
          else only_reports e (run (format_file linter subprocess_run) e))
  end.
Proof.
  destruct (ruff_path linter) as [path|] eqn:Hpath.
  - cbv zeta. split.
    + rewrite (fix_file_run linter subprocess_run unsafe path e Hpath).
      destruct (subprocess_run _ (ed_text e)) as [rc out err| |err];
        cbn [reconcile_due run_stdout];
        try (apply only_reports_after_reads; reflexivity).
      destruct (fix_accepts rc); cbn [andb];
        [|apply only_reports_after_reads; reflexivity].
      destruct (syntax_error_in err); cbn [andb negb];
        [apply only_reports_after_reads; reflexivity|].
      destruct (truthy out && negb (text_eqb out (ed_text e)));
        [|apply only_reports_after_reads; reflexivity].
      rewrite run_bind. reflexivity.
    + rewrite (format_file_run linter subprocess_run path e Hpath).
      destruct (subprocess_run _ (ed_text e)) as [rc out err| |err];
        cbn [reconcile_due run_stdout];
        try (apply only_reports_after_reads; reflexivity).
      destruct (format_accepts rc); cbn [andb negb].
      * destruct (truthy out && negb (text_eqb out (ed_text e)));
          [|apply only_reports_after_reads; reflexivity].
        rewrite run_bind. reflexivity.
      * destruct (syntax_error_in err);
          apply only_reports_after_reads; reflexivity.
  - split.
    + unfold _fix_file. rewrite Hpath. apply only_reports_direct. reflexivity.
    + unfold format_file. rewrite Hpath.
      apply only_reports_direct. reflexivity.
Qed.

(** A fix run that ends with return code 2 shows the error and leaves the
    buffer alone; a format run that returns another text is applied. *)
Example format_applies_output :
  ed_text (run (format_file (mkLinter (Some (py "ruff")) [] [] (py "30"))
                  (fun _ _ => Completed 0 text_axc []))
             editor_abc) = text_axc.
Proof. reflexivity. Qed.

Example fix_error_leaves_buffer :
  ed_text (run (_fix_file (mkLinter (Some (py "ruff")) [] [] (py "30"))
                  (fun _ _ => Completed 2 text_axc (py "boom")) false)
             editor_abc) = text_abc.
Proof. reflexivity. Qed.

(** ** The matcher gives an edit script *)

Lemma indices_from_spec (x : text) (b : list text) (s j : nat) :
  In j (indices_from x b s) ->
  (s <= j)%nat /\ (j - s < length b)%nat /\ nth (j - s) b [] = x.
Proof.
  revert s; induction b as [|y r IH]; intros s H; simpl in H; [destruct H|].
  destruct (text_eqb x y) eqn:E.
  - destruct H as [<-|H].
    + rewrite Nat.sub_diag. simpl. apply text_eqb_eq in E.
      repeat split; auto; lia.
    + apply IH in H as (H1 & H2 & H3).
      replace (j - s)%nat with (S (j - S s)) by lia. simpl.
      repeat split; auto; lia.
  - apply IH in H as (H1 & H2 & H3).
    replace (j - s)%nat with (S (j - S s)) by lia. simpl.
    repeat split; auto; lia.
Qed.

Lemma b2j_spec (b : list text) (x : text) (j : nat) :
  In j (b2j b x) -> nth j b [] = x.
Proof.
  unfold b2j. destruct (popular b x); [intros []|].
  intros H. apply indices_from_spec in H as (_ & _ & H).
  rewrite Nat.sub_0_r in H. exact H.
Qed.

Lemma j2len_get_ok (P : nat * nat -> Prop) (d : list (nat * nat)) (j : nat) :
  Forall P d -> j2len_get j d = O \/ P (j, j2len_get j d).
Proof.
  induction d as [|[j' k] r IH]; intros H; simpl; [left; reflexivity|].
  inversion H as [|? ? Hjk Hr]; subst.
  destruct (Nat.eqb_spec j j') as [->|Hne]; [right; exact Hjk | auto].
Qed.

Section FindLongestMatch.

Variables a b : list text.
Variables alo ahi blo bhi : nat.

Let prev_ok (i : nat) (d : list (nat * nat)) : Prop :=
  Forall (fun jk => (alo < i)%nat /\ entry_ok a b alo blo bhi (i - 1) jk) d.

Let good (m : Match) : Prop := block_ok a b m /\ block_in alo ahi blo bhi m.

Lemma flm_inner_ok (i : nat) (js : list nat)
    (j2len newj2len : list (nat * nat)) (best : Match) :
  (alo <= i < ahi)%nat ->
  Forall (fun j => (blo <= j < bhi)%nat /\ nth i a [] = nth j b []) js ->
  prev_ok i j2len ->
  Forall (entry_ok a b alo blo bhi i) newj2len ->
  good best ->
  let r := flm_inner i js j2len newj2len best in
  Forall (entry_ok a b alo blo bhi i) (fst r) /\ good (snd r).
Proof.
  intros Hi Hjs Hprev. revert newj2len best.
  induction js as [|j r IH]; intros newj2len best Hnew Hbest; simpl.
  - split; assumption.
  - inversion Hjs as [|? ? [Hj Heq] Hr]; subst.
    destruct best as [[besti bestj] bestsize].
    set (k' := match j with O => O | S j' => j2len_get j' j2len end).
    assert (Hentry : entry_ok a b alo blo bhi i (j, S k')).
    { assert (Hk' : k' = O \/
                (exists j', j = S j' /\ (alo < i)%nat
                 /\ entry_ok a b alo blo bhi (i - 1) (j', k'))).
      { subst k'. destruct j as [|j']; [left; reflexivity|].
        destruct (j2len_get_ok _ j2len j' Hprev) as [H0|[H1 H2]];
          [left; exact H0 | right; exists j'; auto]. }
      destruct Hk' as [->|(j' & -> & Hlt & (Hb & Hm))].
      - split; [lia|]. intros t Ht. replace t with O by lia.
        rewrite !Nat.sub_0_r. exact Heq.
      - split; [lia|]. intros [|t] Ht.
        + rewrite !Nat.sub_0_r. exact Heq.
        + replace (i - S t)%nat with (i - 1 - t)%nat by lia.
          replace (S j' - S t)%nat with (j' - t)%nat by lia.
          apply Hm. lia. }
    apply IH; [exact Hr | constructor; assumption |].
    destruct (Nat.ltb_spec bestsize (S k')); [|exact Hbest].
    destruct Hentry as [Hb Hm]. split.
    + intros t Ht.
      replace (i + 1 - S k' + t)%nat with (i - (k' - t))%nat by lia.
      replace (j + 1 - S k' + t)%nat with (j - (k' - t))%nat by lia.
      apply Hm. lia.
    + unfold block_in. lia.
Qed.

Lemma flm_outer_ok (n s : nat) (j2len : list (nat * nat)) (best : Match) :
  (alo <= s)%nat -> (s + n <= ahi)%nat ->
  prev_ok s j2len -> good best ->
  good (flm_outer a b blo bhi (seq s n) j2len best).
Proof.
  revert s j2len best. induction n as [|n IH];
    intros s j2len best Hs Hn Hprev Hbest; simpl; [exact Hbest|].
  set (js := filter _ _).
  assert (Hjs : Forall (fun j => (blo <= j < bhi)%nat
                                 /\ nth s a [] = nth j b []) js).
  { apply Forall_forall. intros j Hj. subst js.
    apply filter_In in Hj as [Hin Hrange].
    apply andb_true_iff in Hrange as [H1 H2].
    apply Nat.leb_le in H1. apply Nat.ltb_lt in H2.
    apply b2j_spec in Hin. split; [lia | symmetry; exact Hin]. }
  pose proof (flm_inner_ok s js j2len [] best ltac:(lia) Hjs Hprev
                (Forall_nil _) Hbest) as Hstep.
  destruct (flm_inner s js j2len [] best) as [newj2len best'].
  cbn [fst snd] in Hstep. destruct Hstep as [Hnew Hbest'].
  apply IH; try lia; [|exact Hbest'].
  unfold prev_ok. apply Forall_forall. intros jk Hjk.
  rewrite Forall_forall in Hnew. specialize (Hnew jk Hjk).
  split; [lia|]. replace (S s - 1)%nat with s by lia. exact Hnew.
Qed.

Lemma extend_back_ok (fuel : nat) (m : Match) :
  good m -> good (extend_back fuel a b alo blo m).
Proof.
  revert m; induction fuel as [|f IH]; intros [[i j] k] Hm; simpl;
    [exact Hm|].
  destruct (_ && _ && _) eqn:E; [|exact Hm].
  apply andb_true_iff in E as [E E3]. apply andb_true_iff in E as [E1 E2].
  apply Nat.ltb_lt in E1. apply Nat.ltb_lt in E2. apply text_eqb_eq in E3.
  apply IH. destruct Hm as [Hok Hin]. unfold block_in in Hin. split.
  - intros [|t] Ht.
    + rewrite !Nat.add_0_r. exact E3.
    + replace (i - 1 + S t)%nat with (i + t)%nat by lia.
      replace (j - 1 + S t)%nat with (j + t)%nat by lia.
      apply Hok. lia.
  - unfold block_in. lia.
Qed.

Lemma extend_forth_ok (fuel : nat) (m : Match) :
  good m -> good (extend_forth fuel a b ahi bhi m).
Proof.
  revert m; induction fuel as [|f IH]; intros [[i j] k] Hm; simpl;
    [exact Hm|].
  destruct (_ && _ && _) eqn:E; [|exact Hm].
  apply andb_true_iff in E as [E E3]. apply andb_true_iff in E as [E1 E2].
  apply Nat.ltb_lt in E1. apply Nat.ltb_lt in E2. apply text_eqb_eq in E3.
  apply IH. destruct Hm as [Hok Hin]. unfold block_in in Hin. split.
  - intros t Ht. destruct (Nat.eq_dec t k) as [->|Hne].
    + exact E3.
    + apply Hok. lia.
  - unfold block_in. lia.
Qed.

(** The longest match found is a matching block inside the ranges. *)
Lemma find_longest_match_ok :
  (alo <= ahi)%nat -> (blo <= bhi)%nat ->
  block_ok a b (find_longest_match a b alo ahi blo bhi)
  /\ block_in alo ahi blo bhi (find_longest_match a b alo ahi blo bhi).
Proof.
  intros Ha Hb. unfold find_longest_match.
  apply extend_forth_ok, extend_back_ok, flm_outer_ok; try lia.
  - constructor.
  - split; [intros t Ht; lia | unfold block_in; lia].
Qed.

End FindLongestMatch.

Lemma chain_weaken (a b : list text) (ms : list Match)
    (alo blo alo' blo' ahi bhi : nat) :
  (alo' <= alo)%nat -> (blo' <= blo)%nat ->
  chain a b alo blo ms ahi bhi -> chain a b alo' blo' ms ahi bhi.
Proof.
  intros Ha Hb H. destruct ms as [|[[i j] k] r]; simpl in *.
  - lia.
  - destruct H as (Hlo & Hok & Hr).
    split; [lia|]. split; [exact Hok | exact Hr].
Qed.

Lemma chain_app (a b : list text) (ms1 ms2 : list Match)
    (alo blo mi mj ahi bhi : nat) :
  chain a b alo blo ms1 mi mj -> chain a b mi mj ms2 ahi bhi ->
  chain a b alo blo (ms1 ++ ms2) ahi bhi.
Proof.
  revert alo blo. induction ms1 as [|[[i j] k] r IH]; intros alo blo H1 H2.
  - simpl in H1. simpl app.
    apply chain_weaken with (alo := mi) (blo := mj); [lia | lia | exact H2].
  - simpl in H1. destruct H1 as (Hb & Hok & Hr).
    simpl. split; [exact Hb|]. split; [exact Hok|].
    apply IH; assumption.
Qed.

Lemma matching_blocks_in_chain (a b : list text) (fuel : nat)
    (alo ahi blo bhi : nat) :
  (alo <= ahi)%nat -> (blo <= bhi)%nat ->
  chain a b alo blo (matching_blocks_in fuel a b alo ahi blo bhi) ahi bhi.
Proof.
  revert alo ahi blo bhi. induction fuel as [|f IH];
    intros alo ahi blo bhi Ha Hb; [simpl; lia|].
  simpl matching_blocks_in.
  destruct (find_longest_match_ok a b alo ahi blo bhi Ha Hb) as [Hok Hin].
  destruct (find_longest_match a b alo ahi blo bhi) as [[i j] k].
  unfold block_in in Hin.
  destruct (Nat.eqb_spec k 0) as [Hk|Hk]; [simpl; lia|].
  apply chain_app with (mi := i) (mj := j).
  - destruct ((alo <? i) && (blo <? j))%nat; [apply IH; lia | simpl; lia].
  - change (chain a b i j
              ((i, j, k) ::
               (if ((i + k <? ahi) && (j + k <? bhi))%nat
                then matching_blocks_in f a b (i + k) ahi (j + k) bhi
                else [])) ahi bhi).
    cbn [chain]. split; [lia|]. split; [exact Hok|].
    destruct ((i + k <? ahi) && (j + k <? bhi))%nat;
      [apply IH; lia | simpl; lia].
Qed.

Lemma collapse_chain (a b : list text) (ms : list Match)
    (i1 j1 k1 ahi bhi : nat) :
  block_ok a b (i1, j1, k1) ->
  chain a b (i1 + k1) (j1 + k1) ms ahi bhi ->
  chain a b i1 j1 (collapse (i1, j1, k1) ms) ahi bhi.
Proof.
  revert i1 j1 k1. induction ms as [|[[i2 j2] k2] r IH];
    intros i1 j1 k1 Hok H.
  - simpl in H. simpl collapse.
    destruct (Nat.eqb_spec k1 0); cbn [chain]; [lia|].
    split; [lia|]. split; [exact Hok | lia].
  - cbn [chain] in H. destruct H as (Hb & Hok2 & Hr).
    cbn [collapse].
    destruct ((i1 + k1 =? i2) && (j1 + k1 =? j2))%nat eqn:E.
    + apply andb_true_iff in E as [E1 E2].
      apply Nat.eqb_eq in E1. apply Nat.eqb_eq in E2.
      apply IH.
      * intros t Ht. destruct (Nat.lt_ge_cases t k1) as [Hlt|Hge].
        -- apply Hok. exact Hlt.
        -- replace (i1 + t)%nat with (i2 + (t - k1))%nat by lia.
           replace (j1 + t)%nat with (j2 + (t - k1))%nat by lia.
           apply Hok2. lia.
      * replace (i1 + (k1 + k2))%nat with (i2 + k2)%nat by lia.
        replace (j1 + (k1 + k2))%nat with (j2 + k2)%nat by lia. exact Hr.
    + assert (Hrest : chain a b (i1 + k1) (j1 + k1)
                        (collapse (i2, j2, k2) r) ahi bhi).
      { apply chain_weaken with (alo := i2) (blo := j2); try lia.
        apply IH; assumption. }
      destruct (Nat.eqb_spec k1 0) as [Hk|Hk].
      * simpl app.
        apply chain_weaken with (alo := (i1 + k1)%nat) (blo := (j1 + k1)%nat);
          [lia | lia | exact Hrest].
      * change (chain a b i1 j1
                  ((i1, j1, k1) :: collapse (i2, j2, k2) r) ahi bhi).
        cbn [chain]. split; [lia|]. split; [exact Hok | exact Hrest].
Qed.

Lemma get_matching_blocks_chain (a b : list text) :
  chain a b 0 0 (get_matching_blocks a b) (length a) (length b).
Proof.
  unfold get_matching_blocks.
  apply chain_app with (mi := length a) (mj := length b).
  - apply (collapse_chain a b _ 0 0 0).
    + intros t Ht. lia.
    + apply matching_blocks_in_chain; lia.
  - cbn [chain]. split; [lia|]. split; [intros t Ht; lia | lia].
Qed.

Lemma chain_bounds (a b : list text) (ms : list Match)
    (alo blo ahi bhi : nat) :
  chain a b alo blo ms ahi bhi -> (alo <= ahi /\ blo <= bhi)%nat.
Proof.
  revert alo blo. induction ms as [|[[i j] k] r IH]; intros alo blo H;
    cbn [chain] in H; [exact H|].
  destruct H as (Hb & _ & Hr). apply IH in Hr. lia.
Qed.

Lemma slice_ext (a b : list text) (i j k : nat) :
  (i + k <= length a)%nat -> (j + k <= length b)%nat ->
  (forall t, (t < k)%nat -> nth (i + t) a [] = nth (j + t) b []) ->
  slice a i (i + k) = slice b j (j + k).
Proof.
  intros Ha Hb H.
  apply nth_ext with (d := []) (d' := []).
  - rewrite !length_slice by assumption. lia.
  - intros n Hn. rewrite length_slice in Hn by assumption.
    unfold slice. rewrite !nth_firstn, !nth_skipn.
    replace (i + k - i)%nat with k by lia.
    replace (j + k - j)%nat with k by lia.
    destruct (Nat.ltb_spec n k); [apply H; lia | reflexivity].
Qed.

(** The operation for the gap before a block, if any, is an operation of
    a script. *)
Lemma gap_valid (a b : list text) (i j ai bj : nat) (ops : list Opcode) :
  (i <= ai)%nat -> (j <= bj)%nat ->
  valid_script a b ai bj ops ->
  valid_script a b i j
    ((if (i <? ai) && (j <? bj) then [mkOp tag_replace i ai j bj]
      else if (i <? ai) then [mkOp tag_delete i ai j bj]
      else if (j <? bj) then [mkOp tag_insert i ai j bj]
      else [])%nat ++ ops).
Proof.
  intros Hi Hj H.
  destruct (Nat.ltb_spec i ai), (Nat.ltb_spec j bj); cbn [andb app];
    try (cbn [valid_script op_i1 op_i2 op_j1 op_j2 op_tag];
         repeat (split; [reflexivity || lia || exact I|]); exact H).
  replace i with ai by lia. replace j with bj by lia. exact H.
Qed.

Lemma opcodes_from_valid (a b : list text) (ms : list Match) (i j : nat) :
  chain a b i j (ms ++ [(length a, length b, O)]) (length a) (length b) ->
  valid_script a b i j (opcodes_from i j (ms ++ [(length a, length b, O)])).
Proof.
  revert i j. induction ms as [|[[ai bj] size] r IH]; intros i j H.
  - cbn [app chain] in H. destruct H as ((Hi & Hj) & _ & _).
    cbn [app opcodes_from]. rewrite Nat.eqb_refl.
    apply gap_valid; [exact Hi | exact Hj |].
    simpl. split; reflexivity.
  - change (((ai, bj, size) :: r) ++ [(length a, length b, O)])
      with ((ai, bj, size) :: (r ++ [(length a, length b, O)])) in *.
    cbn [chain] in H. destruct H as ((Hi & Hj) & Hok & Hr).
    destruct (chain_bounds _ _ _ _ _ _ _ Hr) as [Ha Hb].
    specialize (IH _ _ Hr).
    cbn [opcodes_from].
    apply gap_valid; [exact Hi | exact Hj |].
    destruct (Nat.eqb_spec size 0) as [->|Hs].
    + rewrite !Nat.add_0_r in IH. rewrite !Nat.add_0_r. exact IH.
    + cbn [app valid_script op_i1 op_i2 op_j1 op_j2 op_tag].
      split; [reflexivity|]. split; [reflexivity|].
      split; [lia|]. split; [lia|].
      split; [apply slice_ext; assumption | exact IH].
Qed.

(** The opcodes of the matcher are an edit script from [a] to [b]. *)
Lemma get_opcodes_valid (a b : list text) :
  valid_script a b 0 0 (get_opcodes a b).
Proof.
  unfold get_opcodes. pose proof (get_matching_blocks_chain a b) as H.
  unfold get_matching_blocks in *. apply opcodes_from_valid. exact H.
Qed.

Lemma valid_script_in_range (a b : list text) (ops : list Opcode) (i j : nat)
    (rows : nat) :
  valid_script a b i j ops -> (length a < rows)%nat ->
  calls_in_range rows ops.
Proof.
  revert i j. induction ops as [|op r IH]; intros i j H Hrows;
    [constructor|].
  simpl in H. destruct H as (_ & _ & _ & _ & _ & Hr).
  destruct (valid_script_bounds _ _ _ _ _ Hr) as [Hi2 _].
  constructor; [right; lia | exact (IH _ _ Hr Hrows)].
Qed.

(** ** Python lines and editor rows *)

Lemma is_linebreak_LF : is_linebreak LF = true.
Proof. reflexivity. Qed.

Lemma splitlines_from_lf_free (n : nat) (s cur : text) :
  (length s <= n)%nat -> lf_free cur ->
  Forall lf_free (splitlines_from cur s).
Proof.
  revert s cur. induction n as [|n IH]; intros s cur Hn Hcur.
  - destruct s; [|simpl in Hn; lia]. simpl.
    destruct cur; constructor; [exact Hcur | constructor].
  - destruct s as [|c rest]; simpl.
    + destruct cur; constructor; [exact Hcur | constructor].
    + simpl in Hn. destruct (is_linebreak c) eqn:Ec.
      * assert (Hnil : lf_free []) by (intros []).
        destruct rest as [|d rest'].
        -- constructor; [exact Hcur | apply IH; [simpl; lia | exact Hnil]].
        -- destruct (N.eqb c CR && N.eqb d LF);
             (constructor;
              [exact Hcur | apply IH; [simpl in *; lia | exact Hnil]]).
      * apply IH; [lia|]. intros Hin.
        apply in_app_or in Hin as [Hin|[Hc|[]]]; [exact (Hcur Hin)|].
        rewrite Hc, is_linebreak_LF in Ec. discriminate.
Qed.

(** No line of [splitlines] holds an LF. *)
Lemma splitlines_lf_free (s : text) : Forall lf_free (splitlines s).
Proof.
  apply (splitlines_from_lf_free (length s)); [lia | intros []].
Qed.

(** For a text that ends with LF and has no other line boundary, the rows
    of the editor are the Python lines and one empty row. *)
Lemma split_lf_from_splitlines (t cur : text) :
  lf_only t = true ->
  split_lf_from cur (t ++ [LF]) = splitlines_from cur (t ++ [LF]) ++ [[]].
Proof.
  revert cur. induction t as [|c rest IH]; intros cur H.
  - reflexivity.
  - simpl in H. apply andb_true_iff in H as [Hc Hrest].
    change ((c :: rest) ++ [LF]) with (c :: (rest ++ [LF])).
    cbn [split_lf_from splitlines_from].
    destruct (N.eqb c LF) eqn:Elf.
    + apply N.eqb_eq in Elf. subst c. rewrite is_linebreak_LF.
      change (N.eqb LF CR) with false. cbn [andb].
      rewrite IH by exact Hrest.
      destruct (rest ++ [LF]); reflexivity.
    + rewrite orb_false_r in Hc. apply negb_true_iff in Hc. rewrite Hc.
      apply IH. exact Hrest.
Qed.

Lemma endswith_lf_inv (t : text) :
  endswith_lf t = true -> exists t', t = t' ++ [LF].
Proof.
  unfold endswith_lf. intros H.
  destruct (rev t) as [|c r] eqn:E; [discriminate|].
  apply N.eqb_eq in H. subst c. exists (rev r).
  rewrite <- (rev_involutive t), E. reflexivity.
Qed.

Lemma split_lf_splitlines (t : text) :
  lf_only t = true -> endswith_lf t = true ->
  split_lf t = splitlines t ++ [[]].
Proof.
  intros Hlf Hend. apply endswith_lf_inv in Hend as [t' ->].
  unfold lf_only in Hlf. rewrite forallb_app in Hlf.
  apply andb_true_iff in Hlf as [Hlf _].
  apply split_lf_from_splitlines. exact Hlf.
Qed.

(** The general path on the texts it is written for: the document is
    [old_text], both texts end with LF and have no other line boundary.
    After the opcode loop the document is exactly [new_text]. *)
Lemma general_path_loop_content (old_text new_text : text) (e : Editor) :
  lf_only old_text = true -> lf_only new_text = true ->
  endswith_lf old_text = true -> endswith_lf new_text = true ->
  ed_text e = old_text ->
  ed_text (after_opcodes old_text new_text e) = new_text.
Proof.
  intros Hlo Hln Heo Hen Hdoc.
  assert (Hlines : ed_lines (after_opcodes old_text new_text e)
                   = splitlines new_text ++ [[]]).
  { unfold after_opcodes.
    apply apply_opcodes_lines
      with (a := splitlines old_text) (i := O) (j := O).
    - apply get_opcodes_valid.
    - apply splitlines_lf_free.
    - apply valid_script_in_range
        with (a := splitlines old_text) (b := splitlines new_text)
             (i := O) (j := O);
        [apply get_opcodes_valid | simpl; lia].
    - change (ed_lines (logged GetCarets e)) with (split_lf (ed_text e)).
      rewrite Hdoc. apply split_lf_splitlines; assumption.
    - reflexivity. }
  rewrite <- (join_split_lf (ed_text (after_opcodes old_text new_text e))).
  fold (ed_lines (after_opcodes old_text new_text e)).
  rewrite Hlines, <- split_lf_splitlines by assumption.
  apply join_split_lf.
Qed.

(** On those texts, when the line counts differ, the run ends with
    [new_text] and one more LF. *)
Lemma general_path_extra_newline (old_text new_text : text) (e : Editor) :
  lf_only old_text = true -> lf_only new_text = true ->
  endswith_lf old_text = true -> endswith_lf new_text = true ->
  ed_text e = old_text ->
  length (splitlines old_text) <> length (splitlines new_text) ->
  ed_text (run (_apply_changes_preserving_states old_text new_text) e)
  = new_text ++ [LF].
Proof.
  intros Hlo Hln Heo Hen Hdoc Hlen.
  assert (Hne : text_eqb old_text new_text = false).
  { apply text_eqb_neq. intros ->. apply Hlen. reflexivity. }
  rewrite slow_path_content_lf by assumption.
  rewrite general_path_loop_content by assumption. reflexivity.
Qed.

(** * Further properties *)

(** ** Rule codes *)

Lemma forallb_rev {A} (p : A -> bool) (l : list A) :
  forallb p (rev l) = forallb p l.
Proof.
  induction l as [|x r IH]; [reflexivity|].
  simpl. rewrite forallb_app, IH. simpl. rewrite andb_true_r.
  apply andb_comm.
Qed.

Lemma digits_to_end_shape (dec : char -> bool) (r : text) :
  digits_to_end dec r = true <->
  exists digits nl, r = digits ++ nl /\ forallb dec digits = true
                    /\ (nl = [] \/ nl = [LF]).
Proof.
  unfold digits_to_end. split.
  - intros H. apply orb_true_iff in H as [H|H].
    + exists r, []. rewrite app_nil_r. auto.
    + destruct (rev r) as [|c d] eqn:E; [discriminate|].
      apply andb_true_iff in H as [Hc Hd]. apply N.eqb_eq in Hc. subst c.
      exists (rev d), [LF]. rewrite forallb_rev.
      split; [|split; [exact Hd | right; reflexivity]].
      rewrite <- (rev_involutive r), E. reflexivity.
  - intros (digits & nl & -> & Hd & [->| ->]).
    + rewrite app_nil_r, Hd. reflexivity.
    + rewrite rev_unit, forallb_rev, Hd. simpl. apply orb_true_r.
Qed.

Lemma code_alternative_shape (dec : char -> bool) (code : text) :
  code_alternative dec code = true <-> rule_code_shape dec code.
Proof.
  unfold code_alternative, rule_code_shape. rewrite existsb_exists. split.
  - intros (k & Hk & H).
    apply andb_true_iff in H as [H Hrest].
    apply andb_true_iff in H as [Hlen Hup].
    apply Nat.leb_le in Hlen.
    apply digits_to_end_shape in Hrest as (digits & nl & Hr & Hd & Hnl).
    exists (firstn k code), digits, nl.
    rewrite <- Hr, firstn_skipn, length_firstn.
    repeat split; auto;
      simpl in Hk; decompose [or] Hk; subst; try contradiction; lia.
  - intros (letters & digits & nl & -> & Hlen & Hup & Hd & Hnl).
    exists (length letters). split.
    + simpl. lia.
    + rewrite firstn_length_app, skipn_length_app, Hup.
      rewrite length_app.
      replace (length letters <=? length letters + length (digits ++ nl))%nat
        with true by (symmetry; apply Nat.leb_le; lia).
      apply digits_to_end_shape. exists digits, nl. auto.
Qed.

Lemma all_alternative_covered (dec : char -> bool) (code : text) :
  all_alternative code = true -> code_alternative dec code = true.
Proof.
  unfold all_alternative. intros H. apply code_alternative_shape.
  apply orb_true_iff in H as [H|H]; apply text_eqb_eq in H; subst code.
  - exists (py "ALL"), [], []. repeat split; auto; simpl; lia.
  - exists (py "ALL"), [], [LF]. repeat split; auto; simpl; lia.
Qed.

Lemma valid_code_shape (dec : char -> bool) (code : text) :
  _validate_rule_code dec code = true <-> rule_code_shape dec code.
Proof.
  rewrite <- code_alternative_shape. unfold _validate_rule_code. split.
  - intros H. apply orb_true_iff in H as [H|H];
      [exact H | exact (all_alternative_covered dec code H)].
  - intros H. rewrite H. reflexivity.
Qed.

(** X1: a rule code is accepted exactly when it is one to four letters
    A-Z, then any number of decimal digits, then nothing or one final LF
    (which [$] lets pass). The alternative [^ALL$] of the pattern accepts
    nothing the first alternative does not. *)
Theorem rule_code_accepted_iff (dec : char -> bool) (code : text) :
  (_validate_rule_code dec code = true <-> rule_code_shape dec code)
  /\ _validate_rule_code dec code = code_alternative dec code.
Proof.
  split; [apply valid_code_shape|].
  unfold _validate_rule_code.
  destruct (code_alternative dec code) eqn:E; [reflexivity|].
  destruct (all_alternative code) eqn:E2; [|reflexivity].
  rewrite (all_alternative_covered dec code E2) in E. discriminate.
Qed.

(** An accepted code begins with a capital letter. *)
Lemma valid_code_head (dec : char -> bool) (code : text) :
  _validate_rule_code dec code = true ->
  exists c r, code = c :: r /\ is_upper c = true.
Proof.
  intros H. apply valid_code_shape in H.
  destruct H as (letters & digits & nl & -> & Hlen & Hup & _).
  destruct letters as [|c r]; [simpl in Hlen; lia|].
  simpl in Hup. apply andb_true_iff in Hup as [Hc _].
  exists c, (r ++ digits ++ nl). split; [reflexivity | exact Hc].
Qed.

Example rule_codes_samples :
  map (_validate_rule_code is_ascii_digit)
      [py "E501"; py "C90"; py "ALL"; py "E"; py "E501" ++ [LF];
       py "e501"; py "ASYNC"; py "E 501"; py "501"; []]
  = [true; true; true; true; true; false; false; false; false; false].
Proof. reflexivity. Qed.

(** ** The configuration *)

Lemma filter_valid_all (dec : char -> bool) (codes : list JSON) :
  Forall (fun c => _validate_rule_code dec c = true)
         (_filter_valid_codes dec codes).
Proof.
  induction codes as [|c r IH]; simpl; [constructor|].
  destruct c; try exact IH.
  destruct (_validate_rule_code dec s) eqn:E; [constructor; assumption|].
  exact IH.
Qed.

Lemma filter_valid_fixed (dec : char -> bool) (l : list text) :
  Forall (fun c => _validate_rule_code dec c = true) l ->
  _filter_valid_codes dec (map JStr l) = l.
Proof.
  induction 1 as [|c r Hc Hr IH]; simpl; [reflexivity|].
  rewrite Hc, IH. reflexivity.
Qed.

Lemma default_timeout_ok :
  is_number DEFAULT_TIMEOUT = true /\ le_zero DEFAULT_TIMEOUT = false.
Proof. split; reflexivity. Qed.

(** What [_parse_and_validate_config] returns has well-formed codes only
    and a timeout that is a number and not [<= 0]. *)
Lemma parsed_config_ok (dec : char -> bool) (json_loads : text -> JsonResult)
    (content : text) (c : Config) :
  _parse_and_validate_config dec json_loads content = Returned c ->
  Forall (fun s => _validate_rule_code dec s = true) (cfg_ignore c)
  /\ Forall (fun s => _validate_rule_code dec s = true) (cfg_select c)
  /\ is_number (cfg_timeout c) = true
  /\ le_zero (cfg_timeout c) = false.
Proof.
  assert (Hno : Forall (fun s => _validate_rule_code dec s = true)
                       (cfg_ignore no_config)
                /\ Forall (fun s => _validate_rule_code dec s = true)
                          (cfg_select no_config)
                /\ is_number (cfg_timeout no_config) = true
                /\ le_zero (cfg_timeout no_config) = false)
    by (repeat split; constructor).
  unfold _parse_and_validate_config. intros H.
  destruct (json_loads content) as [v| |];
    [|injection H as <-; exact Hno | discriminate H].
  destruct v; try (injection H as <-; exact Hno).
  set (t := dict_get items (py "timeout") DEFAULT_TIMEOUT) in H.
  cbv zeta in H. injection H as <-.
  cbn [cfg_ignore cfg_select cfg_timeout].
  split; [apply filter_valid_all|]. split; [apply filter_valid_all|].
  destruct (is_number t) eqn:En; cbn [negb orb]; [|split; reflexivity].
  destruct (le_zero t) eqn:El; [split; reflexivity | split; assumption].
Qed.

(** [_parse_and_validate_config] is left by an exception exactly when
    [json.loads] raises one that is not a [JSONDecodeError]. *)
Lemma parse_raises (dec : char -> bool) (json_loads : text -> JsonResult)
    (content : text) :
  _parse_and_validate_config dec json_loads content = Escaped
  <-> json_loads content = OtherException.
Proof.
  unfold _parse_and_validate_config.
  destruct (json_loads content) as [v| |].
  - destruct v; split; discriminate.
  - split; discriminate.
  - split; reflexivity.
Qed.

Lemma loaded_config_ok (dec : char -> bool) (isfile : bool)
    (utf8 fallback : FileRead) (json_loads : text -> JsonResult)
    (c : Config) :
  _load_config dec isfile utf8 fallback json_loads = Returned c ->
  Forall (fun s => _validate_rule_code dec s = true) (cfg_ignore c)
  /\ Forall (fun s => _validate_rule_code dec s = true) (cfg_select c)
  /\ is_number (cfg_timeout c) = true
  /\ le_zero (cfg_timeout c) = false.
Proof.
  assert (Hno : Forall (fun s => _validate_rule_code dec s = true)
                       (cfg_ignore no_config)
                /\ Forall (fun s => _validate_rule_code dec s = true)
                          (cfg_select no_config)
                /\ is_number (cfg_timeout no_config) = true
                /\ le_zero (cfg_timeout no_config) = false)
    by (repeat split; constructor).
  unfold _load_config.
  destruct isfile; cbn [negb]; [|intros H; injection H as <-; exact Hno].
  destruct (_read_config_file utf8 fallback) as [content|];
    [|intros H; injection H as <-; exact Hno].
  destruct (truthy content); cbn [negb];
    [|intros H; injection H as <-; exact Hno].
  apply parsed_config_ok.
Qed.

Lemma load_raises (dec : char -> bool) (isfile : bool)
    (utf8 fallback : FileRead) (json_loads : text -> JsonResult) :
  _load_config dec isfile utf8 fallback json_loads = Escaped ->
  isfile = true
  /\ exists content,
       _read_config_file utf8 fallback = Some content
       /\ truthy content = true
       /\ json_loads content = OtherException.
Proof.
  unfold _load_config.
  destruct isfile; cbn [negb]; [|discriminate].
  destruct (_read_config_file utf8 fallback) as [content|]; [|discriminate].
  destruct (truthy content) eqn:Et; cbn [negb]; [|discriminate].
  intros H. apply parse_raises in H.
  split; [reflexivity|]. exists content. repeat split; assumption.
Qed.

(** X2: a configuration [_load_config] returns, whatever the file holds,
    has only well-formed rule codes in [ignore] and [select] (entries that
    are not strings or not well formed are dropped), and its timeout is a
    number that is not [<= 0]: the configured one, or the default 30. The
    one way it returns none: the file exists, its content was read and is
    not empty, and [json.loads] raises on it an exception that is not a
    [JSONDecodeError], which no handler catches. *)
Theorem loaded_config_is_valid (dec : char -> bool) (isfile : bool)
    (utf8 fallback : FileRead) (json_loads : text -> JsonResult) :
  match _load_config dec isfile utf8 fallback json_loads with
  | Returned c =>
      Forall (fun s => rule_code_shape dec s) (cfg_ignore c)
      /\ Forall (fun s => rule_code_shape dec s) (cfg_select c)
      /\ is_number (cfg_timeout c) = true
      /\ le_zero (cfg_timeout c) = false
  | Escaped =>
      isfile = true
      /\ exists content,
           _read_config_file utf8 fallback = Some content
           /\ truthy content = true
           /\ json_loads content = OtherException
  end.
Proof.
  destruct (_load_config dec isfile utf8 fallback json_loads) as [c|] eqn:E.
  - destruct (loaded_config_ok dec isfile utf8 fallback json_loads c E)
      as (Hi & Hs & Hn & Hl).
    repeat split; try assumption;
      (eapply Forall_impl; [|eassumption]);
      intros s Hv; apply valid_code_shape; exact Hv.
  - exact (load_raises dec isfile utf8 fallback json_loads E).
Qed.

(** X3: a configuration that came out of the validation passes it
    unchanged: loading the JSON object with the validated [ignore],
    [select] and [timeout] gives the same configuration again. *)
Theorem validated_config_round_trip (dec : char -> bool)
    (json_loads : text -> JsonResult) (content content' : text)
    (c : Config) :
  _parse_and_validate_config dec json_loads content = Returned c ->
  _parse_and_validate_config dec (fun _ => Loaded (config_json c)) content'
  = Returned c.
Proof.
  intros Hc.
  destruct (parsed_config_ok dec json_loads content c Hc)
    as (Hi & Hs & Hn & Hl).
  unfold _parse_and_validate_config. unfold config_json.
  cbn [dict_get list_or_empty].
  change (text_eqb (py "ignore") (py "ignore")) with true.
  change (text_eqb (py "ignore") (py "select")) with false.
  change (text_eqb (py "select") (py "select")) with true.
  change (text_eqb (py "ignore") (py "timeout")) with false.
  change (text_eqb (py "select") (py "timeout")) with false.
  change (text_eqb (py "timeout") (py "timeout")) with true.
  cbv iota. cbn [list_or_empty].
  rewrite !filter_valid_fixed by assumption.
  rewrite Hn, Hl. cbn [negb orb]. destruct c; reflexivity.
Qed.

Lemma validated_config_round_trip_witness :
  _parse_and_validate_config is_ascii_digit
    (fun _ => Loaded (JDict [(py "select", JList [JStr (py "E"); JInt 7;
                                                   JStr (py "e501")]);
                             (py "timeout", JInt 0)])) []
  = Returned (mkConfig [] [py "E"] DEFAULT_TIMEOUT)
  /\ _parse_and_validate_config is_ascii_digit
       (fun _ => Loaded (config_json (mkConfig [] [py "E"] DEFAULT_TIMEOUT)))
       []
     = Returned (mkConfig [] [py "E"] DEFAULT_TIMEOUT).
Proof.
  split; [reflexivity|].
  exact (validated_config_round_trip is_ascii_digit
           (fun _ => Loaded (JDict [(py "select",
                                     JList [JStr (py "E"); JInt 7;
                                            JStr (py "e501")]);
                                    (py "timeout", JInt 0)]))
           [] [] (mkConfig [] [py "E"] DEFAULT_TIMEOUT) eq_refl).
Defined.

Lemma lstrip_spaces (ws s : text) :
  forallb is_space ws = true -> lstrip (ws ++ s) = lstrip s.
Proof.
  induction ws as [|c r IH]; intros H; [reflexivity|].
  simpl in H. apply andb_true_iff in H as [Hc Hr].
  simpl. rewrite Hc. apply IH. exact Hr.
Qed.

Lemma lstrip_keeps_tail (l q : text) (a : char) :
  is_space a = false -> exists l', lstrip (l ++ a :: q) = l' ++ a :: q.
Proof.
  intros Ha. induction l as [|c r IH]; simpl.
  - rewrite Ha. exists []. reflexivity.
  - destruct (is_space c); [exact IH|].
    exists (c :: r). reflexivity.
Qed.

Lemma strip_blank (ws : text) : forallb is_space ws = true -> strip ws = [].
Proof.
  intros H. unfold strip.
  rewrite <- (app_nil_r ws), lstrip_spaces by exact H. reflexivity.
Qed.

Lemma comment_or_blank_dropped (ln : text) :
  comment_or_blank ln -> kept_line ln = false.
Proof.
  intros (ws & rest & Hws & [->|[->| ->]]); unfold kept_line; cbv zeta.
  - rewrite strip_blank by exact Hws. reflexivity.
  - unfold strip. rewrite lstrip_spaces by exact Hws.
    change (lstrip (py "//" ++ rest)) with (47%N :: 47%N :: rest).
    destruct (lstrip_keeps_tail (rev rest) (@cons char 47%N nil) 47%N
                eq_refl) as [l' Hl].
    cbn [rev]. rewrite <- app_assoc. cbn [app]. rewrite Hl.
    rewrite rev_app_distr. simpl. reflexivity.
  - unfold strip. rewrite lstrip_spaces by exact Hws.
    change (lstrip (py "#" ++ rest)) with (35%N :: rest).
    destruct (lstrip_keeps_tail (rev rest) (@nil char) 35%N eq_refl)
      as [l' Hl].
    cbn [rev]. rewrite Hl.
    rewrite rev_app_distr. simpl. reflexivity.
Qed.

Lemma read_lines_drop (before after : list text) (ln : text) :
  kept_line ln = false ->
  read_lines (before ++ ln :: after) = read_lines (before ++ after).
Proof.
  intros H. unfold read_lines. rewrite !filter_app. simpl. rewrite H.
  reflexivity.
Qed.

(** X4: a blank line, or a line whose first characters after the leading
    white space are [//] or [#], does not count wherever it stands in the
    configuration file: with or without it, [_read_config_file] returns the
    same content, on the UTF-8 read and on the fallback read. *)
Theorem comment_lines_ignored (before after : list text) (ln : text)
    (fallback : FileRead) :
  comment_or_blank ln ->
  _read_config_file (FileLines (before ++ ln :: after)) fallback
  = _read_config_file (FileLines (before ++ after)) fallback
  /\ _read_config_file FileUnicodeDecodeError
       (FileLines (before ++ ln :: after))
     = _read_config_file FileUnicodeDecodeError (FileLines (before ++ after)).
Proof.
  intros H. apply comment_or_blank_dropped in H.
  simpl. rewrite (read_lines_drop before after ln H). split; reflexivity.
Qed.

Lemma comment_lines_ignored_witness :
  comment_or_blank (py "  # rules" ++ [LF])
  /\ _read_config_file (FileLines config_lines) FileError
     = _read_config_file
         (FileLines (firstn 2 config_lines ++ skipn 3 config_lines))
         FileError.
Proof.
  assert (H : comment_or_blank (py "  # rules" ++ [LF])).
  { exists (py "  "), (py " rules" ++ [LF]).
    split; [reflexivity | right; right; reflexivity]. }
  split; [exact H|].
  exact (proj1 (comment_lines_ignored (firstn 2 config_lines)
                  (skipn 3 config_lines) (py "  # rules" ++ [LF])
                  FileError H)).
Defined.

(** A comment after a value on the same line is not recognised: the line
    is kept whole. *)
Example trailing_comment_kept :
  kept_line (py "  [1, 2], // both" ++ [LF]) = true.
Proof. reflexivity. Qed.

Example config_lines_read :
  _read_config_file (FileLines config_lines) FileError
  = Some (py "{" ++ [LF] ++ py "  " ++ [34%N] ++ py "select" ++ [34%N]
          ++ py ": [" ++ [34%N] ++ py "E" ++ [34%N] ++ py "]" ++ [LF]
          ++ py "}").
Proof. reflexivity. Qed.

(** X5: [_load_config] returns the configuration without rules and with
    the default timeout when there is no file; when the file cannot be
    read (an exception other than a decoding error, or a failed fallback
    read after a decoding error); when every line of the file is blank or a
    comment; when [json.loads] raises [JSONDecodeError] on the content;
    and when [json.loads] returns a value that is not a dict. Another
    exception of [json.loads] on content that is not empty is not caught:
    then [_load_config] returns nothing. *)
Theorem load_config_falls_back (dec : char -> bool) (utf8 fallback : FileRead)
    (json_loads : text -> JsonResult) :
  _load_config dec false utf8 fallback json_loads = Returned no_config
  /\ _load_config dec true FileError fallback json_loads = Returned no_config
  /\ _load_config dec true FileUnicodeDecodeError FileError json_loads
     = Returned no_config
  /\ _load_config dec true FileUnicodeDecodeError FileUnicodeDecodeError
       json_loads = Returned no_config
  /\ (forall lines,
        Forall comment_or_blank lines ->
        _load_config dec true (FileLines lines) fallback json_loads
        = Returned no_config)
  /\ (forall lines,
        json_loads (read_lines lines) = JSONDecodeError ->
        _load_config dec true (FileLines lines) fallback json_loads
        = Returned no_config)
  /\ (forall lines v,
        json_loads (read_lines lines) = Loaded v ->
        (forall items, v <> JDict items) ->
        _load_config dec true (FileLines lines) fallback json_loads
        = Returned no_config)
  /\ (forall lines,
        truthy (read_lines lines) = true ->
        json_loads (read_lines lines) = OtherException ->
        _load_config dec true (FileLines lines) fallback json_loads
        = Escaped).
Proof.
  split; [reflexivity|]. split; [reflexivity|].
  split; [reflexivity|]. split; [reflexivity|].
  split.
  { intros lines H. unfold _load_config. cbn [negb _read_config_file].
    assert (Hnil : filter kept_line lines = []).
    { induction H as [|ln r Hln Hr IH]; simpl; [reflexivity|].
      rewrite (comment_or_blank_dropped ln Hln). exact IH. }
    unfold read_lines. rewrite Hnil. reflexivity. }
  split.
  { intros lines H. unfold _load_config. cbn [negb _read_config_file].
    destruct (truthy (read_lines lines)); cbn [negb]; [|reflexivity].
    unfold _parse_and_validate_config. rewrite H. reflexivity. }
  split.
  { intros lines v H Hv. unfold _load_config. cbn [negb _read_config_file].
    destruct (truthy (read_lines lines)); cbn [negb]; [|reflexivity].
    unfold _parse_and_validate_config. rewrite H.
    destruct v; try reflexivity. exfalso. eapply Hv. reflexivity. }
  intros lines Ht H. unfold _load_config. cbn [negb _read_config_file].
  rewrite Ht. cbn [negb]. apply parse_raises. exact H.
Qed.

Lemma load_config_falls_back_witness :
  Forall comment_or_blank [py "// nothing here" ++ [LF]; py "  " ++ [LF]]
  /\ _load_config is_ascii_digit true
       (FileLines [py "// nothing here" ++ [LF]; py "  " ++ [LF]])
       FileError (fun _ => Loaded DEFAULT_CONFIG) = Returned no_config.
Proof.
  assert (H : Forall comment_or_blank
                [py "// nothing here" ++ [LF]; py "  " ++ [LF]]).
  { constructor; [|constructor; [|constructor]].
    - exists [], (py " nothing here" ++ [LF]).
      split; [reflexivity | right; left; reflexivity].
    - exists (py "  " ++ [LF]), [].
      split; [reflexivity | left; reflexivity]. }
  split; [exact H|].
  exact (proj1 (proj2 (proj2 (proj2 (proj2
    (load_config_falls_back is_ascii_digit
       (FileLines [py "// nothing here" ++ [LF]; py "  " ++ [LF]])
       FileError (fun _ => Loaded DEFAULT_CONFIG))))))
    [py "// nothing here" ++ [LF]; py "  " ++ [LF]] H).
Defined.

(** ** The linter object *)

Lemma build_cmd_options (path : text) (select_codes ignore_codes : list text) :
  _build_cmd path select_codes ignore_codes
  = [path; py "check"; py "--output-format=concise"]
    ++ rule_options select_codes ignore_codes ++ [py "@"].
Proof.
  unfold _build_cmd, rule_options.
  destruct (truthy select_codes), (truthy ignore_codes); reflexivity.
Qed.

Lemma join_comma_head (codes : list text) (c : char) (r : text)
    (rest : list text) :
  codes = (c :: r) :: rest -> exists t, join_comma codes = c :: t.
Proof.
  intros ->. destruct rest as [|c1 rest]; simpl; eexists; reflexivity.
Qed.

Lemma joined_codes_not_placeholder (codes : list text) :
  truthy codes = true -> Forall upper_headed codes ->
  join_comma codes <> py "@".
Proof.
  intros Ht Hall. destruct codes as [|s rest]; [discriminate|].
  pose proof (Forall_inv Hall) as (c & r & Hs & Hc). subst s.
  destruct rest as [|c1 rest']; simpl; intros H; inversion H; subst;
    discriminate Hc.
Qed.

Lemma rule_options_no_placeholder (select_codes ignore_codes : list text) :
  Forall upper_headed select_codes -> Forall upper_headed ignore_codes ->
  ~ In (py "@") (rule_options select_codes ignore_codes).
Proof.
  intros Hs Hi Hin. unfold rule_options in Hin.
  apply in_app_or in Hin as [Hin|Hin].
  - destruct (truthy select_codes) eqn:E; [|destruct Hin].
    destruct Hin as [H|[H|[]]]; [discriminate H|].
    exact (joined_codes_not_placeholder select_codes E Hs H).
  - destruct (truthy ignore_codes) eqn:E; [|destruct Hin].
    destruct Hin as [H|[H|[]]]; [discriminate H|].
    exact (joined_codes_not_placeholder ignore_codes E Hi H).
Qed.

Lemma valid_codes_upper_headed (dec : char -> bool) (codes : list text) :
  Forall (fun s => _validate_rule_code dec s = true) codes ->
  Forall upper_headed codes.
Proof.
  intros H. eapply Forall_impl; [|exact H].
  intros s Hs. exact (valid_code_head dec s Hs).
Qed.

(** X6: the command of a linter object created with an executable,
    whatever the configuration file holds: the path, [check],
    [--output-format=concise], then the rule options, then the placeholder
    [@] as the last argument. The rule options are never empty (with no
    valid code configured the codes E, F, W, B, I are selected) and none of
    them is the placeholder; [executable] is the path. No object is created
    only when [_load_config] is left by an exception. *)
Theorem linter_command_shape (dec : char -> bool) (path : text)
    (isfile : bool) (utf8 fallback : FileRead)
    (json_loads : text -> JsonResult) :
  match Ruff_init (Some path)
          (_load_config dec isfile utf8 fallback json_loads) with
  | Returned r =>
      let options := rule_options (r_select_codes r) (r_ignore_codes r) in
      r_cmd r = [path; py "check"; py "--output-format=concise"]
                ++ options ++ [py "@"]
      /\ options <> []
      /\ ~ In (py "@") options
      /\ truthy (r_select_codes r) || truthy (r_ignore_codes r) = true
      /\ r_executable r = path
  | Escaped => _load_config dec isfile utf8 fallback json_loads = Escaped
  end.
Proof.
  destruct (_load_config dec isfile utf8 fallback json_loads)
    as [config|] eqn:El; [|reflexivity].
  destruct (loaded_config_ok dec isfile utf8 fallback json_loads config El)
    as (Hi & Hs & _).
  apply valid_codes_upper_headed in Hi.
  apply valid_codes_upper_headed in Hs.
  assert (Hr : exists r,
             Ruff_init (Some path) (Returned config) = Returned r
             /\ r_cmd r
                = _build_cmd path (r_select_codes r) (r_ignore_codes r)
             /\ r_executable r = path
             /\ Forall upper_headed (r_select_codes r)
             /\ Forall upper_headed (r_ignore_codes r)
             /\ truthy (r_select_codes r)
                || truthy (r_ignore_codes r) = true).
  { eexists. split; [reflexivity|].
    cbn [r_cmd r_executable r_select_codes r_ignore_codes].
    split; [reflexivity|]. split; [reflexivity|].
    destruct (truthy (cfg_ignore config)) eqn:Ei;
      destruct (truthy (cfg_select config)) eqn:Es; cbn [negb andb].
    - rewrite Es. repeat split; assumption.
    - rewrite Ei, Es. repeat split; assumption.
    - rewrite Es. repeat split; assumption.
    - split; [|split; [constructor | reflexivity]].
      repeat (constructor; [eexists _, _; split; reflexivity|]).
      constructor. }
  destruct Hr as (r & -> & Hcmd & Hexe & Hsel & Hign & Hne).
  cbv beta iota. intros options.
  split; [rewrite Hcmd; apply build_cmd_options|]. split; [|split; [|split]].
  - subst options. unfold rule_options. intros H.
    apply app_eq_nil in H as [H1 H2].
    apply orb_true_iff in Hne as [E|E]; rewrite E in *; discriminate.
  - apply rule_options_no_placeholder; assumption.
  - exact Hne.
  - exact Hexe.
Qed.

Lemma letters_digits_valid (dec : char -> bool) (letters digits : text) :
  (forall c, is_ascii_digit c = true -> dec c = true) ->
  ((1 <=? length letters) && (length letters <=? 4))%nat = true ->
  forallb is_upper letters = true ->
  forallb is_ascii_digit digits = true ->
  _validate_rule_code dec (letters ++ digits) = true.
Proof.
  intros Hdec Hlen Hup Hd. apply valid_code_shape.
  apply andb_true_iff in Hlen as [H1 H4].
  apply Nat.leb_le in H1. apply Nat.leb_le in H4.
  exists letters, digits, []. rewrite app_nil_r.
  split; [reflexivity|]. split; [lia|]. split; [exact Hup|].
  split; [|left; reflexivity].
  apply forallb_forall. intros c Hc. apply Hdec.
  rewrite forallb_forall in Hd. exact (Hd c Hc).
Qed.

Lemma default_config_codes_valid (dec : char -> bool) :
  (forall c, is_ascii_digit c = true -> dec c = true) ->
  Forall (fun s => _validate_rule_code dec s = true)
         (cfg_ignore default_config ++ cfg_select default_config).
Proof.
  intros Hdec. simpl.
  apply Forall_cons;
    [exact (letters_digits_valid dec (py "E") (py "501") Hdec
              eq_refl eq_refl eq_refl)|].
  apply Forall_cons;
    [exact (letters_digits_valid dec (py "W") (py "191") Hdec
              eq_refl eq_refl eq_refl)|].
  apply Forall_cons;
    [exact (letters_digits_valid dec (py "E") (py "111") Hdec
              eq_refl eq_refl eq_refl)|].
  apply Forall_cons;
    [exact (letters_digits_valid dec (py "E") [] Hdec
              eq_refl eq_refl eq_refl)|].
  apply Forall_cons;
    [exact (letters_digits_valid dec (py "W") [] Hdec
              eq_refl eq_refl eq_refl)|].
  apply Forall_cons;
    [exact (letters_digits_valid dec (py "F") [] Hdec
              eq_refl eq_refl eq_refl)|].
  apply Forall_cons;
    [exact (letters_digits_valid dec (py "B") [] Hdec
              eq_refl eq_refl eq_refl)|].
  apply Forall_cons;
    [exact (letters_digits_valid dec (py "I") [] Hdec
              eq_refl eq_refl eq_refl)|].
  apply Forall_nil.
Qed.

(** X7: the configuration the plugin itself writes
    ([Command.DEFAULT_CONFIG]) passes the validation whole, with any digit
    class that holds the ASCII digits: three ignored codes, five selected
    codes, timeout 30; and a linter object created from it has the command
    [path check --output-format=concise --select E,W,F,B,I
     --ignore E501,W191,E111 @]. *)
Theorem default_config_accepted (dec : char -> bool) (content path : text) :
  (forall c, is_ascii_digit c = true -> dec c = true) ->
  _parse_and_validate_config dec (fun _ => Loaded DEFAULT_CONFIG) content
  = Returned default_config
  /\ exists r,
       Ruff_init (Some path)
         (_parse_and_validate_config dec
            (fun _ => Loaded DEFAULT_CONFIG) content) = Returned r
       /\ r_cmd r
          = [path; py "check"; py "--output-format=concise";
             py "--select"; py "E,W,F,B,I";
             py "--ignore"; py "E501,W191,E111"; py "@"].
Proof.
  intros Hdec.
  assert (H : _parse_and_validate_config dec
                (fun _ => Loaded DEFAULT_CONFIG) content
              = Returned default_config).
  { pose proof (default_config_codes_valid dec Hdec) as Hv.
    apply Forall_app in Hv as [Hi Hs].
    unfold _parse_and_validate_config, DEFAULT_CONFIG.
    change (dict_get _ (py "ignore") (JList []))
      with (JList (map JStr (cfg_ignore default_config))).
    change (dict_get _ (py "select") (JList []))
      with (JList (map JStr (cfg_select default_config))).
    change (dict_get _ (py "timeout") DEFAULT_TIMEOUT) with DEFAULT_TIMEOUT.
    cbv zeta. cbn [list_or_empty].
    rewrite !filter_valid_fixed by assumption. reflexivity. }
  split; [exact H|]. rewrite H. eexists. split; reflexivity.
Qed.

Lemma default_config_accepted_witness :
  (forall c, is_ascii_digit c = true -> is_ascii_digit c = true)
  /\ _parse_and_validate_config is_ascii_digit
       (fun _ => Loaded DEFAULT_CONFIG) [] = Returned default_config.
Proof.
  split; [exact (fun c H => H)|].
  exact (proj1 (default_config_accepted is_ascii_digit [] (py "ruff")
                  (fun c H => H))).
Defined.

(** ** The version of the executable *)

Lemma split_ws_from_words (s cur : text) :
  forallb (fun c => negb (is_space c)) cur = true ->
  Forall (fun w => w <> [] /\ forallb (fun c => negb (is_space c)) w = true)
         (split_ws_from cur s).
Proof.
  revert cur. induction s as [|c r IH]; intros cur Hcur; simpl.
  - destruct cur; constructor; [|constructor].
    split; [discriminate | exact Hcur].
  - destruct (is_space c) eqn:Ec.
    + destruct cur as [|c0 cur'].
      * apply IH. reflexivity.
      * constructor; [split; [discriminate | exact Hcur]|].
        apply IH. reflexivity.
    + apply IH. rewrite forallb_app, Hcur. simpl. rewrite Ec. reflexivity.
Qed.

(** X8: when [_get_ruff_version] returns a version, it is the last word
    of the output of [ruff --version] run with return code 0: a text that
    is not empty and holds no white space. It returns [None] without an
    executable, on another return code, on a timeout or another exception,
    and when the output is blank (the [IndexError] of [[-1]] is caught). *)
Theorem ruff_version_is_last_word (ruff_path : option text)
    (subprocess_run : list text -> RunResult) :
  (forall v, _get_ruff_version ruff_path subprocess_run = Some v ->
     v <> [] /\ forallb (fun c => negb (is_space c)) v = true
     /\ exists path out err front,
          ruff_path = Some path
          /\ subprocess_run [path; py "--version"] = Completed 0 out err
          /\ split_ws (strip out) = front ++ [v])
  /\ _get_ruff_version None subprocess_run = None
  /\ (forall path,
        match subprocess_run [path; py "--version"] with
        | Completed returncode out _ =>
            returncode <> 0 \/ forallb is_space out = true
        | _ => True
        end ->
        _get_ruff_version (Some path) subprocess_run = None).
Proof.
  split; [|split; [reflexivity|]].
  - intros v H. unfold _get_ruff_version in H.
    destruct ruff_path as [path|]; [|discriminate].
    destruct (subprocess_run [path; py "--version"])
      as [rc out err| |e] eqn:Erun; try discriminate.
    destruct (Z.eqb_spec rc 0) as [->|Hrc]; [|discriminate].
    pose proof (split_ws_from_words (strip out) [] eq_refl) as Hw.
    fold (split_ws (strip out)) in Hw.
    destruct (rev (split_ws (strip out))) as [|w front] eqn:Erev;
      [discriminate|].
    inversion H; subst w.
    assert (Hsplit : split_ws (strip out) = rev front ++ [v]).
    { rewrite <- (rev_involutive (split_ws (strip out))), Erev.
      reflexivity. }
    rewrite Hsplit in Hw. apply Forall_app in Hw as [_ Hw].
    apply Forall_inv in Hw as [Hne Hns].
    split; [exact Hne|]. split; [exact Hns|].
    exists path, out, err, (rev front). auto.
  - intros path H. unfold _get_ruff_version.
    destruct (subprocess_run [path; py "--version"])
      as [rc out err| |e]; try reflexivity.
    destruct (Z.eqb_spec rc 0) as [->|Hrc]; [|reflexivity].
    destruct H as [H|H]; [contradiction H; reflexivity|].
    rewrite strip_blank by exact H. reflexivity.
Qed.

Lemma ruff_version_is_last_word_witness :
  _get_ruff_version (Some (py "ruff"))
    (fun _ => Completed 0 (py "ruff 0.1.8" ++ [LF]) []) = Some (py "0.1.8")
  /\ py "0.1.8" <> []
  /\ _get_ruff_version (Some (py "ruff"))
       (fun _ => Completed 0 (py "  " ++ [LF]) []) = None.
Proof.
  assert (H : _get_ruff_version (Some (py "ruff"))
                (fun _ => Completed 0 (py "ruff 0.1.8" ++ [LF]) [])
              = Some (py "0.1.8")) by reflexivity.
  split; [exact H|]. split.
  - exact (proj1 (proj1 (ruff_version_is_last_word (Some (py "ruff"))
                           (fun _ => Completed 0 (py "ruff 0.1.8" ++ [LF]) []))
                    (py "0.1.8") H)).
  - exact (proj2 (proj2 (ruff_version_is_last_word (Some (py "ruff"))
                           (fun _ => Completed 0 (py "  " ++ [LF]) [])))
             (py "ruff") (or_intror eq_refl)).
Defined.

(** ** More on the general path *)

Lemma endswith_lf_cons (c : char) (t : text) :
  t <> [] -> endswith_lf (c :: t) = endswith_lf t.
Proof.
  intros H. unfold endswith_lf. simpl.
  destruct (rev t) as [|d r] eqn:E.
  - apply (f_equal (@rev char)) in E. rewrite rev_involutive in E.
    contradiction.
  - reflexivity.
Qed.

Lemma split_lf_from_splitlines_gen (t cur : text) :
  lf_only t = true ->
  split_lf_from cur t
  = splitlines_from cur t
    ++ (if ends_with_empty_row cur t then [[]] else []).
Proof.
  revert cur. induction t as [|c rest IH]; intros cur H.
  - simpl. destruct cur; reflexivity.
  - simpl in H. apply andb_true_iff in H as [Hc Hrest].
    cbn [split_lf_from splitlines_from].
    destruct (N.eqb c LF) eqn:Elf.
    + apply N.eqb_eq in Elf. subst c. rewrite is_linebreak_LF.
      change (N.eqb LF CR) with false. cbn [andb].
      assert (Hsl : match rest with
                    | [] => cur :: splitlines_from [] rest
                    | _ :: _ => cur :: splitlines_from [] rest
                    end = cur :: splitlines_from [] rest)
        by (destruct rest; reflexivity).
      rewrite Hsl, IH by exact Hrest.
      cbn [app]. do 2 f_equal.
      destruct rest as [|d rest']; [reflexivity|].
      unfold ends_with_empty_row.
      rewrite (endswith_lf_cons LF (d :: rest')) by discriminate.
      reflexivity.
    + rewrite orb_false_r in Hc. apply negb_true_iff in Hc. rewrite Hc.
      rewrite IH by exact Hrest. f_equal.
      destruct rest as [|d rest'].
      * unfold ends_with_empty_row, endswith_lf. simpl. rewrite Elf.
        destruct cur; reflexivity.
      * unfold ends_with_empty_row.
        rewrite (endswith_lf_cons c (d :: rest')) by discriminate.
        reflexivity.
Qed.

Lemma split_lf_splitlines_open (t : text) :
  lf_only t = true -> t <> [] -> endswith_lf t = false ->
  split_lf t = splitlines t.
Proof.
  intros Hlf Hne Hend. unfold split_lf, splitlines.
  rewrite split_lf_from_splitlines_gen by exact Hlf.
  destruct t; [contradiction|].
  unfold ends_with_empty_row. rewrite Hend. apply app_nil_r.
Qed.

(** X9: the general path on a document that is [old_text], where both
    texts have LF as their only line boundary, [old_text] ends with LF,
    [new_text] is not empty and the line counts differ. The opcode loop
    brings the document to the lines of [new_text] followed by one empty
    row; when [new_text] ends with LF that is [new_text] itself, and the
    block for the trailing terminator then adds an LF. In both cases the
    final text is [new_text] with one LF too many. *)
Theorem general_path_one_lf_too_many (old_text new_text : text)
    (e : Editor) :
  lf_only old_text = true -> lf_only new_text = true ->
  endswith_lf old_text = true -> new_text <> [] ->
  ed_text e = old_text ->
  length (splitlines old_text) <> length (splitlines new_text) ->
  ed_lines (after_opcodes old_text new_text e) = splitlines new_text ++ [[]]
  /\ ed_text (run (_apply_changes_preserving_states old_text new_text) e)
     = new_text ++ [LF].
Proof.
  intros Hlo Hln Heo Hnn Hdoc Hlen.
  assert (Hne : text_eqb old_text new_text = false).
  { apply text_eqb_neq. intros ->. apply Hlen. reflexivity. }
  assert (Hlines : ed_lines (after_opcodes old_text new_text e)
                   = splitlines new_text ++ [[]]).
  { unfold after_opcodes.
    apply apply_opcodes_lines
      with (a := splitlines old_text) (i := O) (j := O).
    - apply get_opcodes_valid.
    - apply splitlines_lf_free.
    - apply valid_script_in_range
        with (a := splitlines old_text) (b := splitlines new_text)
             (i := O) (j := O);
        [apply get_opcodes_valid | simpl; lia].
    - change (ed_lines (logged GetCarets e)) with (split_lf (ed_text e)).
      rewrite Hdoc. apply split_lf_splitlines; assumption.
    - reflexivity. }
  split; [exact Hlines|].
  destruct (endswith_lf new_text) eqn:Een.
  - apply general_path_extra_newline; assumption.
  - rewrite apply_changes_slow by assumption.
    rewrite slow_path_run, Een, run_ret. cbn [logged ed_text].
    destruct (restore_caret_frame (ed_carets e)
                (after_opcodes old_text new_text e)) as (Ht & _).
    rewrite Ht.
    rewrite <- (join_split_lf (ed_text (after_opcodes old_text new_text e))).
    fold (ed_lines (after_opcodes old_text new_text e)).
    rewrite Hlines, <- split_lf_splitlines_open by assumption.
    rewrite join_lf_snoc by apply split_lf_nonempty.
    rewrite join_split_lf. reflexivity.
Qed.

Lemma general_path_one_lf_too_many_witness :
  lf_only text_import = true /\ lf_only text_fixed = true
  /\ endswith_lf text_import = true /\ text_fixed <> []
  /\ ed_text editor_import = text_import
  /\ length (splitlines text_import) <> length (splitlines text_fixed)
  /\ ed_text (run (_apply_changes_preserving_states text_import text_fixed)
                editor_import) = text_fixed ++ [LF].
Proof.
  assert (H1 : lf_only text_import = true) by reflexivity.
  assert (H2 : lf_only text_fixed = true) by reflexivity.
  assert (H3 : endswith_lf text_import = true) by reflexivity.
  assert (H4 : text_fixed <> []) by discriminate.
  assert (H5 : ed_text editor_import = text_import) by reflexivity.
  assert (H6 : length (splitlines text_import)
               <> length (splitlines text_fixed)) by (vm_compute; lia).
  split; [exact H1|]. split; [exact H2|]. split; [exact H3|].
  split; [exact H4|]. split; [exact H5|]. split; [exact H6|].
  exact (proj2 (general_path_one_lf_too_many text_import text_fixed
                  editor_import H1 H2 H3 H4 H5 H6)).
Defined.

(** ** The change notification *)

(** X10: a run on different texts, on either path, makes
    [ed.action(EDACTION_UPDATE)] its last call and makes it once; none of
    the calls before it reads the whole text or the file name, or shows a
    message. *)
Theorem update_is_last_call (old_text new_text : text) (e : Editor) :
  let e' := run (_apply_changes_preserving_states old_text new_text) e in
  text_eqb old_text new_text = false ->
  exists body,
    ed_calls e' = ed_calls e ++ body ++ [ActionUpdate]
    /\ forallb (fun c => negb (is_action_update c || is_foreign_call c))
               body = true.
Proof.
  intros e' Hne. subst e'.
  set (p := fun c => negb (is_action_update c || is_foreign_call c)).
  destruct (Nat.eq_dec (length (splitlines old_text))
                       (length (splitlines new_text))) as [Hlen|Hlen].
  - rewrite apply_changes_fast by assumption.
    destruct (fast_path_trace old_text new_text e Hlen)
      as (x & y & Hl & _).
    exists ([GetLineStates; GetCarets; GetLineCount; GetLineLen (last_row e);
             Replace 0 0 (last_row_len e) (last_row e) new_text]
            ++ (if truthy (ed_states e)
                   && (length (splitlines old_text)
                       <=? length (ed_states e))%nat
                then state_writes (splitlines old_text)
                       (splitlines new_text) (ed_states e)
                else [])
            ++ caret_block_calls (ed_carets e) x y).
    split.
    + rewrite Hl. rewrite <- !app_assoc. reflexivity.
    + rewrite !forallb_app.
      apply andb_true_iff; split; [reflexivity|].
      apply andb_true_iff; split.
      * destruct (truthy (ed_states e)
                  && (length (splitlines old_text)
                      <=? length (ed_states e))%nat); [|reflexivity].
        apply forallb_map_true. reflexivity.
      * destruct (ed_carets e); reflexivity.
  - rewrite apply_changes_slow by assumption.
    destruct (slow_path_trace old_text new_text e) as (x & y & Hl & _).
    exists ([GetCarets]
            ++ script_calls (splitlines new_text) []
                 (get_opcodes (splitlines old_text) (splitlines new_text))
            ++ (if endswith_lf new_text
                then force_calls (after_opcodes old_text new_text e)
                else [])
            ++ caret_block_calls (ed_carets e) x y).
    split.
    + rewrite Hl. unfold slow_path_calls. rewrite <- !app_assoc. reflexivity.
    + rewrite !forallb_app.
      apply andb_true_iff; split; [reflexivity|].
      apply andb_true_iff; split;
        [apply script_calls_edits; reflexivity|].
      apply andb_true_iff; split.
      * destruct (endswith_lf new_text); reflexivity.
      * destruct (ed_carets e); reflexivity.
Qed.

Lemma update_is_last_call_witness :
  text_eqb text_abc text_axc = false
  /\ exists body,
       ed_calls (run (_apply_changes_preserving_states text_abc text_axc)
                   editor_abc) = ed_calls editor_abc ++ body ++ [ActionUpdate]
       /\ forallb (fun c => negb (is_action_update c || is_foreign_call c))
                  body = true.
Proof.
  assert (H : text_eqb text_abc text_axc = false) by reflexivity.
  split; [exact H|].
  exact (update_is_last_call text_abc text_axc editor_abc H).
Defined.

(** ** More on the fast path *)

Lemma fast_path_state_nth (old_text new_text : text) (e : Editor) (i : nat) :
  let e' := run (_apply_changes_preserving_states old_text new_text) e in
  text_eqb old_text new_text = false ->
  length (splitlines old_text) = length (splitlines new_text) ->
  truthy (ed_states e) = true ->
  (length (splitlines old_text) <= length (ed_states e))%nat ->
  (i < length (splitlines new_text))%nat ->
  (i < length (ed_states e'))%nat ->
  nth i (ed_states e') LINESTATE_NORMAL
  = if text_eqb (nth i (splitlines old_text) [])
                (nth i (splitlines new_text) [])
    then nth i (ed_states e) LINESTATE_NORMAL
    else LINESTATE_CHANGED.
Proof.
  intros e' Hne Hlen Htruthy Hstates Hi Hi'.
  set (f := fun k : nat =>
              if text_eqb (nth k (splitlines old_text) [])
                          (nth k (splitlines new_text) [])
              then nth k (ed_states e) LINESTATE_NORMAL
              else LINESTATE_CHANGED).
  set (e1 := run (fast_path_replace new_text) e).
  set (idxs := seq 0 (length (splitlines new_text))).
  assert (Hst : ed_states e' = ed_states (run (write_states f idxs) e1)).
  { subst e'. rewrite apply_changes_fast by assumption.
    rewrite fast_path_run. apply Nat.leb_le in Hstates.
    rewrite Htruthy, Hstates. cbn [andb].
    rewrite restore_states_write by exact Hlen.
    destruct (restore_caret_frame (ed_carets e)
                (run (write_states f idxs) e1)) as (_ & Hs & _).
    cbn [logged ed_states]. exact Hs. }
  rewrite Hst in Hi' |- *.
  destruct (write_states_frame f idxs e1) as (_ & _ & _ & Hlen2 & _).
  rewrite write_states_nth.
  - reflexivity.
  - apply seq_NoDup.
  - apply in_seq. lia.
  - rewrite <- Hlen2. exact Hi'.
Qed.

(** X11: when the two texts differ but have the same lines (they differ
    in line terminators only, as when a final newline is added), the fast
    path runs and, with a saved state array that is not empty and has an
    entry for every line, the document becomes [new_text] while every row
    below the line count gets its saved tag back: no row is tagged as
    changed. *)
Theorem terminator_change_keeps_tags (old_text new_text : text)
    (e : Editor) :
  let e' := run (_apply_changes_preserving_states old_text new_text) e in
  splitlines old_text = splitlines new_text ->
  text_eqb old_text new_text = false ->
  truthy (ed_states e) = true ->
  (length (splitlines old_text) <= length (ed_states e))%nat ->
  ed_text e' = new_text
  /\ forall i, (i < length (splitlines new_text))%nat ->
       (i < length (ed_states e'))%nat ->
       nth i (ed_states e') LINESTATE_NORMAL
       = nth i (ed_states e) LINESTATE_NORMAL.
Proof.
  intros e' Hsame Hne Htruthy Hstates.
  assert (Hlen : length (splitlines old_text) = length (splitlines new_text))
    by (rewrite Hsame; reflexivity).
  split; [apply fast_path_content; assumption|].
  intros i Hi Hi'. subst e'.
  rewrite fast_path_state_nth by assumption.
  rewrite Hsame, text_eqb_refl. reflexivity.
Qed.

Lemma terminator_change_keeps_tags_witness :
  splitlines text_ab = splitlines text_ab_nl
  /\ text_eqb text_ab text_ab_nl = false
  /\ truthy (ed_states editor_ab_tagged) = true
  /\ (length (splitlines text_ab) <= length (ed_states editor_ab_tagged))%nat
  /\ ed_text (run (_apply_changes_preserving_states text_ab text_ab_nl)
                editor_ab_tagged) = text_ab_nl.
Proof.
  assert (H1 : splitlines text_ab = splitlines text_ab_nl) by reflexivity.
  assert (H2 : text_eqb text_ab text_ab_nl = false) by reflexivity.
  assert (H3 : truthy (ed_states editor_ab_tagged) = true) by reflexivity.
  assert (H4 : (length (splitlines text_ab)
                <= length (ed_states editor_ab_tagged))%nat)
    by (vm_compute; lia).
  split; [exact H1|]. split; [exact H2|]. split; [exact H3|].
  split; [exact H4|].
  exact (proj1 (terminator_change_keeps_tags text_ab text_ab_nl
                  editor_ab_tagged H1 H2 H3 H4)).
Defined.

(** ** Running a command again *)

Lemma fast_path_filename (old_text new_text : text) (e : Editor) :
  text_eqb old_text new_text = false ->
  length (splitlines old_text) = length (splitlines new_text) ->
  ed_filename (run (_apply_changes_preserving_states old_text new_text) e)
  = ed_filename e.
Proof.
  intros Hne Hlen. rewrite apply_changes_fast by assumption.
  rewrite fast_path_run. cbn [logged ed_filename].
  match goal with
  | |- ed_filename (run (restore_caret ?c) ?e2) = _ =>
      destruct (restore_caret_frame c e2) as (_ & _ & Hf & _); rewrite Hf
  end.
  assert (H1 : ed_filename (run (fast_path_replace new_text) e)
               = ed_filename e)
    by (rewrite fast_path_replace_run; reflexivity).
  destruct (truthy (ed_states e)
            && (length (splitlines old_text) <=? length (ed_states e))%nat).
  - rewrite restore_states_write by exact Hlen.
    match goal with
    | |- ed_filename (run (write_states ?f ?l) ?e1) = _ =>
        destruct (write_states_frame f l e1) as (_ & _ & Hf2 & _);
        rewrite Hf2
    end.
    exact H1.
  - rewrite run_ret. exact H1.
Qed.

Lemma text_eqb_sym (s t : text) : text_eqb s t = text_eqb t s.
Proof.
  destruct (text_eqb s t) eqn:E.
  - apply text_eqb_eq in E. subst. symmetry. apply text_eqb_refl.
  - symmetry. apply text_eqb_neq. apply text_eqb_neq in E. congruence.
Qed.

(** X12: a format run whose output has the line count of the buffer
    changes the buffer to that output; when the tool, given that output,
    returns it unchanged, running the command again changes nothing: the
    document, the line states and the carets stay, no mutating call is
    made, and the run ends with a message. *)
Theorem format_twice_reports_only (linter : Linter)
    (subprocess_run : list text -> text -> RunResult) (path out err : text)
    (returncode2 : Z) (err2 : text) (e : Editor) :
  let cmd := format_cmd path (ed_filename e) in
  let e1 := run (format_file linter subprocess_run) e in
  ruff_path linter = Some path ->
  subprocess_run cmd (ed_text e) = Completed 0 out err ->
  truthy out = true ->
  text_eqb out (ed_text e) = false ->
  length (splitlines (ed_text e)) = length (splitlines out) ->
  subprocess_run cmd out = Completed returncode2 out err2 ->
  ed_text e1 = out
  /\ only_reports e1 (run (format_file linter subprocess_run) e1).
Proof.
  intros cmd e1 Hpath Hrun Hout Hdiff Hlen Hrun2.
  assert (Hne : text_eqb (ed_text e) out = false)
    by (rewrite text_eqb_sym; exact Hdiff).
  assert (He1 : e1 = logged (MsgStatus (py "Ruff: Formatted (Ctrl+Z to undo)"))
                       (run (_apply_changes_preserving_states (ed_text e) out)
                          (after_reads e))).
  { subst e1. rewrite (format_file_run linter subprocess_run path e Hpath).
    fold cmd. rewrite Hrun. cbn [format_accepts Z.eqb].
    rewrite Hout, Hdiff. cbn [andb negb]. rewrite run_bind. reflexivity. }
  assert (Ht : ed_text e1 = out).
  { rewrite He1. cbn [logged ed_text].
    apply fast_path_content; assumption. }
  assert (Hf : ed_filename e1 = ed_filename e).
  { rewrite He1. cbn [logged ed_filename].
    rewrite fast_path_filename by assumption. reflexivity. }
  split; [exact Ht|].
  rewrite (format_file_run linter subprocess_run path e1 Hpath).
  rewrite Hf, Ht. fold cmd. rewrite Hrun2.
  rewrite text_eqb_refl, andb_false_r.
  destruct (format_accepts returncode2);
    [apply only_reports_after_reads; reflexivity|].
  destruct (syntax_error_in err2);
    apply only_reports_after_reads; reflexivity.
Qed.

Lemma format_twice_reports_only_witness :
  ed_text (run (format_file (mkLinter (Some (py "ruff")) [] [] (py "30"))
                  (fun _ _ => Completed 0 text_axc []))
             editor_abc) = text_axc.
Proof.
  exact (proj1 (format_twice_reports_only
                  (mkLinter (Some (py "ruff")) [] [] (py "30"))
                  (fun _ _ => Completed 0 text_axc [])
                  (py "ruff") text_axc [] 0 [] editor_abc
                  eq_refl eq_refl eq_refl eq_refl eq_refl eq_refl)).
Defined.
